(** * API-Image-Organizer: the batch import pipeline and its collaborators

    A shallow embedding of [import_worker.py] (hashing front end, metadata
    extractor, classifier with bounded retry, catalog writes, progress
    record) and of the two catalog-side functions of [app.py] that the
    properties below talk about ([update_image_tags], [is_import_running]).

    Python values are modelled as follows.
    - [str] is a list of characters ([pystr]); characters are code points
      below 256, which is enough for every literal the program compares
      against.
    - [int] is [Z]; EXIF rationals and clock readings are [Q].
    - [None] is [option]'s [None]; a raised exception is the [Raise]
      constructor of [outcome].
    - the SQLite tables are lists of rows, in insertion order. *)

From Stdlib Require Import List String Ascii Bool Arith ZArith QArith Qround Lia.
Import ListNotations.

Open Scope Z_scope.

(** ** Python strings *)

Definition pystr := list ascii.

Definition py (s : string) : pystr := list_ascii_of_string s.

Definition pystr_eqb (a b : pystr) : bool :=
  if list_eq_dec ascii_dec a b then true else false.

(** [str.isspace] on one character (code points below 256). *)
Definition isspace (c : ascii) : bool :=
  let n := nat_of_ascii c in
  (((9 <=? n) && (n <=? 13)) || ((28 <=? n) && (n <=? 32))
   || (n =? 133) || (n =? 160))%nat.

Fixpoint lstrip (s : pystr) : pystr :=
  match s with
  | [] => []
  | c :: r => if isspace c then lstrip r else s
  end.

Definition rstrip (s : pystr) : pystr := rev (lstrip (rev s)).

(** [s.strip()] *)
Definition strip (s : pystr) : pystr := rstrip (lstrip s).

(** [s.split(sep)] for a one-character separator: never the empty list. *)
Fixpoint split (sep : ascii) (s : pystr) : list pystr :=
  match s with
  | [] => [[]]
  | c :: r =>
      if Ascii.eqb c sep then [] :: split sep r
      else match split sep r with
           | t :: ts => (c :: t) :: ts
           | [] => [[c]]
           end
  end.

Fixpoint startswith (p s : pystr) : bool :=
  match p, s with
  | [], _ => true
  | _ :: _, [] => false
  | a :: p', b :: s' => Ascii.eqb a b && startswith p' s'
  end.

Fixpoint find_from (sub s : pystr) (i : Z) : Z :=
  if startswith sub s then i
  else match s with
       | [] => -1
       | _ :: r => find_from sub r (i + 1)
       end.

(** [s.find(sub)]: lowest index of an occurrence, or -1. *)
Definition find (sub s : pystr) : Z := find_from sub s 0.

(** [s[k:]] for a non-negative [k]. *)
Definition slice_from (k : Z) (s : pystr) : pystr := skipn (Z.to_nat k) s.

(** [bool(s)] for a string. *)
Definition truthy (s : pystr) : bool :=
  match s with [] => false | _ :: _ => true end.

(** [' ' in s] *)
Definition has_space (s : pystr) : bool := existsb (Ascii.eqb " "%char) s.

(** ** Classifier: response parsing (import_worker.py, lines 175-193) *)

Definition TAGS_marker : pystr := py "TAGS:".

(** [[tag.strip() for tag in text.split(',') if tag.strip()]] *)
Definition comma_tokens (text : pystr) : list pystr :=
  map strip (filter (fun tag => truthy (strip tag)) (split ","%char text)).

Definition parse_tags (response_text : pystr) : list pystr :=
  let tags_start := find TAGS_marker response_text in
  let tags :=
    if 0 <=? tags_start then
      let tags_text := strip (slice_from (tags_start + 5) response_text) in
      comma_tokens tags_text
    else
      comma_tokens response_text in
  let tags := filter (fun tag => truthy tag && negb (has_space tag)) tags in
  match tags with
  | [] => [py "uncategorized"]
  | _ :: _ => tags
  end.

(** ** Exceptions and effects *)

(** The exception classes that some handler of the program tells apart. *)
Inductive exn :=
| RequestException      (* requests.exceptions.RequestException and subclasses *)
| IntegrityError        (* sqlite3.IntegrityError: a UNIQUE constraint failed *)
| OtherException.       (* any other subclass of Exception *)

Inductive outcome (A : Type) :=
| Ret (a : A)
| Raise (e : exn).
Arguments Ret {A} a.
Arguments Raise {A} e.

(** What the classifier does to the outside world, in order. *)
Inductive event :=
| Call                  (* one pass through the function body: one attempt *)
| Sleep (seconds : Z)   (* time.sleep *)
| LogWarning
| LogError.

(** ** Classifier: one attempt and the retry handlers
    (import_worker.py, lines 133-214) *)

Inductive json_field :=
| FStr (s : pystr)
| FNonStr.              (* a number, list, object or null: has no .find *)

Inductive json_body :=
| BodyUndecodable (e : exn)   (* response.json() raises; the class is the library's *)
| BodyNotObject               (* a JSON value without .get *)
| BodyObject (response : option json_field).

(** What one attempt meets. *)
Inductive attempt :=
| ImageUnreadable                         (* open(image_path, 'rb') fails *)
| TransportFailure                        (* requests.post raises *)
| Response (status_code : Z) (body : json_body).

Inductive body_result :=
| Parsed (tags : list pystr)
| NonSuccess.

(** The [try] block up to the status test, lines 136-193. *)
Definition request_and_parse (a : attempt) : outcome body_result :=
  match a with
  | ImageUnreadable => Raise OtherException
  | TransportFailure => Raise RequestException
  | Response status_code body =>
      if status_code =? 200 then
        match body with
        | BodyUndecodable e => Raise e
        | BodyNotObject => Raise OtherException
        | BodyObject None => Ret (Parsed (parse_tags []))
        | BodyObject (Some (FStr response_text)) =>
            Ret (Parsed (parse_tags response_text))
        | BodyObject (Some FNonStr) => Raise OtherException
        end
      else Ret NonSuccess
  end.

(** The remote endpoint as seen by one image: what the k-th attempt meets. *)
Definition endpoint := nat -> attempt.

(** [classify_image_with_ollama]; [k] is the number of attempts already
    made for this image, [retries] the remaining budget.  The result of the
    recursive call is returned as it is, an exception included. *)
Fixpoint classify_from (ep : endpoint) (k : nat) (retries : nat)
  : outcome (list pystr) * list event :=
  match request_and_parse (ep k) with
  | Ret (Parsed tags) => (Ret tags, [Call])
  | Ret NonSuccess =>
      match retries with
      | S retries' =>
          let (r, evs) := classify_from ep (S k) retries' in
          (r, Call :: LogWarning :: Sleep 2 :: evs)
      | O => (Ret [py "uncategorized"], [Call; LogError])
      end
  | Raise RequestException =>
      match retries with
      | S retries' =>
          let (r, evs) := classify_from ep (S k) retries' in
          (r, Call :: LogWarning :: Sleep 2 :: evs)
      | O => (Ret [py "error"], [Call; LogError])
      end
  | Raise _ => (Ret [py "error"], [Call; LogError])
  end.

(** The default of the [retries] parameter; the pipeline never passes another. *)
Definition default_retries : nat := 2.

Definition classify_image_with_ollama (ep : endpoint) (retries : nat)
  : outcome (list pystr) * list event :=
  classify_from ep 0 retries.

Definition attempts (evs : list event) : nat :=
  List.length (filter (fun e => match e with Call => true | _ => false end) evs).

Definition sleeps (evs : list event) : list Z :=
  flat_map (fun e => match e with Sleep s => [s] | _ => [] end) evs.


(** ** Numbers and their text *)

Definition Qltb (a b : Q) : bool := negb (Qle_bool b a).

(** [int(x)] of a rational: truncation toward zero. *)
Definition int_of_Q (x : Q) : Z := Z.quot (Qnum x) (Zpos (Qden x)).

Definition digit_char (d : Z) : ascii := ascii_of_nat (48 + Z.to_nat d).

Fixpoint digits_of (fuel : nat) (n : Z) (acc : pystr) : pystr :=
  match fuel with
  | O => acc
  | S fuel' =>
      let acc' := digit_char (n mod 10) :: acc in
      if n <? 10 then acc' else digits_of fuel' (n / 10) acc'
  end.

(** [str(n)] of an [int]. *)
Definition str_of_int (n : Z) : pystr :=
  if n <? 0 then "-"%char :: digits_of (S (Z.to_nat (Z.log2 (- n)))) (- n) []
  else digits_of (S (Z.to_nat (Z.log2 n))) n [].

(** ** Metadata extractor (import_worker.py, lines 50-131) *)

(** The values an EXIF entry can hold, as far as the extractor looks at
    them.  EXIF stores exposure time, f-number and focal length as
    RATIONAL, which the imaging library hands over as an exact fraction. *)
Inductive pyval :=
| VStr (s : pystr)
| VInt (z : Z)
| VRat (q : Q)
| VTriple (a b c : Q)    (* degrees, minutes, seconds *)
| VOther.                (* a dict, a nested tuple, ...: an object that is
                            no text, no number and no triple of numbers *)

(** [exif["GPSInfo"]]: either not a mapping, or a mapping of which only
    the keys 1 to 4 are read. *)
Inductive gps_value :=
| GpsNotDict
| GpsDict (k1 k2 k3 k4 : option pyval).

Record exif_dict := {
  DateTimeOriginal : option pyval;
  Make : option pyval;
  Model : option pyval;
  LensModel : option pyval;
  FNumber : option pyval;
  ExposureTime : option pyval;
  ISOSpeedRatings : option pyval;
  FocalLength : option pyval;
  GPSInfo : option gps_value
}.

(** [hasattr(img, '_getexif') and img._getexif()] *)
Inductive exif_read :=
| NoExif                 (* no such attribute, None, or an empty dict *)
| ExifRaises             (* the decoder raises on the embedded block *)
| Exif (e : exif_dict).

Record image := { size : Z * Z; getexif : exif_read }.

Record metadata := {
  date_taken : option pyval;
  camera_model : option pyval;
  lens : option pyval;
  aperture : option pyval;
  shutter_speed : option pyval;
  iso : option pyval;
  focal_length : option pyval;
  gps : option pyval;
  width : option Z;
  height : option Z
}.

Definition empty_metadata : metadata :=
  {| date_taken := None; camera_model := None; lens := None;
     aperture := None; shutter_speed := None; iso := None;
     focal_length := None; gps := None; width := None; height := None |}.

Definition set_date_taken v m :=
  {| date_taken := Some v; camera_model := camera_model m; lens := lens m;
     aperture := aperture m; shutter_speed := shutter_speed m; iso := iso m;
     focal_length := focal_length m; gps := gps m;
     width := width m; height := height m |}.
Definition set_camera_model v m :=
  {| date_taken := date_taken m; camera_model := Some v; lens := lens m;
     aperture := aperture m; shutter_speed := shutter_speed m; iso := iso m;
     focal_length := focal_length m; gps := gps m;
     width := width m; height := height m |}.
Definition set_lens v m :=
  {| date_taken := date_taken m; camera_model := camera_model m; lens := Some v;
     aperture := aperture m; shutter_speed := shutter_speed m; iso := iso m;
     focal_length := focal_length m; gps := gps m;
     width := width m; height := height m |}.
Definition set_aperture v m :=
  {| date_taken := date_taken m; camera_model := camera_model m; lens := lens m;
     aperture := Some v; shutter_speed := shutter_speed m; iso := iso m;
     focal_length := focal_length m; gps := gps m;
     width := width m; height := height m |}.
Definition set_shutter_speed v m :=
  {| date_taken := date_taken m; camera_model := camera_model m; lens := lens m;
     aperture := aperture m; shutter_speed := Some v; iso := iso m;
     focal_length := focal_length m; gps := gps m;
     width := width m; height := height m |}.
Definition set_iso v m :=
  {| date_taken := date_taken m; camera_model := camera_model m; lens := lens m;
     aperture := aperture m; shutter_speed := shutter_speed m; iso := Some v;
     focal_length := focal_length m; gps := gps m;
     width := width m; height := height m |}.
Definition set_focal_length v m :=
  {| date_taken := date_taken m; camera_model := camera_model m; lens := lens m;
     aperture := aperture m; shutter_speed := shutter_speed m; iso := iso m;
     focal_length := Some v; gps := gps m;
     width := width m; height := height m |}.
Definition set_gps v m :=
  {| date_taken := date_taken m; camera_model := camera_model m; lens := lens m;
     aperture := aperture m; shutter_speed := shutter_speed m; iso := iso m;
     focal_length := focal_length m; gps := Some v;
     width := width m; height := height m |}.
Definition set_size (wh : Z * Z) m :=
  {| date_taken := date_taken m; camera_model := camera_model m; lens := lens m;
     aperture := aperture m; shutter_speed := shutter_speed m; iso := iso m;
     focal_length := focal_length m; gps := gps m;
     width := Some (fst wh); height := Some (snd wh) |}.

(** A statement of the extractor's [try] body: it may assign fields of the
    [metadata] dict and may raise; what was assigned before a raise stays. *)
Definition stmt := metadata -> outcome unit * metadata.

Definition pass : stmt := fun m => (Ret tt, m).
Definition throw (e : exn) : stmt := fun m => (Raise e, m).
Definition assign (f : metadata -> metadata) : stmt := fun m => (Ret tt, f m).
Definition seq (a b : stmt) : stmt :=
  fun m => match a m with
           | (Ret _, m') => b m'
           | (Raise e, m') => (Raise e, m')
           end.
Notation "a ;; b" := (seq a b) (at level 61, right associativity).

(** Evaluate an expression that may raise, then go on with its value. *)
Definition eval {A : Type} (x : outcome A) (k : A -> stmt) : stmt :=
  match x with
  | Ret a => k a
  | Raise e => throw e
  end.

Definition as_number (v : pyval) : outcome Q :=
  match v with
  | VInt z => Ret (inject_Z z)
  | VRat q => Ret q
  | _ => Raise OtherException       (* TypeError on < and / *)
  end.

Section Extractor.

(** Library functions the extractor calls and this file does not open up:
    [str()] as applied by an f-string, and [strptime] with the pattern
    ["%Y:%m:%d %H:%M:%S"] followed by [isoformat] ([None]: ValueError). *)
Variable str_of : pyval -> pystr.
Variable strptime_iso : pystr -> option pystr.

(** Lines 77-84. *)
Definition date_stmt (exif : exif_dict) : stmt :=
  match DateTimeOriginal exif with
  | None => pass
  | Some (VStr date_str) =>
      match strptime_iso date_str with
      | Some isoformat => assign (set_date_taken (VStr isoformat))
      | None => pass                          (* except ValueError: pass *)
      end
  | Some _ => throw OtherException          (* TypeError, not a ValueError *)
  end.

(** Lines 87-90. *)
Definition camera_stmt (exif : exif_dict) : stmt :=
  match Make exif, Model exif with
  | Some make, Some model =>
      assign (set_camera_model
                (VStr (strip (str_of make ++ py " " ++ str_of model))))
  | None, Some model => assign (set_camera_model model)
  | _, None => pass
  end.

(** Lines 93-94. *)
Definition lens_stmt (exif : exif_dict) : stmt :=
  match LensModel exif with
  | Some v => assign (set_lens v)
  | None => pass
  end.

(** Lines 97-98. *)
Definition aperture_stmt (exif : exif_dict) : stmt :=
  match FNumber exif with
  | Some v =>
      eval (as_number v) (fun n =>
        if Qltb 0 n then assign (set_aperture (VStr (py "f/" ++ str_of v)))
        else pass)
  | None => pass
  end.

(** Lines 101-105: the text of the shutter-speed field for an exposure
    time that is present. *)
Definition shutter_speed_text (exp_time : pyval) : outcome pystr :=
  match as_number exp_time with
  | Raise e => Raise e
  | Ret t =>
      if Qltb t 1 then
        if Qeq_bool t 0 then Raise OtherException     (* ZeroDivisionError *)
        else Ret (py "1/" ++ str_of_int (int_of_Q (/ t)) ++ py "s")
      else Ret (str_of exp_time ++ py "s")
  end.

(** Lines 100-105. *)
Definition shutter_stmt (exif : exif_dict) : stmt :=
  match ExposureTime exif with
  | Some exp_time =>
      eval (shutter_speed_text exp_time) (fun s =>
        assign (set_shutter_speed (VStr s)))
  | None => pass
  end.

(** Lines 107-108. *)
Definition iso_stmt (exif : exif_dict) : stmt :=
  match ISOSpeedRatings exif with
  | Some v => assign (set_iso (VStr (py "ISO " ++ str_of v)))
  | None => pass
  end.

(** Lines 110-111. *)
Definition focal_stmt (exif : exif_dict) : stmt :=
  match FocalLength exif with
  | Some v => assign (set_focal_length (VStr (str_of v ++ py "mm")))
  | None => pass
  end.

(** [x[0] + x[1]/60 + x[2]/3600] *)
Definition decimal_degrees (x : pyval) : outcome Q :=
  match x with
  | VTriple d m s => Ret (d + m / 60 + s / 3600)%Q
  | _ => Raise OtherException
  end.

Definition is_str (v : pyval) (s : pystr) : bool :=
  match v with
  | VStr s' => pystr_eqb s' s
  | _ => false
  end.

(** Lines 114-127. *)
Definition gps_stmt (exif : exif_dict) : stmt :=
  match GPSInfo exif with
  | None => pass
  | Some GpsNotDict => throw OtherException      (* [2 in <int>] *)
  | Some (GpsDict k1 (Some lat) k3 (Some lon)) =>
      match k1, k3 with
      | Some lat_ref, Some lon_ref =>
          eval (decimal_degrees lat) (fun lat =>
          eval (decimal_degrees lon) (fun lon =>
            let lat := if is_str lat_ref (py "S") then (- lat)%Q else lat in
            let lon := if is_str lon_ref (py "W") then (- lon)%Q else lon in
            assign (set_gps (VStr (str_of (VRat lat) ++ py ","
                                   ++ str_of (VRat lon))))))
      | _, _ => throw OtherException             (* KeyError *)
      end
  | Some (GpsDict _ _ _ _) => pass
  end.

(** The body of [with Image.open(image_path) as img], lines 67-127. *)
Definition with_image (img : image) : stmt :=
  assign (set_size (size img)) ;;
  match getexif img with
  | NoExif => pass
  | ExifRaises => throw OtherException
  | Exif exif =>
      date_stmt exif ;; camera_stmt exif ;; lens_stmt exif ;;
      aperture_stmt exif ;; shutter_stmt exif ;; iso_stmt exif ;;
      focal_stmt exif ;; gps_stmt exif
  end.

(** [try: ... except Exception as e: logging.error(...)], lines 65-129:
    the exception is swallowed, the dict is kept as it stands. *)
Definition try_log (body : stmt) : stmt :=
  fun m => (Ret tt, snd (body m)).

(** [extract_image_metadata]; [None] is a path that [Image.open] rejects.
    The function's own result is the dict; the outcome says whether
    anything left the function as an exception. *)
Definition extract_image_metadata_outcome (file : option image)
  : outcome metadata :=
  let body := match file with
              | None => throw OtherException
              | Some img => with_image img
              end in
  match try_log body empty_metadata with
  | (Ret _, m) => Ret m
  | (Raise e, _) => Raise e
  end.

Definition extract_image_metadata (file : option image) : metadata :=
  let body := match file with
              | None => throw OtherException
              | Some img => with_image img
              end in
  snd (try_log body empty_metadata).

End Extractor.

(** ** Catalog: the two SQLite tables *)

Definition mem (x : pystr) (l : list pystr) : bool := existsb (pystr_eqb x) l.

(** A row of [images].  The [tags] column holds [json.dumps] of the list
    and is only ever read back through [json.loads]: it is kept as the
    list. *)
Record image_row := {
  row_id : Z;
  filename : pystr;
  original_path : pystr;
  hash : pystr;
  thumbnail_path : pystr;
  tags : list pystr;
  meta : metadata
}.

(** A row of [tags]. *)
Record tag_row := { tag_id : Z; name : pystr; count : Z }.

(** The database as one connection sees it; the two sequences are the
    AUTOINCREMENT counters. *)
Record database := {
  images : list image_row;
  tag_rows : list tag_row;
  images_seq : Z;
  tags_seq : Z
}.

Definition empty_database : database :=
  {| images := []; tag_rows := []; images_seq := 0; tags_seq := 0 |}.

(** [SELECT id FROM images WHERE hash = ?] then [fetchone()]. *)
Definition select_id_by_hash (db : database) (h : pystr) : option Z :=
  match List.find (fun r => pystr_eqb (hash r) h) (images db) with
  | Some r => Some (row_id r)
  | None => None
  end.

(** [SELECT tags FROM images WHERE id = ?] then [fetchone()]. *)
Definition select_tags_by_id (db : database) (image_id : Z)
  : option (list pystr) :=
  match List.find (fun r => row_id r =? image_id) (images db) with
  | Some r => Some (tags r)
  | None => None
  end.

(** An [int] that fits SQLite's 64-bit INTEGER; a larger one makes
    [execute] raise OverflowError. *)
Definition sqlite_int (z : Z) : bool := (- 2 ^ 63 <=? z) && (z <? 2 ^ 63).

(** Whether [sqlite3] takes the value as a statement parameter.  It binds
    [None], [str] and an [int] of at most 64 bits.  An EXIF rational, a
    tuple or any other object is of no type it supports and has no adapter:
    [execute] raises before the statement runs. *)
Definition sqlite_binds (v : option pyval) : bool :=
  match v with
  | None => true
  | Some (VStr _) => true
  | Some (VInt z) => sqlite_int z
  | Some (VRat _) => false
  | Some (VTriple _ _ _) => false
  | Some VOther => false
  end.

(** The ten [metadata.get(...)] parameters of lines 343-352. *)
Definition binds_metadata (m : metadata) : bool :=
  sqlite_binds (date_taken m) && sqlite_binds (camera_model m)
  && sqlite_binds (lens m) && sqlite_binds (aperture m)
  && sqlite_binds (shutter_speed m) && sqlite_binds (iso m)
  && sqlite_binds (focal_length m) && sqlite_binds (gps m)
  && sqlite_binds (option_map VInt (width m))
  && sqlite_binds (option_map VInt (height m)).

(** [INSERT INTO images (...) VALUES (...)], lines 329-354.  The parameters
    are bound before the statement runs: a metadata value that cannot be
    bound makes [execute] raise (an error that is no IntegrityError) and no
    row is written.  Then [hash] is UNIQUE.  The other parameters are
    always text. *)
Definition insert_image (db : database)
    (filename original_path hash thumbnail_path : pystr)
    (tags : list pystr) (meta : metadata) : outcome database :=
  if negb (binds_metadata meta) then Raise OtherException
  else
    match select_id_by_hash db hash with
    | Some _ => Raise IntegrityError
    | None =>
        let id := images_seq db + 1 in
        Ret {| images := images db ++
                   [{| row_id := id; filename := filename;
                       original_path := original_path; hash := hash;
                       thumbnail_path := thumbnail_path; tags := tags;
                       meta := meta |}];
               tag_rows := tag_rows db;
               images_seq := id;
               tags_seq := tags_seq db |}
    end.

(** [UPDATE images SET tags = ? WHERE id = ?] *)
Definition update_tags_by_id (db : database) (image_id : Z)
    (new_tags : list pystr) : database :=
  {| images :=
       map (fun r =>
              if row_id r =? image_id then
                {| row_id := row_id r; filename := filename r;
                   original_path := original_path r; hash := hash r;
                   thumbnail_path := thumbnail_path r; tags := new_tags;
                   meta := meta r |}
              else r) (images db);
     tag_rows := tag_rows db;
     images_seq := images_seq db;
     tags_seq := tags_seq db |}.

Definition has_tag_row (db : database) (tag : pystr) : bool :=
  existsb (fun t => pystr_eqb (name t) tag) (tag_rows db).

(** [INSERT INTO tags (name, count) VALUES (?, 1)]: [name] is UNIQUE. *)
Definition insert_tag (db : database) (tag : pystr) : outcome database :=
  if has_tag_row db tag then Raise IntegrityError
  else
    let id := tags_seq db + 1 in
    Ret {| images := images db;
           tag_rows := tag_rows db ++ [{| tag_id := id; name := tag; count := 1 |}];
           images_seq := images_seq db;
           tags_seq := id |}.

(** [UPDATE tags SET count = count + delta WHERE name = ?] *)
Definition bump_tag (db : database) (tag : pystr) (delta : Z) : database :=
  {| images := images db;
     tag_rows :=
       map (fun t =>
              if pystr_eqb (name t) tag then
                {| tag_id := tag_id t; name := name t; count := count t + delta |}
              else t) (tag_rows db);
     images_seq := images_seq db;
     tags_seq := tags_seq db |}.

(** The loop "Add or update tags" of the import worker, lines 357-363. *)
Definition add_or_update_tag (db : database) (tag : pystr) : database :=
  match insert_tag db tag with
  | Ret db' => db'
  | Raise _ => bump_tag db tag 1       (* except sqlite3.IntegrityError *)
  end.

Definition add_or_update_tags (db : database) (tags : list pystr) : database :=
  fold_left add_or_update_tag tags db.

(** [update_image_tags] of app.py, lines 135-165. *)
Definition update_image_tags (image_id : Z) (new_tags : list pystr)
    (db : database) : database :=
  let cur_image := select_tags_by_id db image_id in
  let db1 :=
    match cur_image with
    | Some current_tags =>
        fold_left (fun d tag => if mem tag new_tags then d else bump_tag d tag (-1))
                  current_tags db
    | None => db
    end in
  let db2 := update_tags_by_id db1 image_id new_tags in
  fold_left
    (fun d tag =>
       match insert_tag d tag with
       | Ret d' => d'
       | Raise _ =>
           match cur_image with
           | Some current_tags =>
               if mem tag current_tags then d else bump_tag d tag 1
           | None => d
           end
       end)
    new_tags db2.

(** What the [tags] table says about a tag ([None]: no row). *)
Definition stored_count (db : database) (tag : pystr) : option Z :=
  match List.find (fun t => pystr_eqb (name t) tag) (tag_rows db) with
  | Some t => Some (count t)
  | None => None
  end.

(** The number of image rows whose stored tag list contains the tag. *)
Definition referencing (db : database) (tag : pystr) : Z :=
  Z.of_nat (List.length (filter (fun r => mem tag (tags r)) (images db))).

(** ** Progress record *)

(** The JSON object of [import_progress.json]. *)
Record progress := {
  total : Z;
  current : Z;
  status : pystr;
  timestamp : Q
}.

(** [update_progress], lines 231-239: the file is overwritten; the model
    keeps every version, oldest first, so that the sequence of writes can
    be talked about. *)
Definition update_progress (total current : Z) (status : pystr) (now : Q)
    (written : list progress) : list progress :=
  written ++ [{| total := total; current := current;
                 status := status; timestamp := now |}].

(** The progress file as [is_import_running] finds it. *)
Inductive progress_file :=
| Absent                          (* os.path.exists is false *)
| Unreadable                      (* open or json.load raises *)
| Stored (total current : Z) (status : option pystr) (timestamp : option Q).

(** [is_import_running] of app.py, lines 199-227: the answer and the file
    it leaves behind.  [now] is the one reading of [time.time()]. *)
Definition is_import_running (now : Q) (f : progress_file)
    : bool * progress_file :=
  match f with
  | Absent => (false, f)
  | Unreadable => (false, f)                       (* except Exception *)
  | Stored total current status timestamp =>
      let completed :=
        match status with
        | Some s => pystr_eqb s (py "completed")
        | None => false
        end in
      if negb completed then
        let last_update := match timestamp with Some t => t | None => 0%Q end in
        if Qltb (now - last_update) 300 then (true, f)
        else (false, Stored total current (Some (py "completed")) (Some now))
      else (false, f)
  end.

(** ** Import pipeline (import_worker.py, lines 241-380) *)

(** Per-item log lines of [process_images]. *)
Inductive log_line :=
| CouldNotHash (path : pystr)        (* logging.error, line 299 *)
| SkippingDuplicate (path : pystr)   (* logging.info, line 309 *)
| Processed (path : pystr)           (* logging.info, line 367 *)
| ErrorProcessing (path : pystr).    (* logging.error, line 373 *)

(** Everything outside the program that one run reads. *)
Record world := {
  calculate_file_hash : pystr -> option pystr;   (* None: hashing failed *)
  basename : pystr -> pystr;
  join : pystr -> pystr -> pystr;
  copy_raises : pystr -> bool;                   (* shutil.copy2 *)
  image_open : pystr -> option image;            (* Image.open of the copy *)
  ollama : pystr -> endpoint;                    (* the endpoint, per copy *)
  clock : nat -> Q                               (* time.time() at the n-th write *)
}.

Record run_state := {
  db : database;
  processed : Z;
  skipped : Z;
  written : list progress;
  log : list log_line
}.

Definition write_progress (w : world) (total current : Z) (status : pystr)
    (st : run_state) : run_state :=
  {| db := db st; processed := processed st; skipped := skipped st;
     written := update_progress total current status
                  (clock w (List.length (written st))) (written st);
     log := log st |}.

Definition logging (l : log_line) (st : run_state) : run_state :=
  {| db := db st; processed := processed st; skipped := skipped st;
     written := written st; log := log st ++ [l] |}.

(** [range(start, stop, step)] for a positive step. *)
Fixpoint range_fuel (fuel : nat) (start stop step : Z) : list Z :=
  match fuel with
  | O => []
  | S fuel' =>
      if start <? stop then start :: range_fuel fuel' (start + step) stop step
      else []
  end.

Definition py_range (start stop step : Z) : list Z :=
  range_fuel (Z.to_nat (stop - start)) start stop step.

(** [l[i:j]] for [0 <= i]. *)
Definition slice {A : Type} (l : list A) (i j : Z) : list A :=
  firstn (Z.to_nat (j - i)) (skipn (Z.to_nat i) l).

Section Pipeline.

Variable str_of : pyval -> pystr.
Variable strptime_iso : pystr -> option pystr.
Variable w : world.
Variables images_dir thumbnails_dir : pystr.

(** Lines 316-365: from the copy to the commit.  The database is the
    connection's view at the point where the block ends or raises.  Three
    things can raise into the handler of line 372: the copy, the binding of
    a metadata value in the INSERT, and the UNIQUE constraint;
    [create_thumbnail], the extractor and the classifier catch their own
    exceptions. *)
Definition import_file (original_path file_hash secure_name : pystr)
    (d : database) : outcome unit * database :=
  let new_path := join w images_dir secure_name in
  let thumbnail_path := join w thumbnails_dir secure_name in
  if copy_raises w original_path then (Raise OtherException, d)
  else
    let metadata :=
      extract_image_metadata str_of strptime_iso (image_open w new_path) in
    match fst (classify_image_with_ollama (ollama w new_path) default_retries) with
    | Raise e => (Raise e, d)
    | Ret tags =>
        match insert_image d secure_name original_path file_hash
                (basename w thumbnail_path) tags metadata with
        | Raise e => (Raise e, d)
        | Ret d' => (Ret tt, add_or_update_tags d' tags)
        end
    end.

(** The body of [for original_path in batch], lines 295-375. *)
Definition process_item (total_images : Z) (st : run_state)
    (original_path : pystr) : run_state :=
  let could_not_hash := logging (CouldNotHash original_path) st in
  match calculate_file_hash w original_path with
  | None => could_not_hash                                  (* continue *)
  | Some file_hash =>
      if negb (truthy file_hash) then could_not_hash
      else
        let filename := basename w original_path in
        let secure_name := firstn 10 file_hash ++ py "_" ++ filename in
        match select_id_by_hash (db st) file_hash with
        | Some _ =>
            let st := logging (SkippingDuplicate original_path) st in
            let st := {| db := db st; processed := processed st + 1;
                         skipped := skipped st + 1;
                         written := written st; log := log st |} in
            write_progress w total_images (processed st) (py "processing") st
        | None =>
            match import_file original_path file_hash secure_name (db st) with
            | (Ret _, d) =>
                let st := {| db := d; processed := processed st + 1;
                             skipped := skipped st;
                             written := written st; log := log st |} in
                let st := logging (Processed original_path) st in
                write_progress w total_images (processed st) (py "processing") st
            | (Raise _, d) =>
                let st := {| db := d; processed := processed st;
                             skipped := skipped st;
                             written := written st; log := log st |} in
                let st := logging (ErrorProcessing original_path) st in
                let st := {| db := db st; processed := processed st + 1;
                             skipped := skipped st;
                             written := written st; log := log st |} in
                write_progress w total_images (processed st) (py "processing") st
            end
        end
  end.

Definition process_batch (total_images : Z) (st : run_state)
    (batch : list pystr) : run_state :=
  fold_left (process_item total_images) batch st.

(** The batches of lines 291-292. *)
Definition batches_of (image_files : list pystr) (batch_size : Z)
    : list (list pystr) :=
  let total_images := Z.of_nat (List.length image_files) in
  map (fun i => slice image_files i (Z.min (i + batch_size) total_images))
      (py_range 0 total_images batch_size).

(** [process_images]: [image_files] is what the directory scan returned,
    [catalog] the database as the run finds it (after the two
    CREATE TABLE IF NOT EXISTS).  A zero [batch_size] makes [range]
    raise, outside any handler; a negative one gives an empty range. *)
Definition process_images (image_files : list pystr) (batch_size : Z)
    (catalog : database) : outcome unit * run_state :=
  let total_images := Z.of_nat (List.length image_files) in
  let st := {| db := catalog; processed := 0; skipped := 0;
               written := []; log := [] |} in
  let st := write_progress w total_images 0 (py "starting") st in
  if batch_size =? 0 then (Raise OtherException, st)
  else
    let batches :=
      if batch_size <? 0 then [] else batches_of image_files batch_size in
    let st := fold_left (process_batch total_images) batches st in
    (Ret tt, write_progress w total_images total_images (py "completed") st).

End Pipeline.

(** ** Catalog reads of app.py *)


(** ** Starting an import and reading its progress (app.py) *)

(** The configuration constants of app.py, lines 16-20. *)
Definition DATABASE : pystr := py "image_database.sqlite".
Definition UPLOAD_FOLDER : pystr := py "data/images".
Definition THUMBNAIL_FOLDER : pystr := py "data/thumbnails".
Definition OLLAMA_URL : pystr := py "http://192.168.1.246:11434/api/generate".

(** [get_import_progress], lines 229-238: the stored object, or [None]
    when the file is missing or cannot be read. *)
Definition get_import_progress (f : progress_file) : option progress_file :=
  match f with
  | Absent => None
  | Unreadable => None                              (* except Exception *)
  | Stored _ _ _ _ => Some f
  end.

(** [start_import_process], lines 240-269.  The progress file is written
    first; [spawn] is what [subprocess.Popen] then does with the command
    ([Raise]: it raises, as it does where the creation flag does not
    exist).  The result is the function's outcome, the progress file it
    leaves and the command it built. *)
Definition start_import_process (now : Q) (spawn : list pystr -> outcome unit)
    (source_dir model_name : pystr) (batch_size : Z)
    : outcome bool * progress_file * list pystr :=
  let f := Stored 0 0 (Some (py "starting")) (Some now) in
  let cmd := [py "python"; py "import_worker.py";
              py "--source"; source_dir;
              py "--db"; DATABASE;
              py "--images-dir"; UPLOAD_FOLDER;
              py "--thumbnails-dir"; THUMBNAIL_FOLDER;
              py "--ollama-url"; OLLAMA_URL;
              py "--model"; model_name;
              py "--batch-size"; str_of_int batch_size] in
  match spawn cmd with
  | Ret _ => (Ret true, f, cmd)
  | Raise e => (Raise e, f, cmd)
  end.

(** ** Directory scan (import_worker.py, lines 216-229) *)

(** [str.lower] on one character (code points below 256): the letters
    A-Z and the upper-case letters of Latin-1. *)
Definition lower_char (c : ascii) : ascii :=
  let n := nat_of_ascii c in
  if (((65 <=? n) && (n <=? 90))
      || ((192 <=? n) && (n <=? 222) && negb (n =? 215)))%nat
  then ascii_of_nat (n + 32) else c.

(** [s.lower()] *)
Definition lower (s : pystr) : pystr := map lower_char s.

(** [s.rfind(c)] for a one-character [c]: the highest index, or -1. *)
Fixpoint rfind_char (c : ascii) (s : pystr) : Z :=
  match s with
  | [] => -1
  | x :: r =>
      let i := rfind_char c r in
      if 0 <=? i then i + 1
      else if Ascii.eqb x c then 0 else -1
  end.

(** [os.path.splitext], that is [genericpath._splitext(p, sep, altsep,
    extsep)]: the extension starts at the last dot, provided that dot comes
    after the last separator and after some character of the file name
    that is not a dot. *)
Definition splitext (sep : ascii) (altsep : option ascii) (extsep : ascii)
    (p : pystr) : pystr * pystr :=
  let sepIndex := rfind_char sep p in
  let sepIndex :=
    match altsep with
    | Some a => Z.max sepIndex (rfind_char a p)
    | None => sepIndex
    end in
  let dotIndex := rfind_char extsep p in
  if sepIndex <? dotIndex then
    (* skip all leading dots *)
    if existsb (fun c => negb (Ascii.eqb c extsep))
               (slice p (sepIndex + 1) dotIndex)
    then (firstn (Z.to_nat dotIndex) p, skipn (Z.to_nat dotIndex) p)
    else (p, [])
  else (p, []).

Definition image_extensions : list pystr :=
  [py ".jpg"; py ".jpeg"; py ".png"; py ".gif"; py ".bmp"; py ".tiff";
   py ".webp"].

Section DirectoryScan.

(** The platform: the separators of [os.path], [os.path.join], and what
    [os.walk] yields for the source directory, one (root, dirs, files)
    triple per directory. *)
Variable sep : ascii.
Variable altsep : option ascii.
Variable os_path_join : pystr -> pystr -> pystr.

(** [os.path.splitext(file.lower())[1] in image_extensions] *)
Definition has_image_extension (file : pystr) : bool :=
  mem (snd (splitext sep altsep "."%char (lower file))) image_extensions.

Definition find_images_in_directory
    (walk : list (pystr * list pystr * list pystr)) : list pystr :=
  fold_left
    (fun image_files entry =>
       let '(root, _, files) := entry in
       fold_left
         (fun image_files file =>
            if has_image_extension file
            then image_files ++ [os_path_join root file]
            else image_files)
         files image_files)
    walk [].

End DirectoryScan.

(** ** The duplicates page (app.py, lines 592-606) *)

(** [if k not in groups: groups[k] = []] followed by
    [groups[k].append(v)], on a [dict] kept as an association list in
    insertion order. *)
Fixpoint group_append {V : Type} (k : pystr) (v : V)
    (groups : list (pystr * list V)) : list (pystr * list V) :=
  match groups with
  | [] => [(k, [v])]
  | (k', vs) :: rest =>
      if pystr_eqb k' k then (k', vs ++ [v]) :: rest
      else (k', vs) :: group_append k v rest
  end.

(** Lines 597-603, over the rows of [SELECT hash, original_path, filename
    FROM images]. *)
Definition hash_groups (all_hashes : list image_row)
    : list (pystr * list (pystr * pystr)) :=
  fold_left
    (fun groups row =>
       group_append (hash row) (original_path row, filename row) groups)
    all_hashes [].

(** Line 606: [{h: files for h, files in hash_groups.items() if len(files) > 1}]. *)
Definition duplicates (all_hashes : list image_row)
    : list (pystr * list (pystr * pystr)) :=
  filter (fun g => 1 <? Z.of_nat (List.length (snd g))) (hash_groups all_hashes).

(** ** The gallery query (app.py, lines 75-109) *)

Definition dquote : ascii := ascii_of_nat 34.
Definition backslash : ascii := ascii_of_nat 92.

(** SQLite folds the 26 ASCII upper-case letters for [LIKE] and no other
    character. *)
Definition ascii_lower (c : ascii) : ascii :=
  let n := nat_of_ascii c in
  if ((65 <=? n) && (n <=? 90))%nat then ascii_of_nat (n + 32) else c.

Definition ci_eqb (a b : ascii) : bool :=
  Ascii.eqb (ascii_lower a) (ascii_lower b).

(** [text LIKE pattern] without an escape character: [%] stands for any
    run of characters, [_] for any one character, every other character
    for itself up to ASCII case. *)
Fixpoint like (pattern text : pystr) : bool :=
  match pattern with
  | [] => match text with [] => true | _ :: _ => false end
  | c :: pattern' =>
      if Ascii.eqb c "%"%char then
        (fix skip (text : pystr) : bool :=
           like pattern' text
           || match text with
              | [] => false
              | _ :: text' => skip text'
              end) text
      else
        match text with
        | [] => false
        | x :: text' =>
            (Ascii.eqb c "_"%char || ci_eqb c x) && like pattern' text'
        end
  end.

Definition hex_digit (n : nat) : ascii :=
  if (n <? 10)%nat then ascii_of_nat (48 + n) else ascii_of_nat (87 + n).

(** One character inside a JSON string as [json.dumps] writes it with
    [ensure_ascii]: the quote, the backslash and everything outside the
    range from space to tilde are escaped. *)
Definition json_escape (c : ascii) : pystr :=
  let n := nat_of_ascii c in
  if Ascii.eqb c dquote then [backslash; dquote]
  else if Ascii.eqb c backslash then [backslash; backslash]
  else if (n =? 10)%nat then [backslash; "n"%char]
  else if (n =? 13)%nat then [backslash; "r"%char]
  else if (n =? 9)%nat then [backslash; "t"%char]
  else if (n =? 8)%nat then [backslash; "b"%char]
  else if (n =? 12)%nat then [backslash; "f"%char]
  else if ((n <? 32) || (126 <? n))%nat then
    [backslash; "u"%char; "0"%char; "0"%char;
     hex_digit (n / 16); hex_digit (n mod 16)]
  else [c].

Definition json_string (s : pystr) : pystr :=
  dquote :: flat_map json_escape s ++ [dquote].

Fixpoint json_items (items : list pystr) : pystr :=
  match items with
  | [] => []
  | [s] => json_string s
  | s :: rest => json_string s ++ py ", " ++ json_items rest
  end.

(** [json.dumps(tags)] of a list of strings: what the [tags] column
    holds. *)
Definition json_dumps (tags : list pystr) : pystr :=
  "["%char :: json_items tags ++ ["]"%char].

(** [f'%"{tag}"%'] and [f'%{search_query}%'] *)
Definition tag_pattern (tag : pystr) : pystr :=
  "%"%char :: dquote :: tag ++ [dquote; "%"%char].

Definition search_pattern (search_query : pystr) : pystr :=
  "%"%char :: search_query ++ ["%"%char].

(** The WHERE clause that lines 81-90 put together, on one row. *)
Definition where_clause (tag search_query : option pystr) (r : image_row)
    : bool :=
  let text := json_dumps (tags r) in
  match tag with
  | Some t => if truthy t then like (tag_pattern t) text else true
  | None => true
  end
  && match search_query with
     | Some q => if truthy q then like (search_pattern q) text else true
     | None => true
     end.

Section Gallery.

(** What [ORDER BY date_taken DESC NULLS LAST, created_at DESC] makes of
    the selected rows; [created_at] has a resolution of one second, so the
    order of rows of one second is the engine's. *)
Variable order_by : list image_row -> list image_row.

(** [get_images]: the page and the total count.  [LIMIT] with a negative
    number is no limit, [OFFSET] with a negative number is 0. *)
Definition get_images (tag search_query : option pystr) (page per_page : Z)
    (d : database) : list image_row * Z :=
  let selected := filter (where_clause tag search_query) (images d) in
  let total_count := Z.of_nat (List.length selected) in
  let rest := skipn (Z.to_nat (page * per_page)) (order_by selected) in
  let images := if per_page <? 0 then rest
                else firstn (Z.to_nat per_page) rest in
  (images, total_count).

End Gallery.

(** ** Date ranges (app.py, lines 167-197) *)

(** [a < b] on [str]: by code point, a proper prefix first. *)
Fixpoint pystr_ltb (a b : pystr) : bool :=
  match a, b with
  | _, [] => false
  | [], _ :: _ => true
  | x :: a', y :: b' =>
      (nat_of_ascii x <? nat_of_ascii y)%nat
      || (Ascii.eqb x y && pystr_ltb a' b')
  end.

(** Lines 183-188 on the [date_ranges] dict, kept in insertion order: a
    new key gets its display text and the count 0, then the count of the
    key goes up by one. *)
Fixpoint count_range (year_month disp : pystr)
    (date_ranges : list (pystr * (pystr * Z))) : list (pystr * (pystr * Z)) :=
  match date_ranges with
  | [] => [(year_month, (disp, 0 + 1))]
  | (k, (d, n)) :: rest =>
      if pystr_eqb k year_month then (k, (d, n + 1)) :: rest
      else (k, (d, n)) :: count_range year_month disp rest
  end.

(** One step of [sorted(..., key=lambda x: x["key"], reverse=True)]: the
    entry goes in front of the first one whose key is not greater. *)
Fixpoint insert_reverse (x : pystr * pystr * Z) (l : list (pystr * pystr * Z))
    : list (pystr * pystr * Z) :=
  match l with
  | [] => [x]
  | y :: r =>
      if pystr_ltb (fst (fst x)) (fst (fst y)) then y :: insert_reverse x r
      else x :: l
  end.

Definition sorted_reverse (l : list (pystr * pystr * Z))
    : list (pystr * pystr * Z) :=
  fold_right insert_reverse [] l.

Section DateRanges.

(** [datetime.fromisoformat(s)] followed by [strftime("%Y-%m")] and
    [strftime("%B %Y")]; [None] when it raises. *)
Variable year_month_of : pystr -> option (pystr * pystr).

(** The loop of lines 178-190 over the rows of the query. *)
Definition group_dates (dates : list pystr) : list (pystr * (pystr * Z)) :=
  fold_left
    (fun date_ranges date =>
       if truthy date then
         match year_month_of date with
         | Some (year_month, disp) => count_range year_month disp date_ranges
         | None => date_ranges                                (* except: pass *)
         end
       else date_ranges)
    dates [].

(** [get_date_ranges] over [dates], the rows that
    [SELECT date_taken FROM images WHERE date_taken IS NOT NULL ORDER BY
    date_taken] returned; the result holds (key, display, count). *)
Definition get_date_ranges (dates : list pystr) : list (pystr * pystr * Z) :=
  match dates with
  | [] => []
  | _ :: _ =>
      sorted_reverse
        (map (fun e => (fst e, fst (snd e), snd (snd e))) (group_dates dates))
  end.

End DateRanges.

(** ** Hashing a file (import_worker.py, lines 25-37) *)

(** What one [f.read(8192)] gives. *)
Inductive read_result :=
| Chunk (data : list Byte.byte)   (* up to 8192 bytes; none at the end of the file *)
| ReadRaises.

Section Hashing.

(** [hashlib.sha256()], its [update] and its [hexdigest]. *)
Variable hash_state : Type.
Variable sha256 : hash_state.
Variable update : hash_state -> list Byte.byte -> hash_state.
Variable hexdigest : hash_state -> pystr.

(** The loop of lines 30-33; [chunk] is the result of the read before the
    loop test, [reads] what the further reads give.  Reading on after the
    listed reads finds the end of the file. *)
Fixpoint hash_chunks (file_hash : hash_state) (chunk : read_result)
    (reads : list read_result) : outcome hash_state :=
  match chunk with
  | ReadRaises => Raise OtherException
  | Chunk [] => Ret file_hash                          (* while chunk: *)
  | Chunk (b :: data) =>
      let file_hash := update file_hash (b :: data) in
      match reads with
      | [] => Ret file_hash
      | next :: reads' => hash_chunks file_hash next reads'
      end
  end.

(** [calculate_file_hash] on a file given by its reads ([None]: [open]
    raises).  Any exception gives [None]. *)
Definition calculate_file_hash_of (file : option (list read_result))
    : option pystr :=
  match file with
  | None => None
  | Some reads =>
      let first := match reads with [] => Chunk [] | c :: _ => c end in
      match hash_chunks sha256 first (tl reads) with
      | Ret file_hash => Some (hexdigest file_hash)
      | Raise _ => None                                (* except Exception *)
      end
  end.

End Hashing.

(** * Vocabulary of the properties *)

(** An attempt after which the classifier would try again, budget
    permitting: a non-success status or a request exception. *)
Definition retryable (a : attempt) : bool :=
  match request_and_parse a with
  | Ret NonSuccess => true
  | Raise RequestException => true
  | _ => false
  end.


(** The claim on response parsing, in its own words: the tokens of a
    comma-split, each trimmed, without those that are then empty or that
    [blank] finds a forbidden character in; the sentinel if none is left. *)
Definition surviving_tokens (blank : pystr -> bool) (text : pystr)
    : list pystr :=
  filter (fun t => truthy t && negb (blank t)) (map strip (split ","%char text)).

Definition or_uncategorized (tags : list pystr) : list pystr :=
  match tags with
  | [] => [py "uncategorized"]
  | _ :: _ => tags
  end.

(** Nothing but whitespace. *)
Definition all_space (s : pystr) : bool := forallb isspace s.

(** Some whitespace character occurs in the token. *)
Definition has_whitespace (s : pystr) : bool := existsb isspace s.

(** [sub] occurs in [s] at index [i]. *)
Definition occurs_at (sub s : pystr) (i : nat) : Prop :=
  startswith sub (skipn i s) = true.

Definition first_occurrence (sub s : pystr) (i : nat) : Prop :=
  occurs_at sub s i /\ forall j, (j < i)%nat -> ~ occurs_at sub s j.

(** [x] rounded to the nearest integer (halves upwards). *)
Definition round_nearest (x : Q) : Z := Qfloor (x + (1 # 2)).

(** The shutter-speed text as the claim words it. *)
Definition rounded_shutter_speed (str_of : pyval -> pystr) (t : Q) : pystr :=
  if Qltb t 1 then py "1/" ++ str_of_int (round_nearest (/ t)) ++ py "s"
  else str_of (VRat t) ++ py "s".

(** The EXIF dictionary without its capture timestamp. *)
Definition without_date (exif : exif_dict) : exif_dict :=
  {| DateTimeOriginal := None; Make := Make exif; Model := Model exif;
     LensModel := LensModel exif; FNumber := FNumber exif;
     ExposureTime := ExposureTime exif;
     ISOSpeedRatings := ISOSpeedRatings exif;
     FocalLength := FocalLength exif; GPSInfo := GPSInfo exif |}.

(** What one field's statement derives when nothing else is in its way. *)
Definition derived_alone (st : stmt) : metadata := snd (st empty_metadata).

(** A statement that leaves the pixel dimensions alone. *)
Definition keeps_size (st : stmt) : Prop :=
  forall m, width (snd (st m)) = width m /\ height (snd (st m)) = height m.

(** [str()] for the examples: integers in decimal, nothing else needed. *)
Definition str_of_example (v : pyval) : pystr :=
  match v with
  | VInt z => str_of_int z
  | VStr s => s
  | _ => py "?"
  end.

(** Each element is at most the next one. *)
Fixpoint nondecreasing (l : list Z) : Prop :=
  match l with
  | a :: (b :: _) as r => a <= b /\ nondecreasing r
  | _ => True
  end.

(** A small world for the examples: [hashes] says what hashing a path
    gives, [tags_for] what the endpoint answers; copying always succeeds,
    no file opens as an image, and the clock ticks once per write. *)
Definition example_world (hashes : pystr -> option pystr)
    (tags_for : pystr -> pystr) : world :=
  {| calculate_file_hash := hashes;
     basename := fun path => path;
     join := fun dir file => dir ++ py "/" ++ file;
     copy_raises := fun _ => false;
     image_open := fun _ => None;
     ollama := fun path _ =>
                 Response 200 (BodyObject (Some (FStr (tags_for path))));
     clock := fun n => inject_Z (Z.of_nat n) |}.

(** Whether hashing the path gives something the pipeline goes on with. *)
Definition hashed (w : world) (path : pystr) : option pystr :=
  match calculate_file_hash w path with
  | Some h => if truthy h then Some h else None
  | None => None
  end.

(** The metadata the pipeline extracts for a file with hash [h]: it is read
    from the copy in the images directory. *)
Definition metadata_of (str_of : pyval -> pystr)
    (strptime_iso : pystr -> option pystr) (w : world)
    (images_dir path h : pystr) : metadata :=
  extract_image_metadata str_of strptime_iso
    (image_open w (join w images_dir (firstn 10 h ++ py "_" ++ basename w path))).

(** The import of a file with hash [h] raises into the item handler
    whatever the catalog holds: the copy fails, or a metadata value cannot
    be bound. *)
Definition import_fails (str_of : pyval -> pystr)
    (strptime_iso : pystr -> option pystr) (w : world)
    (images_dir path h : pystr) : bool :=
  copy_raises w path
  || negb (binds_metadata (metadata_of str_of strptime_iso w images_dir path h)).


(** A [processing] record of a run over [T] items, written when the
    counter was at most [bound]. *)
Definition processing_record (T bound : Z) (p : progress) : Prop :=
  total p = T /\ status p = py "processing" /\ 1 <= current p <= bound.

(** The progress file of a run over [T] items in full swing: one
    [starting] record with current 0, then [processing] records whose
    values do not decrease and do not exceed the counter. *)
Definition progress_inv (T : Z) (st : run_state) : Prop :=
  0 <= processed st
  /\ exists t0 mid,
       written st = {| total := T; current := 0; status := py "starting";
                       timestamp := t0 |} :: mid
       /\ Forall (processing_record T (processed st)) mid
       /\ nondecreasing (map current (written st)).

(** Hashes for the examples: [a.jpg] and [b.jpg] hold the same bytes,
    [c.jpg] others, and [broken.jpg] cannot be read. *)
Definition example_hashes (path : pystr) : option pystr :=
  if pystr_eqb path (py "broken.jpg") then None
  else if pystr_eqb path (py "c.jpg") then Some (py "c0ffee00c0ffee00")
  else Some (py "ab12ab12ab12ab12").

Definition example_run (tags_for : pystr -> pystr) (image_files : list pystr)
    (catalog : database) : outcome unit * run_state :=
  process_images str_of_example (fun _ => None)
    (example_world example_hashes tags_for) (py "images") (py "thumbs")
    image_files 20 catalog.

(** Current value and status of each write, oldest first. *)
Definition progress_trace (st : run_state) : list (Z * pystr) :=
  map (fun p => (current p, status p)) (written st).

(** No two image rows share a content hash. *)
Definition unique_hashes (d : database) : Prop := NoDup (map hash (images d)).

(** Some image row has this content hash. *)
Definition has_record (d : database) (h : pystr) : Prop :=
  In h (map hash (images d)).



(** The count the [tags] table holds for a tag, 0 when it has no row. *)
Definition count_or_zero (d : database) (tag : pystr) : Z :=
  match stored_count d tag with
  | Some c => c
  | None => 0
  end.

(** How many times the tag occurs in a tag list. *)
Definition occurrences (tag : pystr) (l : list pystr) : Z :=
  Z.of_nat (List.length (filter (pystr_eqb tag) l)).

(** 1 when the tag is in the list, 0 otherwise. *)
Definition indicator (tag : pystr) (l : list pystr) : Z :=
  if mem tag l then 1 else 0.

(** Every stored count is the number of records that carry the tag. *)
Definition tag_counts_exact (d : database) : Prop :=
  forall tag, count_or_zero d tag = referencing d tag.

(** A catalog as the two tables are meant to be: primary keys unique and
    handed out by the sequence, tag lists without repetition, counts
    exact. *)
Definition catalog_ok (d : database) : Prop :=
  NoDup (map row_id (images d))
  /\ Forall (fun r => row_id r <= images_seq d) (images d)
  /\ Forall (fun r => NoDup (tags r)) (images d)
  /\ tag_counts_exact d.

(** A tag as the prompt asks for it: not empty, no space, no comma, and
    nothing that [strip] would remove at either end. *)
Definition clean_tag (t : pystr) : Prop :=
  t <> [] /\ has_space t = false /\ ~ In ","%char t /\ strip t = t.

(** [", ".join(tags)], the layout of the answer the prompt asks for. *)
Fixpoint join_tags (tags : list pystr) : pystr :=
  match tags with
  | [] => []
  | [t] => t
  | t :: ts => t ++ py ", " ++ join_tags ts
  end.

(** The row with its tag list replaced when it has the given id. *)
Definition with_tags (image_id : Z) (new_tags : list pystr) (r : image_row)
    : image_row :=
  if row_id r =? image_id then
    {| row_id := row_id r; filename := filename r;
       original_path := original_path r; hash := hash r;
       thumbnail_path := thumbnail_path r; tags := new_tags;
       meta := meta r |}
  else r.

(** The file a log line is about. *)
Definition path_of (l : log_line) : pystr :=
  match l with
  | CouldNotHash p | SkippingDuplicate p | Processed p | ErrorProcessing p => p
  end.

Definition is_skip (l : log_line) : bool :=
  match l with SkippingDuplicate _ => true | _ => false end.

Definition is_processed (l : log_line) : bool :=
  match l with Processed _ => true | _ => false end.

(** Whether the pipeline gets a usable hash for the path. *)
Definition hashable (w : world) (path : pystr) : bool :=
  match hashed w path with Some _ => true | None => false end.

(** The number of elements that pass a test, as an [int]. *)
Definition count_if {A : Type} (f : A -> bool) (l : list A) : Z :=
  Z.of_nat (List.length (filter f l)).

(** What [import_progress.json] holds after a sequence of writes: the
    last one. *)
Definition progress_file_of (written : list progress) : progress_file :=
  match rev written with
  | [] => Absent
  | p :: _ => Stored (total p) (current p) (Some (status p)) (Some (timestamp p))
  end.

(** The EXIF dictionary cut off after the f-number: without exposure
    time, ISO, focal length and GPS block. *)
Definition up_to_aperture (exif : exif_dict) : exif_dict :=
  {| DateTimeOriginal := DateTimeOriginal exif; Make := Make exif;
     Model := Model exif; LensModel := LensModel exif;
     FNumber := FNumber exif; ExposureTime := None;
     ISOSpeedRatings := None; FocalLength := None; GPSInfo := None |}.

(** The file name, lower-cased, is a stem followed by one of the image
    extensions, and the stem has a character that is not a dot. *)
Definition image_name (file : pystr) : Prop :=
  exists stem ext,
    lower file = stem ++ ext
    /\ In ext image_extensions
    /\ exists c, In c stem /\ c <> "."%char.

(** The value stored under a key of an association list. *)
Definition assoc {V : Type} (k : pystr) (g : list (pystr * V)) : option V :=
  match List.find (fun e => pystr_eqb (fst e) k) g with
  | Some e => Some (snd e)
  | None => None
  end.

(** Path and stored file name of the rows with a given hash, in row
    order. *)
Definition files_with_hash (h : pystr) (rows : list image_row)
    : list (pystr * pystr) :=
  map (fun r => (original_path r, filename r))
      (filter (fun r => pystr_eqb (hash r) h) rows).

(** Equal up to the case of ASCII letters. *)
Definition ci_equal (a b : pystr) : Prop :=
  map ascii_lower a = map ascii_lower b.

Definition ci_equalb (a b : pystr) : bool :=
  pystr_eqb (map ascii_lower a) (map ascii_lower b).

(** A string that [json.dumps] writes between its quotes as it is. *)
Definition json_plain (s : pystr) : Prop :=
  forall c, In c s -> json_escape c = [c].

(** The pieces between the quotes of the JSON text of a list. *)
Fixpoint quote_pieces (tags : list pystr) : list pystr :=
  match tags with
  | [] => []
  | [x] => [x]
  | x :: rest => x :: py ", " :: quote_pieces rest
  end.

(** The date is not empty, parses, and falls into the month [k]. *)
Definition dated (year_month_of : pystr -> option (pystr * pystr))
    (k : pystr) (date : pystr) : bool :=
  truthy date
  && match year_month_of date with
     | Some (k', _) => pystr_eqb k' k
     | None => false
     end.

(** Keys strictly decreasing from entry to entry. *)
Fixpoint newest_first (l : list (pystr * pystr * Z)) : Prop :=
  match l with
  | [] => True
  | a :: r =>
      Forall (fun b => pystr_ltb (fst (fst b)) (fst (fst a)) = true) r
      /\ newest_first r
  end.

(** A stand-in for the date parser in the examples: the first seven
    characters of a text of at least ten are taken for year and month. *)
Definition year_month_example (s : pystr) : option (pystr * pystr) :=
  if (10 <=? List.length s)%nat then Some (firstn 7 s, firstn 7 s) else None.

(** The record's stored file name is made of the first ten characters of
    its hash and the base name of its original path, and its thumbnail
    carries the same name. *)
Definition named_by_hash (w : world) (thumbnails_dir : pystr) (r : image_row)
    : Prop :=
  filename r = firstn 10 (hash r) ++ py "_" ++ basename w (original_path r)
  /\ thumbnail_path r = basename w (join w thumbnails_dir (filename r)).

(** * Properties *)

(** ** Classifier *)

Lemma parse_tags_nonempty (text : pystr) : parse_tags text <> [].
Proof.
  unfold parse_tags.
  destruct (filter _ _); discriminate.
Qed.

#[local] Arguments attempts : simpl never.
#[local] Arguments sleeps : simpl never.

Lemma attempts_cons_call (evs : list event) :
  attempts (Call :: LogWarning :: Sleep 2 :: evs) = S (attempts evs).
Proof. reflexivity. Qed.

Lemma sleeps_cons_call (evs : list event) :
  sleeps (Call :: LogWarning :: Sleep 2 :: evs) = 2 :: sleeps evs.
Proof. reflexivity. Qed.

Lemma request_and_parse_parsed (a : attempt) (tags : list pystr) :
  request_and_parse a = Ret (Parsed tags) -> tags <> [].
Proof.
  destruct a as [| |code [e| |[[s|]|]]]; simpl; try discriminate;
    destruct (code =? 200); try discriminate;
    injection 1 as <-; apply parse_tags_nonempty.
Qed.

(** Whatever the endpoint does, the classifier returns a non-empty tag
    list, makes between one and [retries + 1] attempts, and sleeps two
    seconds once per attempt after the first. *)
Lemma classify_from_total (ep : endpoint) (retries k : nat) :
  (exists tags, fst (classify_from ep k retries) = Ret tags /\ tags <> [])
  /\ (1 <= attempts (snd (classify_from ep k retries)) <= S retries)%nat
  /\ sleeps (snd (classify_from ep k retries))
     = repeat 2 (attempts (snd (classify_from ep k retries)) - 1).
Proof.
  revert k. induction retries as [|r IH]; intro k; simpl.
  - destruct (request_and_parse (ep k)) as [[tags|]|[| |]] eqn:E; simpl;
      (split; [eexists; split; [reflexivity|] | split; [unfold attempts; simpl; lia | reflexivity]]);
      try discriminate.
    eapply request_and_parse_parsed; eassumption.
  - specialize (IH (S k)).
    destruct (classify_from ep (S k) r) as [r' evs'] eqn:R; simpl in IH.
    destruct IH as [Hret [Hatt Hsl]].
    destruct (request_and_parse (ep k)) as [[tags|]|[| |]] eqn:E; cbn [fst snd];
      try (split; [eexists; split; [reflexivity|] | split; [unfold attempts; simpl; lia | reflexivity]];
           try discriminate; eapply request_and_parse_parsed; eassumption);
      (split; [exact Hret |]; rewrite attempts_cons_call, sleeps_cons_call;
       split; [lia |]; rewrite Hsl;
       replace (S (attempts evs') - 1)%nat with (S (attempts evs' - 1)) by lia;
       reflexivity).
Qed.








(** C10, as the code has it.  A failure inside the [try] block that is
    neither a request exception nor a non-success response makes the
    classifier return exactly [error] at once: that attempt is the last,
    nothing is slept for, whatever budget is left.  So it is for an image
    file that cannot be read, a body that is no JSON object, a [response]
    field that is no string, and a body that cannot be decoded when the
    library raises for it outside its request exceptions.  A body that
    cannot be decoded and is reported as a request exception is a
    retryable failure: while budget is left the attempt is followed by a
    warning, a sleep of two seconds and the next attempt, whose result is
    returned; without budget the result is [error]. *)
Theorem classifier_other_failure_is_immediate
    (ep : endpoint) (retries : nat) :
  let immediate :=
    classify_image_with_ollama ep retries = (Ret [py "error"], [Call; LogError])
    /\ attempts (snd (classify_image_with_ollama ep retries)) = 1%nat
    /\ sleeps (snd (classify_image_with_ollama ep retries)) = [] in
  (forall e, request_and_parse (ep 0%nat) = Raise e ->
     e <> RequestException -> immediate)
  /\ (ep 0%nat = ImageUnreadable -> immediate)
  /\ (ep 0%nat = Response 200 BodyNotObject -> immediate)
  /\ (ep 0%nat = Response 200 (BodyObject (Some FNonStr)) -> immediate)
  /\ (forall e, ep 0%nat = Response 200 (BodyUndecodable e) ->
        e <> RequestException -> immediate)
  /\ (ep 0%nat = Response 200 (BodyUndecodable RequestException) ->
      retryable (ep 0%nat) = true
      /\ classify_image_with_ollama ep 0 = (Ret [py "error"], [Call; LogError])
      /\ forall n,
           classify_image_with_ollama ep (S n)
           = (fst (classify_from ep 1 n),
              Call :: LogWarning :: Sleep 2 :: snd (classify_from ep 1 n))).
Proof.
  cbv zeta.
  assert (Himm : forall e, request_and_parse (ep 0%nat) = Raise e ->
            e <> RequestException ->
            classify_image_with_ollama ep retries
            = (Ret [py "error"], [Call; LogError])
            /\ attempts (snd (classify_image_with_ollama ep retries)) = 1%nat
            /\ sleeps (snd (classify_image_with_ollama ep retries)) = []).
  { intros e E Hne. unfold classify_image_with_ollama.
    assert (H : classify_from ep 0 retries
                = (Ret [py "error"], [Call; LogError])).
    { destruct retries; simpl; rewrite E; destruct e; try reflexivity;
        exfalso; apply Hne; reflexivity. }
    rewrite H. split; [reflexivity | split; reflexivity]. }
  split; [exact Himm|].
  split; [intro E; apply (Himm OtherException);
          [rewrite E; reflexivity | discriminate]|].
  split; [intro E; apply (Himm OtherException);
          [rewrite E; reflexivity | discriminate]|].
  split; [intro E; apply (Himm OtherException);
          [rewrite E; reflexivity | discriminate]|].
  split; [intros e E Hne; apply (Himm e);
          [rewrite E; reflexivity | exact Hne]|].
  intro E. unfold retryable, classify_image_with_ollama.
  split; [rewrite E; reflexivity|].
  split; [simpl; rewrite E; reflexivity|].
  intro n. simpl classify_from. rewrite E. cbn [request_and_parse Z.eqb Pos.eqb].
  destruct (classify_from ep 1 n) as [r evs]. reflexivity.
Qed.

(** The failures the claim names, with the whole budget left: an image
    file that cannot be read, and a body that is valid JSON but no
    object. *)
Lemma classifier_other_failure_is_immediate_witness :
  classify_image_with_ollama (fun _ => ImageUnreadable) default_retries
  = (Ret [py "error"], [Call; LogError])
  /\ classify_image_with_ollama (fun _ => Response 200 BodyNotObject)
       default_retries
     = (Ret [py "error"], [Call; LogError]).
Proof.
  split.
  - destruct (classifier_other_failure_is_immediate
                (fun _ => ImageUnreadable) default_retries)
      as [_ [H _]].
    exact (proj1 (H eq_refl)).
  - destruct (classifier_other_failure_is_immediate
                (fun _ => Response 200 BodyNotObject) default_retries)
      as [_ [_ [H _]]].
    exact (proj1 (H eq_refl)).
Defined.

(** C10 as worded fails at a malformed response body: the HTTP library
    reports a body that is not JSON as a request exception, and the
    classifier treats it as it treats a transport failure.  With such a
    body at every attempt it makes three attempts and sleeps twice before
    it returns [error]; with such a body once, it sleeps, asks again and
    returns the tags of the second answer. *)
Lemma undecodable_body_is_retried :
  let garbled := fun _ : nat => Response 200 (BodyUndecodable RequestException) in
  let garbled_once := fun k : nat =>
    match k with
    | O => Response 200 (BodyUndecodable RequestException)
    | S _ => Response 200 (BodyObject (Some (FStr (py "TAGS: cat"))))
    end in
  classify_image_with_ollama garbled default_retries
  = (Ret [py "error"],
     [Call; LogWarning; Sleep 2; Call; LogWarning; Sleep 2; Call; LogError])
  /\ attempts (snd (classify_image_with_ollama garbled default_retries)) = 3%nat
  /\ sleeps (snd (classify_image_with_ollama garbled default_retries)) = [2; 2]
  /\ classify_image_with_ollama garbled_once default_retries
     = (Ret [py "cat"], [Call; LogWarning; Sleep 2; Call]).
Proof. cbv zeta. repeat split; reflexivity. Qed.

(** ** Python string primitives *)

Lemma space_is_not_comma (c : ascii) :
  isspace c = true -> Ascii.eqb c ","%char = false.
Proof.
  intro H. destruct (Ascii.eqb c ","%char) eqn:E; [|reflexivity].
  apply Ascii.eqb_eq in E. subst c. discriminate H.
Qed.

Lemma lstrip_app_space (ws s : pystr) :
  all_space ws = true -> lstrip (ws ++ s) = lstrip s.
Proof.
  induction ws as [|c ws IH]; simpl; intro H; [reflexivity|].
  apply andb_prop in H as [Hc Hws]. rewrite Hc. auto.
Qed.

Lemma lstrip_decomp (s : pystr) :
  exists ws, all_space ws = true /\ s = ws ++ lstrip s.
Proof.
  induction s as [|c s [ws [Hws Hs]]]; simpl.
  - exists []. split; reflexivity.
  - destruct (isspace c) eqn:Hc.
    + exists (c :: ws). simpl. rewrite Hc, Hws. split; [reflexivity|].
      f_equal. exact Hs.
    + exists []. split; reflexivity.
Qed.

Lemma all_space_rev (ws : pystr) : all_space (rev ws) = all_space ws.
Proof.
  unfold all_space. induction ws as [|c ws IH]; simpl; [reflexivity|].
  rewrite forallb_app, IH. simpl. rewrite andb_true_r. apply andb_comm.
Qed.

Lemma all_space_lstrip (ws : pystr) : all_space ws = true -> lstrip ws = [].
Proof.
  induction ws as [|c ws IH]; simpl; intro H; [reflexivity|].
  apply andb_prop in H as [Hc Hws]. rewrite Hc. auto.
Qed.

Lemma rstrip_decomp (s : pystr) :
  exists ws, all_space ws = true /\ s = rstrip s ++ ws.
Proof.
  destruct (lstrip_decomp (rev s)) as [ws [Hws Hs]].
  exists (rev ws). split.
  - rewrite all_space_rev. exact Hws.
  - unfold rstrip. rewrite <- rev_app_distr, <- Hs, rev_involutive. reflexivity.
Qed.

Lemma rstrip_app_space (s ws : pystr) :
  all_space ws = true -> rstrip (s ++ ws) = rstrip s.
Proof.
  intro H. unfold rstrip. rewrite rev_app_distr, lstrip_app_space; [reflexivity|].
  rewrite all_space_rev. exact H.
Qed.

Lemma strip_space_app (ws s : pystr) :
  all_space ws = true -> strip (ws ++ s) = strip s.
Proof. intro H. unfold strip. rewrite lstrip_app_space by exact H. reflexivity. Qed.

Lemma lstrip_app_space_r (s ws : pystr) :
  all_space ws = true ->
  lstrip (s ++ ws) = match lstrip s with [] => [] | _ :: _ => lstrip s ++ ws end.
Proof.
  intro H. induction s as [|c s IH]; simpl.
  - apply all_space_lstrip. exact H.
  - destruct (isspace c); [exact IH | reflexivity].
Qed.

Lemma strip_app_space (s ws : pystr) :
  all_space ws = true -> strip (s ++ ws) = strip s.
Proof.
  intro H. unfold strip. rewrite lstrip_app_space_r by exact H.
  destruct (lstrip s) as [|c r] eqn:E; [reflexivity|].
  apply rstrip_app_space. exact H.
Qed.

Lemma strip_decomp (s : pystr) :
  exists wl wr, all_space wl = true /\ all_space wr = true
                /\ s = wl ++ strip s ++ wr.
Proof.
  destruct (lstrip_decomp s) as [wl [Hl Hs]].
  destruct (rstrip_decomp (lstrip s)) as [wr [Hr Hm]].
  exists wl, wr. repeat split; try assumption.
  unfold strip. rewrite <- Hm. exact Hs.
Qed.

Lemma split_not_nil (sep : ascii) (s : pystr) : split sep s <> [].
Proof.
  induction s as [|c s IH]; simpl; [discriminate|].
  destruct (Ascii.eqb c sep); [discriminate|].
  destruct (split sep s); [contradiction | discriminate].
Qed.

(** Whitespace in front of the text ends up in front of the first token. *)
Lemma split_space_app (ws s : pystr) :
  all_space ws = true ->
  exists t ts, split ","%char s = t :: ts
               /\ split ","%char (ws ++ s) = (ws ++ t) :: ts.
Proof.
  intro H. induction ws as [|c ws IH]; simpl.
  - destruct (split ","%char s) as [|t ts] eqn:E.
    + exfalso. eapply split_not_nil. exact E.
    + exists t, ts. split; reflexivity.
  - apply andb_prop in H as [Hc Hws].
    destruct (IH Hws) as [t [ts [E1 E2]]].
    rewrite (space_is_not_comma c Hc), E2.
    exists t, ts. split; [exact E1 | reflexivity].
Qed.

(** Whitespace behind the text ends up behind the last token. *)
Lemma split_app_space (s ws : pystr) :
  all_space ws = true ->
  exists ts t, split ","%char s = ts ++ [t]
               /\ split ","%char (s ++ ws) = ts ++ [t ++ ws].
Proof.
  intro H. induction s as [|c s [ts [t [E1 E2]]]]; simpl.
  - exists [], []. split; [reflexivity|]. simpl.
    destruct (split_space_app ws [] H) as [t [ts [E1 E2]]].
    simpl in E1. injection E1 as <- <-.
    rewrite app_nil_r in E2. exact E2.
  - destruct (Ascii.eqb c ","%char).
    + exists ([] :: ts), t. rewrite E1, E2. split; reflexivity.
    + rewrite E1, E2. destruct ts as [|t0 ts]; simpl.
      * exists [], (c :: t). split; reflexivity.
      * exists ((c :: t0) :: ts), t. split; reflexivity.
Qed.

(** Trimming the text before splitting it changes no trimmed token. *)
Lemma map_strip_split_strip (s : pystr) :
  map strip (split ","%char (strip s)) = map strip (split ","%char s).
Proof.
  destruct (strip_decomp s) as [wl [wr [Hl [Hr Hs]]]].
  rewrite Hs at 2.
  destruct (split_app_space (strip s) wr Hr) as [ts [t [E1 E2]]].
  destruct (split_space_app wl (strip s ++ wr) Hl) as [t' [ts' [E3 E4]]].
  rewrite E4, E1. rewrite E2 in E3.
  destruct ts as [|t0 ts]; simpl in E3; injection E3 as <- <-; simpl.
  - rewrite strip_space_app, strip_app_space by assumption. reflexivity.
  - rewrite strip_space_app by assumption. f_equal.
    rewrite !map_app. simpl. rewrite strip_app_space by assumption.
    reflexivity.
Qed.

(** [find] returns the index of the first occurrence, or -1 when there is
    none. *)
Lemma find_from_spec (sub s : pystr) (i : Z) :
  (find_from sub s i = -1 /\ forall j, ~ occurs_at sub s j)
  \/ (exists n, find_from sub s i = i + Z.of_nat n /\ first_occurrence sub s n).
Proof.
  revert i. induction s as [|c r IH]; intro i; simpl.
  - destruct (startswith sub []) eqn:E.
    + right. exists 0%nat. split; [lia|]. split; [exact E|]. intros j Hj. lia.
    + left. split; [reflexivity|]. intros j. unfold occurs_at.
      rewrite skipn_nil, E. discriminate.
  - destruct (startswith sub (c :: r)) eqn:E.
    + right. exists 0%nat. split; [lia|]. split; [exact E|]. intros j Hj. lia.
    + destruct (IH (i + 1)) as [[Hf Hno] | [n [Hf [Hocc Hmin]]]].
      * left. split; [exact Hf|]. intros [|j]; unfold occurs_at; simpl.
        -- rewrite E. discriminate.
        -- apply Hno.
      * right. exists (S n). split; [lia|]. split; [exact Hocc|].
        intros [|j] Hj; unfold occurs_at; simpl.
        -- rewrite E. discriminate.
        -- apply Hmin. lia.
Qed.

Lemma first_occurrence_unique (sub s : pystr) (i j : nat) :
  first_occurrence sub s i -> first_occurrence sub s j -> i = j.
Proof.
  intros [Hi Hmi] [Hj Hmj].
  destruct (Nat.lt_trichotomy i j) as [H | [H | H]]; [|exact H|].
  - exfalso. exact (Hmj i H Hi).
  - exfalso. exact (Hmi j H Hj).
Qed.

Lemma filter_map_strip (p : pystr -> bool) (l : list pystr) :
  map strip (filter (fun t => p (strip t)) l) = filter p (map strip l).
Proof.
  induction l as [|t l IH]; simpl; [reflexivity|].
  destruct (p (strip t)); simpl; rewrite IH; reflexivity.
Qed.

Lemma filter_filter_absorb {A : Type} (p q : A -> bool) (l : list A) :
  (forall x, p x = true -> q x = true) ->
  filter p (filter q l) = filter p l.
Proof.
  intro H. induction l as [|x l IH]; simpl; [reflexivity|].
  destruct (q x) eqn:Q; simpl.
  - destruct (p x); rewrite IH; reflexivity.
  - destruct (p x) eqn:P; [|exact IH]. rewrite (H x P) in Q. discriminate.
Qed.

(** The two list comprehensions of the parser together, on any text,
    trimmed first or not. *)
Lemma comma_tokens_filtered (blank : pystr -> bool) (text : pystr) :
  filter (fun tag => truthy tag && negb (blank tag)) (comma_tokens text)
  = surviving_tokens blank text.
Proof.
  unfold comma_tokens, surviving_tokens.
  rewrite (filter_map_strip truthy).
  apply filter_filter_absorb. intros x H. apply andb_prop in H. tauto.
Qed.

Lemma comma_tokens_strip_filtered (blank : pystr -> bool) (text : pystr) :
  filter (fun tag => truthy tag && negb (blank tag)) (comma_tokens (strip text))
  = surviving_tokens blank text.
Proof.
  rewrite comma_tokens_filtered. unfold surviving_tokens.
  rewrite map_strip_split_strip. reflexivity.
Qed.

(** What the parser does on every text.  If the marker occurs, the result
    is taken from the text after its first occurrence, otherwise from the
    whole text: the comma-split tokens, trimmed, without those that are
    empty after trimming or that the test of line 187 finds a space
    character (U+0020) in; [uncategorized] alone if none is left. *)
Theorem parse_tags_spec (text : pystr) :
  (forall i, first_occurrence TAGS_marker text i ->
     parse_tags text
     = or_uncategorized (surviving_tokens has_space (skipn (i + 5) text)))
  /\ ((forall i, ~ occurs_at TAGS_marker text i) ->
      parse_tags text = or_uncategorized (surviving_tokens has_space text)).
Proof.
  unfold parse_tags, find.
  destruct (find_from_spec TAGS_marker text 0)
    as [[Hf Hno] | [n [Hf Hfirst]]]; rewrite Hf.
  - split.
    + intros i [Hi _]. exfalso. exact (Hno i Hi).
    + intros _. simpl. rewrite comma_tokens_filtered. reflexivity.
  - split.
    + intros i Hi. rewrite (first_occurrence_unique _ _ _ _ Hi Hfirst).
      replace (0 <=? 0 + Z.of_nat n) with true by (symmetry; apply Z.leb_le; lia).
      unfold slice_from.
      replace (Z.to_nat (0 + Z.of_nat n + 5)) with (n + 5)%nat by lia.
      rewrite comma_tokens_strip_filtered. reflexivity.
    + intros Hno. exfalso. destruct Hfirst as [Hocc _]. exact (Hno n Hocc).
Qed.

(** The two examples of the specification, through the theorem. *)
Lemma parse_tags_spec_witness :
  parse_tags (py "blah TAGS: cat, dog, red car, , sunny")
  = [py "cat"; py "dog"; py "sunny"]
  /\ parse_tags (py "cat, dog") = [py "cat"; py "dog"].
Proof.
  split.
  - rewrite (proj1 (parse_tags_spec (py "blah TAGS: cat, dog, red car, , sunny"))
               5%nat).
    + reflexivity.
    + split; [reflexivity|].
      intros j Hj. do 5 (destruct j as [|j]; [discriminate|]). lia.
  - rewrite (proj2 (parse_tags_spec (py "cat, dog"))).
    + reflexivity.
    + intros i. do 9 (destruct i as [|i]; [discriminate|]).
      unfold occurs_at. simpl. discriminate.
Defined.

Example parse_tags_marker :
  parse_tags (py "blah TAGS: cat, dog, red car, , sunny")
  = [py "cat"; py "dog"; py "sunny"].
Proof. reflexivity. Qed.

Example parse_tags_no_marker :
  parse_tags (py "cat, dog") = [py "cat"; py "dog"].
Proof. reflexivity. Qed.

Example parse_tags_all_invalid :
  parse_tags (py "TAGS: red car, , blue sky") = [py "uncategorized"].
Proof. reflexivity. Qed.

(** C3 at the text [TAGS: red<TAB>car].  The one token contains
    whitespace, a tab, and is no single word: the claim has it discarded
    and the result [uncategorized], and so have the comment of line 186
    and the single-word rule of the prompt.  The test of line 187 looks
    for the space character only, and the token is returned as a tag.  With
    a space in place of the tab the token is discarded. *)
Theorem parse_tags_keeps_tab :
  let text := py "TAGS: red" ++ ["009"%char] ++ py "car" in
  first_occurrence TAGS_marker text 0
  /\ parse_tags text = [py "red" ++ ["009"%char] ++ py "car"]
  /\ or_uncategorized (surviving_tokens has_whitespace (skipn (0 + 5) text))
     = [py "uncategorized"]
  /\ parse_tags text
     <> or_uncategorized (surviving_tokens has_whitespace (skipn (0 + 5) text))
  /\ parse_tags (py "TAGS: red car") = [py "uncategorized"].
Proof.
  cbv zeta. split; [|split; [|split; [|split]]].
  - split; [reflexivity|]. intros j Hj. lia.
  - reflexivity.
  - reflexivity.
  - discriminate.
  - reflexivity.
Qed.

(** ** Liveness check *)

Lemma Qltb_lt (a b : Q) : Qltb a b = true <-> (a < b)%Q.
Proof.
  unfold Qltb. rewrite negb_true_iff. split.
  - intro H. apply Qnot_le_lt. intro Hle.
    apply Qle_bool_iff in Hle. congruence.
  - intro H. destruct (Qle_bool b a) eqn:E; [|reflexivity].
    apply Qle_bool_iff in E. exfalso. exact (Qlt_not_le _ _ H E).
Qed.

Lemma Qltb_ge (a b : Q) : Qltb a b = false <-> (b <= a)%Q.
Proof.
  unfold Qltb. rewrite negb_false_iff. apply Qle_bool_iff.
Qed.

Lemma pystr_eqb_eq (a b : pystr) : pystr_eqb a b = true <-> a = b.
Proof.
  unfold pystr_eqb. destruct (list_eq_dec ascii_dec a b); split;
    intro; congruence.
Qed.

Lemma pystr_eqb_refl (a : pystr) : pystr_eqb a a = true.
Proof. apply pystr_eqb_eq. reflexivity. Qed.

Lemma pystr_eqb_neq (a b : pystr) : pystr_eqb a b = false <-> a <> b.
Proof.
  unfold pystr_eqb. destruct (list_eq_dec ascii_dec a b); split;
    intro; congruence.
Qed.

(** C7.  A stored record whose status is not [completed] is reported as
    running and left as it is while it is younger than 300 seconds; from
    300 seconds on it is rewritten with status [completed] (and the time of
    the check) and reported as not running.  A record whose status is
    [completed] is reported as not running. *)
Theorem is_import_running_liveness
    (now timestamp : Q) (total current : Z) (status : pystr) :
  (status <> py "completed" -> (now - timestamp < 300)%Q ->
     is_import_running now (Stored total current (Some status) (Some timestamp))
     = (true, Stored total current (Some status) (Some timestamp)))
  /\ (status <> py "completed" -> (300 <= now - timestamp)%Q ->
      is_import_running now (Stored total current (Some status) (Some timestamp))
      = (false, Stored total current (Some (py "completed")) (Some now)))
  /\ is_import_running now
       (Stored total current (Some (py "completed")) (Some timestamp))
     = (false, Stored total current (Some (py "completed")) (Some timestamp)).
Proof.
  split; [|split].
  - intros Hs Ht. unfold is_import_running.
    apply pystr_eqb_neq in Hs. rewrite Hs. cbn [negb].
    apply Qltb_lt in Ht. rewrite Ht. reflexivity.
  - intros Hs Ht. unfold is_import_running.
    apply pystr_eqb_neq in Hs. rewrite Hs. cbn [negb].
    apply Qltb_ge in Ht. rewrite Ht. reflexivity.
  - unfold is_import_running. rewrite pystr_eqb_refl. reflexivity.
Qed.

(** A [processing] record written at second 1000, checked at second 1100
    and at second 1300. *)
Lemma is_import_running_liveness_witness :
  is_import_running 1100 (Stored 7 3 (Some (py "processing")) (Some 1000%Q))
  = (true, Stored 7 3 (Some (py "processing")) (Some 1000%Q))
  /\ is_import_running 1300 (Stored 7 3 (Some (py "processing")) (Some 1000%Q))
     = (false, Stored 7 3 (Some (py "completed")) (Some 1300%Q)).
Proof.
  split.
  - apply (proj1 (is_import_running_liveness 1100 1000 7 3 (py "processing"))).
    + discriminate.
    + reflexivity.
  - apply (proj1 (proj2 (is_import_running_liveness 1300 1000 7 3
                           (py "processing")))).
    + discriminate.
    + discriminate.
Defined.

(** ** Shutter speed *)

Lemma int_of_Q_floor (x : Q) : (0 <= x)%Q -> int_of_Q x = Qfloor x.
Proof.
  destruct x as [n d]. unfold Qle, int_of_Q, Qfloor. simpl. intro H.
  apply Z.quot_div_nonneg; lia.
Qed.

Example str_of_int_250 : str_of_int 250 = py "250".
Proof. reflexivity. Qed.

Example str_of_int_neg : str_of_int (-1024) = py "-1024".
Proof. reflexivity. Qed.

Example str_of_int_0 : str_of_int 0 = py "0".
Proof. reflexivity. Qed.

Section ShutterSpeed.

Variable str_of : pyval -> pystr.

(** C9, as the code has it.  For a positive exposure time [t] the text
    is ["1/<n>s"] when [t < 1], where [n] is [1/t] cut down to an integer
    ([n <= 1/t < n + 1]), and ["<t>s"] otherwise. *)
Theorem shutter_speed_truncates (t : Q) :
  (0 < t)%Q ->
  exists text,
    shutter_speed_text str_of (VRat t) = Ret text
    /\ ((t < 1)%Q ->
        exists n, (inject_Z n <= / t)%Q /\ (/ t < inject_Z n + 1)%Q
                  /\ text = py "1/" ++ str_of_int n ++ py "s")
    /\ ((1 <= t)%Q -> text = str_of (VRat t) ++ py "s").
Proof.
  intro Hpos. unfold shutter_speed_text. simpl.
  destruct (Qltb t 1) eqn:Hlt.
  - assert (Hz : Qeq_bool t 0 = false).
    { destruct (Qeq_bool t 0) eqn:E; [|reflexivity].
      apply Qeq_bool_iff in E. rewrite E in Hpos.
      exfalso. exact (Qlt_irrefl _ Hpos). }
    rewrite Hz. eexists. split; [reflexivity|]. split.
    + intros _. exists (int_of_Q (/ t)).
      assert (Hinv : (0 <= / t)%Q).
      { apply Qlt_le_weak. apply Qinv_lt_0_compat. exact Hpos. }
      rewrite (int_of_Q_floor _ Hinv). split; [apply Qfloor_le|].
      split; [|reflexivity].
      rewrite <- (inject_Z_plus _ 1). apply Qlt_floor.
    + intros Hge. apply Qltb_lt in Hlt. exfalso.
      exact (Qlt_not_le _ _ Hlt Hge).
  - eexists. split; [reflexivity|]. split.
    + intros Hl. apply Qltb_ge in Hlt. exfalso.
      exact (Qlt_not_le _ _ Hl Hlt).
    + intros _. reflexivity.
Qed.

End ShutterSpeed.

(** The two exposure times of the specification: 0.004 (as 1/250) gives
    [1/250s]; 2 gives the library's text of the number followed by [s]. *)
Lemma shutter_speed_truncates_witness :
  shutter_speed_text (fun _ => py "2.0") (VRat (1 # 250)) = Ret (py "1/250s")
  /\ shutter_speed_text (fun _ => py "2.0") (VRat 2) = Ret (py "2.0s").
Proof.
  destruct (shutter_speed_truncates (fun _ => py "2.0") (1 # 250))
    as [text1 [E1 _]]; [reflexivity|].
  destruct (shutter_speed_truncates (fun _ => py "2.0") 2)
    as [text2 [E2 [_ H2]]]; [reflexivity|].
  split.
  - reflexivity.
  - rewrite E2, H2; [reflexivity | discriminate].
Defined.

(** C9 as worded fails: an exposure time of 0.6 s gives [1/1s], where
    rounding [1/t = 1.67] to the nearest integer would give [1/2s]. *)
Lemma shutter_speed_is_not_rounded :
  shutter_speed_text (fun _ => []) (VRat (3 # 5)) = Ret (py "1/1s")
  /\ rounded_shutter_speed (fun _ => []) (3 # 5) = py "1/2s"
  /\ shutter_speed_text (fun _ => []) (VRat (3 # 5))
     <> Ret (rounded_shutter_speed (fun _ => []) (3 # 5)).
Proof.
  split; [reflexivity | split; [reflexivity | discriminate]].
Qed.

(** ** Metadata extractor *)

Lemma keeps_size_pass : keeps_size pass.
Proof. intro m. split; reflexivity. Qed.

Lemma keeps_size_throw (e : exn) : keeps_size (throw e).
Proof. intro m. split; reflexivity. Qed.

Lemma keeps_size_seq (a b : stmt) :
  keeps_size a -> keeps_size b -> keeps_size (a ;; b).
Proof.
  intros Ha Hb m. unfold seq. specialize (Ha m).
  destruct (a m) as [[u|e] m']; simpl in *.
  - destruct Ha as [Ha1 Ha2]. destruct (Hb m') as [Hw Hh].
    split; congruence.
  - exact Ha.
Qed.

Lemma keeps_size_eval {A : Type} (x : outcome A) (k : A -> stmt) :
  (forall a, keeps_size (k a)) -> keeps_size (eval x k).
Proof.
  intro H. destruct x as [a|e]; simpl; [apply H | apply keeps_size_throw].
Qed.

Section ExtractorProperties.

Variable str_of : pyval -> pystr.
Variable strptime_iso : pystr -> option pystr.

Ltac size_kept :=
  repeat first
    [ apply keeps_size_pass
    | apply keeps_size_throw
    | apply keeps_size_eval; intro
    | (intro; split; reflexivity)
    | match goal with
      | |- keeps_size (match ?x with _ => _ end) => destruct x
      | |- keeps_size (if ?x then _ else _) => destruct x
      end ].

Lemma keeps_size_exif (exif : exif_dict) :
  keeps_size (date_stmt strptime_iso exif ;; camera_stmt str_of exif ;;
              lens_stmt exif ;; aperture_stmt str_of exif ;;
              shutter_stmt str_of exif ;; iso_stmt str_of exif ;;
              focal_stmt str_of exif ;; gps_stmt str_of exif).
Proof.
  repeat apply keeps_size_seq.
  - unfold date_stmt. size_kept.
  - unfold camera_stmt. size_kept.
  - unfold lens_stmt. size_kept.
  - unfold aperture_stmt. size_kept.
  - unfold shutter_stmt. size_kept.
  - unfold iso_stmt. size_kept.
  - unfold focal_stmt. size_kept.
  - unfold gps_stmt. size_kept.
Qed.

(** C8, as the code has it.  The extractor never raises: it returns its
    dictionary whatever the file is.  Width and height are present whenever
    the file opens as an image, and every field is absent when it does
    not.  A capture timestamp that does not parse costs that field only:
    the result is the one the same image gives without the timestamp. *)
Theorem extractor_is_best_effort (file : option image) :
  extract_image_metadata_outcome str_of strptime_iso file
  = Ret (extract_image_metadata str_of strptime_iso file)
  /\ (forall img, file = Some img ->
        width (extract_image_metadata str_of strptime_iso file)
        = Some (fst (size img))
        /\ height (extract_image_metadata str_of strptime_iso file)
           = Some (snd (size img)))
  /\ (file = None ->
      extract_image_metadata str_of strptime_iso file = empty_metadata)
  /\ (forall img exif date_str,
        file = Some img -> getexif img = Exif exif ->
        DateTimeOriginal exif = Some (VStr date_str) ->
        strptime_iso date_str = None ->
        extract_image_metadata str_of strptime_iso file
        = extract_image_metadata str_of strptime_iso
            (Some {| size := size img; getexif := Exif (without_date exif) |})).
Proof.
  split; [|split; [|split]].
  - unfold extract_image_metadata_outcome, extract_image_metadata, try_log.
    reflexivity.
  - intros img ->. unfold extract_image_metadata, try_log, with_image.
    cbn [snd].
    set (body := match getexif img with
                 | NoExif => pass
                 | ExifRaises => throw OtherException
                 | Exif exif => _
                 end).
    assert (H : keeps_size body).
    { unfold body. destruct (getexif img);
        [apply keeps_size_pass | apply keeps_size_throw | apply keeps_size_exif]. }
    unfold seq, assign.
    destruct (H (set_size (size img) empty_metadata)) as [Hw Hh].
    rewrite Hw, Hh. split; reflexivity.
  - intros ->. reflexivity.
  - intros img exif date_str -> Hexif Hdate Hparse.
    unfold extract_image_metadata, try_log, with_image. cbn [snd getexif size].
    rewrite Hexif. unfold date_stmt at 1. rewrite Hdate, Hparse.
    destruct exif; reflexivity.
Qed.

End ExtractorProperties.

(** A 640 by 480 image whose capture timestamp is garbage: the ISO
    field is there all the same. *)
Lemma extractor_is_best_effort_witness :
  let exif := {| DateTimeOriginal := Some (VStr (py "yesterday"));
                 Make := None; Model := None; LensModel := None;
                 FNumber := None; ExposureTime := None;
                 ISOSpeedRatings := Some (VInt 100);
                 FocalLength := None; GPSInfo := None |} in
  let img := {| size := (640, 480); getexif := Exif exif |} in
  let m := extract_image_metadata str_of_example (fun _ => None) (Some img) in
  width m = Some 640 /\ height m = Some 480
  /\ date_taken m = None /\ iso m = Some (VStr (py "ISO 100")).
Proof.
  cbv zeta.
  destruct (extractor_is_best_effort str_of_example (fun _ => None)
              (Some {| size := (640, 480);
                       getexif := Exif
                         {| DateTimeOriginal := Some (VStr (py "yesterday"));
                            Make := None; Model := None; LensModel := None;
                            FNumber := None; ExposureTime := None;
                            ISOSpeedRatings := Some (VInt 100);
                            FocalLength := None; GPSInfo := None |} |}))
    as [_ [Hsize [_ Hdate]]].
  destruct (Hsize _ eq_refl) as [Hw Hh].
  split; [exact Hw | split; [exact Hh |]].
  rewrite (Hdate _ _ _ eq_refl eq_refl eq_refl eq_refl).
  split; reflexivity.
Defined.

(** C8 as worded fails twice.  With a zero exposure time the fields that
    come after the shutter speed are lost although each is derivable on
    its own; and a file that does not open as an image gives a record
    without width and height. *)
Lemma extractor_is_not_per_field :
  let exif := {| DateTimeOriginal := None; Make := None; Model := None;
                 LensModel := None; FNumber := None;
                 ExposureTime := Some (VRat 0);
                 ISOSpeedRatings := Some (VInt 100);
                 FocalLength := None; GPSInfo := None |} in
  let img := {| size := (640, 480); getexif := Exif exif |} in
  iso (derived_alone (iso_stmt str_of_example exif))
  = Some (VStr (py "ISO 100"))
  /\ iso (extract_image_metadata str_of_example (fun _ => None) (Some img))
     = None
  /\ width (extract_image_metadata str_of_example (fun _ => None) None) = None.
Proof.
  cbv zeta. split; [reflexivity | split; reflexivity].
Qed.

(** ** Batching *)

Lemma fold_left_concat {A B : Type} (f : A -> B -> A) (ls : list (list B))
    (a : A) :
  fold_left (fun acc l => fold_left f l acc) ls a = fold_left f (List.concat ls) a.
Proof.
  revert a. induction ls as [|l ls IH]; intro a; simpl; [reflexivity|].
  rewrite fold_left_app. apply IH.
Qed.

(** The slices taken along a range with a positive step, put end to end,
    are the list from the start of the range on. *)
Lemma slices_cover {A : Type} (l : list A) (step : Z) (fuel : nat) (start : Z) :
  0 < step -> 0 <= start ->
  (Z.to_nat (Z.of_nat (List.length l) - start) <= fuel)%nat ->
  List.concat (map (fun i => slice l i (Z.min (i + step) (Z.of_nat (List.length l))))
              (range_fuel fuel start (Z.of_nat (List.length l)) step))
  = skipn (Z.to_nat start) l.
Proof.
  intros Hstep. revert start.
  induction fuel as [|fuel IH]; intros start Hstart Hfuel; simpl.
  - rewrite skipn_all2; [reflexivity | lia].
  - destruct (start <? Z.of_nat (List.length l)) eqn:E.
    + apply Z.ltb_lt in E. simpl. rewrite IH by lia.
      unfold slice.
      destruct (Z.le_gt_cases (start + step) (Z.of_nat (List.length l))) as [H|H].
      * rewrite Z.min_l by lia.
        replace (Z.to_nat (start + step - start)) with (Z.to_nat step) by lia.
        replace (Z.to_nat (start + step))
          with (Z.to_nat step + Z.to_nat start)%nat by lia.
        rewrite <- skipn_skipn. apply firstn_skipn.
      * rewrite Z.min_r by lia.
        rewrite (skipn_all2 (n := Z.to_nat (start + step))) by lia.
        rewrite app_nil_r. apply firstn_all2.
        rewrite length_skipn. lia.
    + apply Z.ltb_ge in E. rewrite skipn_all2; [reflexivity | lia].
Qed.

Lemma batches_cover (image_files : list pystr) (batch_size : Z) :
  0 < batch_size -> List.concat (batches_of image_files batch_size) = image_files.
Proof.
  intro H. unfold batches_of, py_range.
  rewrite (slices_cover image_files batch_size) by lia. reflexivity.
Qed.

(** ** Import pipeline: one item *)

Lemma nondecreasing_snoc (l : list Z) (y : Z) :
  nondecreasing l -> Forall (fun x => x <= y) l -> nondecreasing (l ++ [y]).
Proof.
  induction l as [|a l IH]; intros Hl Hle; [exact I|].
  destruct l as [|b l].
  - simpl. split; [|exact I]. inversion Hle; assumption.
  - destruct Hl as [Hab Hl]. inversion Hle; subst.
    split; [exact Hab|]. apply IH; assumption.
Qed.

Section PipelineProperties.

Variable str_of : pyval -> pystr.
Variable strptime_iso : pystr -> option pystr.
Variable w : world.
Variables images_dir thumbnails_dir : pystr.

#[local] Abbreviation item :=
  (process_item str_of strptime_iso w images_dir thumbnails_dir).
#[local] Abbreviation run :=
  (process_images str_of strptime_iso w images_dir thumbnails_dir).

(** What one item does to the counter and to the progress file: either
    hashing failed and only a log line is added, or the counter goes up by
    one and one [processing] record with the new value is written. *)
Lemma process_item_progress (total_images : Z) (st : run_state) (path : pystr) :
  (hashed w path = None
   /\ item total_images st path = logging (CouldNotHash path) st)
  \/ (hashed w path <> None
      /\ processed (item total_images st path) = processed st + 1
      /\ written (item total_images st path)
         = written st ++
           [{| total := total_images; current := processed st + 1;
               status := py "processing";
               timestamp := clock w (List.length (written st)) |}]).
Proof.
  unfold process_item, hashed.
  destruct (calculate_file_hash w path) as [h|]; [|left; split; reflexivity].
  destruct (truthy h); cbn [negb]; [|left; split; reflexivity].
  right. split; [discriminate|].
  destruct (select_id_by_hash (db st) h).
  - split; reflexivity.
  - destruct (import_file _ _ _ _ _ _ _ _ _) as [[u|e] d];
      split; reflexivity.
Qed.

Lemma processing_record_mono (T a b : Z) (p : progress) :
  a <= b -> processing_record T a p -> processing_record T b p.
Proof. unfold processing_record. intros H [H1 [H2 H3]]. repeat split; try assumption; lia. Qed.

Lemma progress_inv_item (T : Z) (st : run_state) (path : pystr) :
  progress_inv T st ->
  progress_inv T (item T st path)
  /\ processed st <= processed (item T st path) <= processed st + 1.
Proof.
  intros [Hp [t0 [mid [Hw [Hmid Hnd]]]]].
  destruct (process_item_progress T st path) as [[_ E] | [_ [Ep Ew]]].
  - rewrite E. split; [|simpl; lia].
    split; [exact Hp|]. exists t0, mid. repeat split; assumption.
  - rewrite Ep. split; [|lia]. split; [lia|].
    exists t0, (mid ++ [{| total := T; current := processed st + 1;
                           status := py "processing";
                           timestamp := clock w (List.length (written st)) |}]).
    rewrite Ew, Hw. split; [reflexivity|]. split.
    + apply Forall_app. split.
      * eapply Forall_impl; [|exact Hmid].
        intro p. apply processing_record_mono. lia.
      * constructor; [|constructor]. repeat split; simpl; lia.
    + rewrite <- Hw. rewrite map_app. simpl.
      apply nondecreasing_snoc; [exact Hnd|].
      rewrite Hw. simpl. constructor; [lia|].
      apply Forall_map. eapply Forall_impl; [|exact Hmid].
      intros p [_ [_ H]]. lia.
Qed.

Lemma progress_inv_items (T : Z) (l : list pystr) (st : run_state) :
  progress_inv T st ->
  progress_inv T (fold_left (item T) l st)
  /\ processed st <= processed (fold_left (item T) l st)
     <= processed st + Z.of_nat (List.length l).
Proof.
  revert st. induction l as [|path l IH]; intros st H.
  - simpl. split; [exact H | lia].
  - destruct (progress_inv_item T st path H) as [H1 H2].
    destruct (IH _ H1) as [H3 H4].
    cbn [fold_left List.length]. split; [exact H3 | lia].
Qed.

(** A run with a batch size other than zero comes to its end, and what it
    did to the state is what the items did in scan order (in no order at
    all, for a negative batch size), between the two framing writes. *)
Lemma process_images_unfold (image_files : list pystr) (batch_size : Z)
    (catalog : database) :
  batch_size <> 0 ->
  let T := Z.of_nat (List.length image_files) in
  let st0 := write_progress w T 0 (py "starting")
               {| db := catalog; processed := 0; skipped := 0;
                  written := []; log := [] |} in
  run image_files batch_size catalog
  = (Ret tt,
     write_progress w T T (py "completed")
       (fold_left (item T)
          (if batch_size <? 0 then [] else image_files) st0)).
Proof.
  intros Hbs. cbv zeta. unfold process_images.
  destruct (batch_size =? 0) eqn:E; [apply Z.eqb_eq in E; contradiction|].
  f_equal. f_equal. unfold process_batch.
  rewrite fold_left_concat.
  destruct (batch_size <? 0) eqn:Hneg; [reflexivity|].
  apply Z.ltb_ge in Hneg. rewrite batches_cover by lia. reflexivity.
Qed.

(** C6, as the code has it.  A run writes one [starting] record with
    current 0, then [processing] records with current between 1 and the
    total, then one [completed] record with current equal to the total; the
    current values never decrease along the writes, and the [completed]
    record is the last write and the only one with that status. *)
Theorem progress_is_monotone (image_files : list pystr) (batch_size : Z)
    (catalog : database) :
  batch_size <> 0 ->
  let T := Z.of_nat (List.length image_files) in
  exists st t0 mid tN,
    run image_files batch_size catalog = (Ret tt, st)
    /\ written st
       = {| total := T; current := 0; status := py "starting";
            timestamp := t0 |}
         :: mid ++
         [{| total := T; current := T; status := py "completed";
             timestamp := tN |}]
    /\ Forall (processing_record T T) mid
    /\ nondecreasing (map current (written st)).
Proof.
  intros Hbs T. rewrite (process_images_unfold _ _ _ Hbs). fold T.
  set (st0 := write_progress w T 0 (py "starting") _).
  set (l := if batch_size <? 0 then [] else image_files).
  assert (H0 : progress_inv T st0).
  { split; [simpl; lia|]. eexists _, []. split; [reflexivity|].
    split; [constructor | exact I]. }
  destruct (progress_inv_items T l st0 H0) as [[Hp [t0 [mid [Hw [Hmid Hnd]]]]] Hb].
  assert (HT : T = Z.of_nat (List.length image_files)) by reflexivity.
  assert (Hle : processed (fold_left (item T) l st0) <= T).
  { replace (processed st0) with 0 in Hb by reflexivity.
    assert (List.length l <= List.length image_files)%nat.
    { unfold l. destruct (batch_size <? 0); simpl; lia. }
    lia. }
  eexists _, t0, mid, _. split; [reflexivity|].
  unfold write_progress, update_progress. cbn [written]. rewrite Hw.
  split; [reflexivity|]. split.
  - eapply Forall_impl; [|exact Hmid]. intro p.
    apply processing_record_mono. exact Hle.
  - rewrite <- Hw. rewrite map_app. simpl.
    apply nondecreasing_snoc; [exact Hnd|].
    rewrite Hw. simpl. constructor; [lia|].
    apply Forall_map. eapply Forall_impl; [|exact Hmid].
    intros p [_ [_ H]]. lia.
Qed.

End PipelineProperties.

(** One readable file, imported: three writes, the middle one of which
    also satisfies what the theorem says of [processing] records. *)
Lemma progress_is_monotone_witness :
  exists st t0 mid tN,
    example_run (fun _ => py "TAGS: cat") [py "c.jpg"] empty_database
    = (Ret tt, st)
    /\ written st
       = {| total := 1; current := 0; status := py "starting";
            timestamp := t0 |}
         :: mid ++
         [{| total := 1; current := 1; status := py "completed";
             timestamp := tN |}]
    /\ Forall (processing_record 1 1) mid
    /\ nondecreasing (map current (written st)).
Proof.
  apply (progress_is_monotone str_of_example (fun _ => None)
           (example_world example_hashes (fun _ => py "TAGS: cat"))
           (py "images") (py "thumbs") [py "c.jpg"] 20 empty_database).
  discriminate.
Defined.

(** C6 as worded fails: the write after the last item has status
    [processing] and already carries current equal to the total, so the
    total is reached twice. *)
Lemma processing_write_reaches_total :
  progress_trace
    (snd (example_run (fun _ => py "TAGS: cat") [py "c.jpg"] empty_database))
  = [(0, py "starting"); (1, py "processing"); (1, py "completed")].
Proof. reflexivity. Qed.

(** C5 at a file that cannot be hashed: the run logs it and goes on, but
    the counter stays at 0 and no [processing] record is written for it;
    only the closing write says 1 of 1.  Nothing is stored. *)
Theorem hash_failure_is_not_counted :
  let st := snd (example_run (fun _ => py "TAGS: cat") [py "broken.jpg"]
                   empty_database) in
  processed st = 0
  /\ progress_trace st = [(0, py "starting"); (1, py "completed")]
  /\ log st = [CouldNotHash (py "broken.jpg")]
  /\ images (db st) = [].
Proof. cbv zeta. repeat split; reflexivity. Qed.

(** The sibling paths do count: a duplicate and a fresh file each advance
    the counter and write a [processing] record. *)
Example other_outcomes_are_counted :
  let st := snd (example_run (fun _ => py "TAGS: cat")
                   [py "a.jpg"; py "b.jpg"; py "c.jpg"] empty_database) in
  processed st = 3
  /\ skipped st = 1
  /\ progress_trace st
     = [(0, py "starting"); (1, py "processing"); (2, py "processing");
        (3, py "processing"); (3, py "completed")]
  /\ log st = [Processed (py "a.jpg"); SkippingDuplicate (py "b.jpg");
               Processed (py "c.jpg")]
  /\ List.length (images (db st)) = 2%nat.
Proof. cbv zeta. repeat split; reflexivity. Qed.

(** ** Catalog: uniqueness of the content hash *)


Lemma select_id_by_hash_none (d : database) (h : pystr) :
  select_id_by_hash d h = None <-> ~ In h (map hash (images d)).
Proof.
  unfold select_id_by_hash.
  destruct (List.find _ (images d)) as [r|] eqn:E.
  - split; [discriminate|]. intro H. exfalso. apply H.
    apply find_some in E as [Hin Heq]. apply pystr_eqb_eq in Heq.
    rewrite <- Heq. apply in_map. exact Hin.
  - split; [|reflexivity]. intros _ Hin.
    apply in_map_iff in Hin as [r [Hr Hin]].
    pose proof (find_none _ _ E r Hin) as H. simpl in H.
    rewrite Hr, pystr_eqb_refl in H. discriminate.
Qed.

Lemma images_bump_tag (d : database) (tag : pystr) (delta : Z) :
  images (bump_tag d tag delta) = images d.
Proof. reflexivity. Qed.

Lemma images_add_or_update_tag (d : database) (tag : pystr) :
  images (add_or_update_tag d tag) = images d.
Proof.
  unfold add_or_update_tag, insert_tag.
  destruct (has_tag_row d tag); reflexivity.
Qed.

Lemma images_add_or_update_tags (tags : list pystr) (d : database) :
  images (add_or_update_tags d tags) = images d.
Proof.
  unfold add_or_update_tags. revert d.
  induction tags as [|tag tags IH]; intro d; simpl; [reflexivity|].
  rewrite IH. apply images_add_or_update_tag.
Qed.

(** An insert either fails to bind a metadata value, or fails on the
    UNIQUE constraint, and then changes nothing; or it appends one row with
    the given hash. *)
Lemma insert_image_cases (d : database) (fn op h tp : pystr)
    (tags : list pystr) (m : metadata) :
  (binds_metadata m = false
   /\ insert_image d fn op h tp tags m = Raise OtherException)
  \/ (binds_metadata m = true
      /\ select_id_by_hash d h <> None
      /\ insert_image d fn op h tp tags m = Raise IntegrityError)
  \/ (binds_metadata m = true
      /\ select_id_by_hash d h = None
      /\ exists d', insert_image d fn op h tp tags m = Ret d'
                    /\ exists row, hash row = h /\ images d' = images d ++ [row]).
Proof.
  unfold insert_image. destruct (binds_metadata m); cbn [negb].
  - right. destruct (select_id_by_hash d h) eqn:E.
    + left. split; [reflexivity|]. split; [discriminate | reflexivity].
    + right. split; [reflexivity|]. split; [reflexivity|].
      eexists. split; [reflexivity|].
      eexists. split; [|reflexivity]. reflexivity.
  - left. split; reflexivity.
Qed.

(** A successful insert is one that could bind its metadata and found no
    row with the hash. *)
Lemma insert_image_ret (d d' : database) (fn op h tp : pystr)
    (tags : list pystr) (m : metadata) :
  insert_image d fn op h tp tags m = Ret d' ->
  binds_metadata m = true
  /\ select_id_by_hash d h = None
  /\ d' = {| images := images d ++
                [{| row_id := images_seq d + 1; filename := fn;
                    original_path := op; hash := h; thumbnail_path := tp;
                    tags := tags; meta := m |}];
             tag_rows := tag_rows d;
             images_seq := images_seq d + 1;
             tags_seq := tags_seq d |}.
Proof.
  unfold insert_image. destruct (binds_metadata m); cbn [negb];
    [|discriminate].
  destruct (select_id_by_hash d h); [discriminate|].
  intro E. injection E as <-. repeat split.
Qed.

Section ItemEffect.

Variable str_of : pyval -> pystr.
Variable strptime_iso : pystr -> option pystr.
Variable w : world.
Variables images_dir thumbnails_dir : pystr.

#[local] Abbreviation item' :=
  (process_item str_of strptime_iso w images_dir thumbnails_dir).

(** The four per-item outcomes and what each does to the catalog. *)
Lemma process_item_db (T : Z) (st : run_state) (path : pystr) :
  (hashed w path = None
   /\ db (item' T st path) = db st
   /\ log (item' T st path) = log st ++ [CouldNotHash path])
  \/ (exists h, hashed w path = Some h
        /\ select_id_by_hash (db st) h <> None
        /\ db (item' T st path) = db st
        /\ log (item' T st path) = log st ++ [SkippingDuplicate path])
  \/ (exists h, hashed w path = Some h
        /\ select_id_by_hash (db st) h = None
        /\ import_fails str_of strptime_iso w images_dir path h = true
        /\ db (item' T st path) = db st
        /\ log (item' T st path) = log st ++ [ErrorProcessing path])
  \/ (exists h row, hashed w path = Some h
        /\ select_id_by_hash (db st) h = None
        /\ import_fails str_of strptime_iso w images_dir path h = false
        /\ hash row = h
        /\ images (db (item' T st path)) = images (db st) ++ [row]
        /\ log (item' T st path) = log st ++ [Processed path]).
Proof.
  unfold process_item, hashed.
  destruct (calculate_file_hash w path) as [h|];
    [|left; repeat split; reflexivity].
  destruct (truthy h); cbn [negb]; [|left; repeat split; reflexivity].
  right. destruct (select_id_by_hash (db st) h) as [id|] eqn:E.
  - left. exists h. repeat split; try reflexivity. rewrite E. discriminate.
  - right. unfold import_file, import_fails, metadata_of.
    destruct (copy_raises w path) eqn:C.
    + left. exists h. repeat split; try reflexivity. exact E.
    + cbn [orb].
      destruct (classify_from_total
                  (ollama w (join w images_dir (firstn 10 h ++ py "_" ++ basename w path)))
                  default_retries 0) as [[tags [Hr _]] _].
      unfold classify_image_with_ollama. rewrite Hr.
      match goal with
      | |- context [insert_image ?d ?a ?b ?c ?e ?f ?g] =>
          destruct (insert_image_cases d a b c e f g)
            as [[Hb Hi] | [[_ [Hne _]] | [Hb [_ [d' [Hi [row [Hh Him]]]]]]]]
      end.
      * left. exists h. rewrite Hi, Hb.
        repeat split; try reflexivity. exact E.
      * exfalso. apply Hne. exact E.
      * right. exists h, row. rewrite Hi, Hb.
        repeat split; try assumption; try reflexivity.
        unfold write_progress, logging. cbn [db].
        rewrite images_add_or_update_tags. exact Him.
Qed.

End ItemEffect.

(** A photo whose EXIF block gives the lens as a rational number: the
    extractor hands the value on as it is (line 94), the INSERT cannot
    bind it, and the file is counted, logged as an error and not stored. *)
Example unbindable_lens_is_not_imported :
  let exif :=
    {| DateTimeOriginal := None; Make := None; Model := None;
       LensModel := Some (VRat (50 # 1)); FNumber := None;
       ExposureTime := None; ISOSpeedRatings := None; FocalLength := None;
       GPSInfo := None |} in
  let w :=
    {| calculate_file_hash := example_hashes;
       basename := fun path => path;
       join := fun dir file => dir ++ py "/" ++ file;
       copy_raises := fun _ => false;
       image_open := fun _ => Some {| size := (640, 480); getexif := Exif exif |};
       ollama := fun _ _ =>
                   Response 200 (BodyObject (Some (FStr (py "TAGS: cat"))));
       clock := fun n => inject_Z (Z.of_nat n) |} in
  let st := snd (process_images str_of_example (fun _ => None) w (py "images")
                   (py "thumbs") [py "c.jpg"] 20 empty_database) in
  import_fails str_of_example (fun _ => None) w (py "images") (py "c.jpg")
    (py "c0ffee00c0ffee00") = true
  /\ log st = [ErrorProcessing (py "c.jpg")]
  /\ images (db st) = []
  /\ processed st = 1.
Proof. cbv zeta. repeat split; reflexivity. Qed.



Section RunEffect.

Variable str_of : pyval -> pystr.
Variable strptime_iso : pystr -> option pystr.
Variable w : world.
Variables images_dir thumbnails_dir : pystr.

#[local] Abbreviation step :=
  (process_item str_of strptime_iso w images_dir thumbnails_dir).

(** One item keeps the hashes unique, forgets no record, and forgets no
    log line. *)
Lemma process_item_keeps (T : Z) (st : run_state) (path : pystr) :
  (unique_hashes (db st) -> unique_hashes (db (step T st path)))
  /\ (forall h, has_record (db st) h -> has_record (db (step T st path)) h)
  /\ (forall line, In line (log st) -> In line (log (step T st path))).
Proof.
  destruct (process_item_db str_of strptime_iso w images_dir thumbnails_dir
              T st path)
    as [[_ [Hd Hl]] | [[h [_ [_ [Hd Hl]]]] | [[h [_ [_ [_ [Hd Hl]]]]]
        | [h [row [_ [Hsel [_ [Hh [Hi Hl]]]]]]]]]];
    try (rewrite Hd, Hl; repeat split; try tauto;
         intros line Hin; apply in_or_app; left; exact Hin).
  unfold unique_hashes, has_record. rewrite Hi, Hl, map_app. simpl.
  repeat split.
  - intro Hnd. apply NoDup_app; [exact Hnd | repeat constructor; intros [] |].
    intros a Ha [Heq|[]]. subst a.
    apply select_id_by_hash_none in Hsel. rewrite Hh in Ha. contradiction.
  - intros h' Hin. apply in_or_app. left. exact Hin.
  - intros line Hin. apply in_or_app. left. exact Hin.
Qed.





End RunEffect.

(** A progress write touches neither the catalog nor the log. *)
Lemma db_write_progress (w : world) (total current : Z) (status : pystr)
    (st : run_state) :
  db (write_progress w total current status st) = db st.
Proof. reflexivity. Qed.

Lemma log_write_progress (w : world) (total current : Z) (status : pystr)
    (st : run_state) :
  log (write_progress w total current status st) = log st.
Proof. reflexivity. Qed.


(** ** Catalog: tag counts *)

(** C2.  The classifier answers [TAGS: cat, cat] for the one file of an
    import into an empty catalog.  The tag list is stored as parsed, with
    the repetition; the loop over it inserts the tag row with count 1 and
    then, on the integrity error of the second insert, adds 1.  The stored
    count of [cat] is 2 while one record has the tag. *)
Theorem tag_count_overcounts_repeated_tag :
  let st := snd (example_run (fun _ => py "TAGS: cat, cat") [py "c.jpg"]
                   empty_database) in
  map tags (images (db st)) = [[py "cat"; py "cat"]]
  /\ stored_count (db st) (py "cat") = Some 2
  /\ referencing (db st) (py "cat") = 1.
Proof. cbv zeta. repeat split; reflexivity. Qed.

(** The same through [update_image_tags]: a tag given twice to the edit
    of an existing record is counted twice, and an edit of an id that has
    no record creates a tag row that nothing references. *)
Example update_image_tags_overcounts :
  let st := snd (example_run (fun _ => py "TAGS: cat") [py "c.jpg"]
                   empty_database) in
  let twice := update_image_tags 1 [py "dog"; py "dog"] (db st) in
  let nobody := update_image_tags 7 [py "bird"] (db st) in
  map row_id (images (db st)) = [1]
  /\ stored_count twice (py "dog") = Some 2
  /\ referencing twice (py "dog") = 1
  /\ stored_count nobody (py "bird") = Some 1
  /\ referencing nobody (py "bird") = 0.
Proof. cbv zeta. repeat split; reflexivity. Qed.

(** *** The tags table under its two statements *)

Lemma mem_In (x : pystr) (l : list pystr) : mem x l = true <-> In x l.
Proof.
  unfold mem. rewrite existsb_exists. split.
  - intros [y [Hy E]]. apply pystr_eqb_eq in E. subst. exact Hy.
  - intro H. exists x. split; [exact H | apply pystr_eqb_refl].
Qed.

Lemma mem_not_In (x : pystr) (l : list pystr) : mem x l = false <-> ~ In x l.
Proof.
  rewrite <- mem_In. destruct (mem x l); split; intro H; congruence.
Qed.

Lemma has_tag_row_stored (d : database) (t : pystr) :
  has_tag_row d t = false <-> stored_count d t = None.
Proof.
  unfold has_tag_row, stored_count.
  induction (tag_rows d) as [|r l IH]; simpl; [split; reflexivity|].
  destruct (pystr_eqb (name r) t); simpl; [split; discriminate | exact IH].
Qed.

Lemma count_or_zero_no_row (d : database) (t : pystr) :
  has_tag_row d t = false -> count_or_zero d t = 0.
Proof.
  intro H. apply has_tag_row_stored in H. unfold count_or_zero.
  rewrite H. reflexivity.
Qed.

Lemma has_tag_row_bump (d : database) (t : pystr) (delta : Z) (t' : pystr) :
  has_tag_row (bump_tag d t delta) t' = has_tag_row d t'.
Proof.
  unfold has_tag_row, bump_tag. cbn [tag_rows].
  induction (tag_rows d) as [|r l IH]; simpl; [reflexivity|].
  rewrite IH. destruct (pystr_eqb (name r) t); reflexivity.
Qed.

Lemma stored_count_bump_other (d : database) (t : pystr) (delta : Z)
    (t' : pystr) :
  t' <> t -> stored_count (bump_tag d t delta) t' = stored_count d t'.
Proof.
  intro Hne. unfold stored_count, bump_tag. cbn [tag_rows].
  induction (tag_rows d) as [|r l IH]; simpl; [reflexivity|].
  destruct (pystr_eqb (name r) t) eqn:E1; cbn [name].
  - destruct (pystr_eqb (name r) t') eqn:E2; [|exact IH].
    apply pystr_eqb_eq in E1. apply pystr_eqb_eq in E2. congruence.
  - destruct (pystr_eqb (name r) t'); [reflexivity | exact IH].
Qed.

Lemma count_or_zero_bump_same (d : database) (t : pystr) (delta : Z) :
  has_tag_row d t = true ->
  count_or_zero (bump_tag d t delta) t = count_or_zero d t + delta.
Proof.
  unfold count_or_zero, stored_count, has_tag_row, bump_tag. cbn [tag_rows].
  induction (tag_rows d) as [|r l IH]; simpl; [discriminate|].
  destruct (pystr_eqb (name r) t) eqn:E1; cbn [name]; simpl.
  - rewrite E1. reflexivity.
  - rewrite E1. exact IH.
Qed.

Lemma count_or_zero_bump_other (d : database) (t : pystr) (delta : Z)
    (t' : pystr) :
  t' <> t -> count_or_zero (bump_tag d t delta) t' = count_or_zero d t'.
Proof.
  intro H. unfold count_or_zero. rewrite stored_count_bump_other by exact H.
  reflexivity.
Qed.

Lemma find_app_none {A : Type} (f : A -> bool) (l : list A) (x : A) :
  List.find f (l ++ [x])
  = match List.find f l with
    | Some y => Some y
    | None => if f x then Some x else None
    end.
Proof.
  induction l as [|a l IH]; simpl; [reflexivity|].
  destruct (f a); [reflexivity | exact IH].
Qed.

(** A successful [INSERT INTO tags]: the new row has count 1, the other
    tags keep what they had. *)
Lemma insert_tag_cases (d : database) (t : pystr) :
  (has_tag_row d t = true /\ insert_tag d t = Raise IntegrityError)
  \/ (has_tag_row d t = false
      /\ exists d', insert_tag d t = Ret d'
          /\ images d' = images d
          /\ images_seq d' = images_seq d
          /\ count_or_zero d' t = 1
          /\ (forall t', has_tag_row d' t' = has_tag_row d t' || pystr_eqb t t')
          /\ (forall t', t' <> t -> count_or_zero d' t' = count_or_zero d t')).
Proof.
  unfold insert_tag. destruct (has_tag_row d t) eqn:E.
  - left. split; reflexivity.
  - right. split; [reflexivity|]. eexists. split; [reflexivity|].
    cbn [images images_seq]. split; [reflexivity|]. split; [reflexivity|].
    split; [|split].
    + unfold count_or_zero, stored_count. cbn [tag_rows].
      rewrite find_app_none. apply has_tag_row_stored in E.
      unfold stored_count in E.
      destruct (List.find _ (tag_rows d)); [discriminate|].
      cbn [name]. rewrite pystr_eqb_refl. reflexivity.
    + intro t'. unfold has_tag_row. cbn [tag_rows].
      rewrite existsb_app. simpl. rewrite orb_false_r. reflexivity.
    + intros t' Hne. unfold count_or_zero, stored_count. cbn [tag_rows].
      rewrite find_app_none.
      destruct (List.find _ (tag_rows d)); [reflexivity|].
      cbn [name]. destruct (pystr_eqb t t') eqn:E2; [|reflexivity].
      apply pystr_eqb_eq in E2. congruence.
Qed.

Lemma occurrences_cons (tag t : pystr) (l : list pystr) :
  occurrences tag (t :: l)
  = (if pystr_eqb tag t then 1 else 0) + occurrences tag l.
Proof.
  unfold occurrences. simpl. destruct (pystr_eqb tag t); simpl List.length; lia.
Qed.

Lemma occurrences_not_In (tag : pystr) (l : list pystr) :
  ~ In tag l -> occurrences tag l = 0.
Proof.
  induction l as [|t l IH]; intro H; [reflexivity|].
  rewrite occurrences_cons.
  destruct (pystr_eqb tag t) eqn:E.
  - apply pystr_eqb_eq in E. exfalso. apply H. left. symmetry. exact E.
  - rewrite IH; [reflexivity|]. intro Hin. apply H. right. exact Hin.
Qed.

Lemma indicator_cons (tag t : pystr) (l : list pystr) :
  indicator tag (t :: l) = if pystr_eqb tag t then 1 else indicator tag l.
Proof. unfold indicator, mem. simpl. destruct (pystr_eqb tag t); reflexivity. Qed.

Lemma indicator_not_In (tag : pystr) (l : list pystr) :
  ~ In tag l -> indicator tag l = 0.
Proof. intro H. apply mem_not_In in H. unfold indicator. rewrite H. reflexivity. Qed.

(** In a list without repetition a tag occurs once or not at all. *)
Lemma occurrences_NoDup (tag : pystr) (l : list pystr) :
  NoDup l -> occurrences tag l = indicator tag l.
Proof.
  induction l as [|t l IH]; intro Hnd; [reflexivity|].
  inversion Hnd as [|x xs Hnotin Hnd']; subst.
  rewrite occurrences_cons, indicator_cons.
  destruct (pystr_eqb tag t) eqn:E.
  - apply pystr_eqb_eq in E. subst. rewrite occurrences_not_In by exact Hnotin.
    reflexivity.
  - rewrite IH by exact Hnd'. lia.
Qed.

(** One round of the worker's tag loop adds 1 to the tag's count, whether
    the row is new or not. *)
Lemma add_or_update_tag_count (d : database) (t t' : pystr) :
  count_or_zero (add_or_update_tag d t) t'
  = count_or_zero d t' + (if pystr_eqb t' t then 1 else 0).
Proof.
  unfold add_or_update_tag.
  destruct (insert_tag_cases d t)
    as [[Hh E] | [Hh [d' [E [_ [_ [H1 [_ Ho]]]]]]]]; rewrite E.
  - destruct (pystr_eqb t' t) eqn:X.
    + apply pystr_eqb_eq in X. subst.
      apply count_or_zero_bump_same. exact Hh.
    + apply pystr_eqb_neq in X. rewrite count_or_zero_bump_other by exact X.
      lia.
  - destruct (pystr_eqb t' t) eqn:X.
    + apply pystr_eqb_eq in X. subst.
      rewrite H1, (count_or_zero_no_row d t Hh). reflexivity.
    + apply pystr_eqb_neq in X. rewrite (Ho t' X). lia.
Qed.

(** The worker's tag loop adds to each count the number of times the tag
    occurs in the list. *)
Lemma add_or_update_tags_count (ts : list pystr) (d : database) (t' : pystr) :
  count_or_zero (add_or_update_tags d ts) t'
  = count_or_zero d t' + occurrences t' ts.
Proof.
  unfold add_or_update_tags. revert d.
  induction ts as [|t ts IH]; intro d; simpl.
  - unfold occurrences. simpl. lia.
  - rewrite IH, add_or_update_tag_count, occurrences_cons. lia.
Qed.

(** What the insert of a record followed by the tag loop does to the
    difference between stored count and referencing records: it grows by
    the surplus occurrences of the tag in the list. *)
Lemma insert_then_tags_counts (d d1 : database) (fn op h tp : pystr)
    (ts : list pystr) (m : metadata) (t : pystr) :
  insert_image d fn op h tp ts m = Ret d1 ->
  let d2 := add_or_update_tags d1 ts in
  count_or_zero d2 t = count_or_zero d t + occurrences t ts
  /\ referencing d2 t = referencing d t + indicator t ts.
Proof.
  intro E. cbv zeta. apply insert_image_ret in E as [_ [_ E]].
  subst d1. split.
  - rewrite add_or_update_tags_count. reflexivity.
  - unfold referencing at 1. rewrite images_add_or_update_tags.
    cbn [images]. rewrite filter_app, length_app. unfold referencing, indicator.
    simpl. destruct (mem t ts); simpl List.length; lia.
Qed.

Lemma images_seq_add_or_update_tags (ts : list pystr) (d : database) :
  images_seq (add_or_update_tags d ts) = images_seq d.
Proof.
  unfold add_or_update_tags. revert d.
  induction ts as [|t ts IH]; intro d; simpl; [reflexivity|].
  rewrite IH. unfold add_or_update_tag, insert_tag.
  destruct (has_tag_row d t); reflexivity.
Qed.

(** With a tag list free of repetition, the insert of a record followed by
    the tag loop keeps the catalog as it is meant to be. *)
Lemma insert_then_tags_ok (d d1 : database) (fn op h tp : pystr)
    (ts : list pystr) (m : metadata) :
  catalog_ok d -> NoDup ts ->
  insert_image d fn op h tp ts m = Ret d1 ->
  catalog_ok (add_or_update_tags d1 ts).
Proof.
  intros [Hid [Hseq [Hts Hc]]] Hnd E.
  assert (Hcount := fun t => insert_then_tags_counts d d1 fn op h tp ts m t E).
  cbv zeta in Hcount.
  apply insert_image_ret in E as [_ [_ E]]. subst d1.
  unfold catalog_ok.
  rewrite images_add_or_update_tags, images_seq_add_or_update_tags.
  cbn [images images_seq]. repeat split.
  - rewrite map_app. apply NoDup_app; [exact Hid | |].
    + simpl. constructor; [intros [] | constructor].
    + intros a Ha [Hb|[]]. cbn [row_id] in Hb. subst a.
      apply in_map_iff in Ha as [r [Hr Hin]].
      rewrite Forall_forall in Hseq. specialize (Hseq r Hin). lia.
  - apply Forall_app. split.
    + rewrite Forall_forall in Hseq |- *. intros r Hin.
      specialize (Hseq r Hin). lia.
    + constructor; [cbn [row_id]; lia | constructor].
  - apply Forall_app. split; [exact Hts|].
    constructor; [exact Hnd | constructor].
  - intro t. destruct (Hcount t) as [H1 H2].
    rewrite H1, H2, (Hc t), occurrences_NoDup by exact Hnd. reflexivity.
Qed.

(** *** [update_image_tags] *)

(** The first loop of [update_image_tags]: one less for each current tag
    that is not among the new ones. *)
Lemma removed_loop (new_tags cur : list pystr) (d : database) :
  (forall t, In t cur -> has_tag_row d t = true) ->
  let d1 := fold_left
              (fun d tag => if mem tag new_tags then d else bump_tag d tag (-1))
              cur d in
  images d1 = images d
  /\ images_seq d1 = images_seq d
  /\ (forall t', has_tag_row d1 t' = has_tag_row d t')
  /\ (forall t', count_or_zero d1 t'
                 = count_or_zero d t'
                   - (if mem t' new_tags then 0 else occurrences t' cur)).
Proof.
  cbv zeta. revert d.
  induction cur as [|t cur IH]; intros d Hrows; simpl.
  - repeat split; try reflexivity. intro t'. unfold occurrences. simpl.
    destruct (mem t' new_tags); lia.
  - set (d' := if mem t new_tags then d else bump_tag d t (-1)).
    assert (Hhas : forall t', has_tag_row d' t' = has_tag_row d t').
    { intro t'. unfold d'. destruct (mem t new_tags); [reflexivity|].
      apply has_tag_row_bump. }
    destruct (IH d') as [Hi [Hs [Hh Hc]]].
    { intros x Hx. rewrite Hhas. apply Hrows. right. exact Hx. }
    split; [|split; [|split]].
    + rewrite Hi. unfold d'. destruct (mem t new_tags); reflexivity.
    + rewrite Hs. unfold d'. destruct (mem t new_tags); reflexivity.
    + intro t'. rewrite Hh. apply Hhas.
    + intro t'. rewrite Hc, occurrences_cons.
      destruct (pystr_eqb t' t) eqn:X.
      * apply pystr_eqb_eq in X. subst t'. unfold d'.
        destruct (mem t new_tags); [lia|].
        rewrite count_or_zero_bump_same by (apply Hrows; left; reflexivity).
        lia.
      * apply pystr_eqb_neq in X.
        assert (Hd' : count_or_zero d' t' = count_or_zero d t').
        { unfold d'. destruct (mem t new_tags); [reflexivity|].
          apply count_or_zero_bump_other. exact X. }
        rewrite Hd'. destruct (mem t' new_tags); lia.
Qed.

(** One round of the second loop. *)
Lemma added_step (cur : list pystr) (d : database) (t : pystr) :
  let d' := match insert_tag d t with
            | Ret d' => d'
            | Raise _ => if mem t cur then d else bump_tag d t 1
            end in
  images d' = images d
  /\ images_seq d' = images_seq d
  /\ count_or_zero d' t
     = count_or_zero d t
       + (if has_tag_row d t then if mem t cur then 0 else 1 else 1)
  /\ (forall t', t' <> t ->
        count_or_zero d' t' = count_or_zero d t'
        /\ has_tag_row d' t' = has_tag_row d t').
Proof.
  cbv zeta.
  destruct (insert_tag_cases d t)
    as [[Hh E] | [Hh [d' [E [Hi [Hs [H1 [Hrow Ho]]]]]]]]; rewrite E, Hh.
  - destruct (mem t cur).
    + repeat split; try reflexivity. lia.
    + repeat split; try reflexivity.
      * apply count_or_zero_bump_same. exact Hh.
      * apply count_or_zero_bump_other. assumption.
      * apply has_tag_row_bump.
  - repeat split; try assumption.
    + rewrite H1, (count_or_zero_no_row d t Hh). reflexivity.
    + apply Ho. assumption.
    + rewrite Hrow. destruct (pystr_eqb t t') eqn:X.
      * apply pystr_eqb_eq in X. congruence.
      * apply orb_false_r.
Qed.

(** The second loop of [update_image_tags] over a list free of
    repetition: a new row counts 1, a row of a tag the record did not
    have gets one more, a row of a tag it had is left alone. *)
Lemma added_loop (cur new_tags : list pystr) :
  NoDup new_tags ->
  forall d : database,
  let d1 := fold_left
              (fun d tag =>
                 match insert_tag d tag with
                 | Ret d' => d'
                 | Raise _ => if mem tag cur then d else bump_tag d tag 1
                 end)
              new_tags d in
  images d1 = images d
  /\ images_seq d1 = images_seq d
  /\ (forall t', count_or_zero d1 t'
                 = count_or_zero d t'
                   + (if mem t' new_tags
                      then if has_tag_row d t'
                           then if mem t' cur then 0 else 1
                           else 1
                      else 0)).
Proof.
  cbv zeta. induction new_tags as [|t ts IH]; intros Hnd d; simpl.
  - repeat split; try reflexivity. intro t'. lia.
  - inversion Hnd as [|x xs Hnotin Hnd']; subst.
    destruct (added_step cur d t) as [Hi [Hs [Hsame Hother]]].
    cbv zeta in Hi, Hs, Hsame, Hother.
    set (d' := match insert_tag d t with
               | Ret d' => d'
               | Raise _ => if mem t cur then d else bump_tag d t 1
               end) in *.
    destruct (IH Hnd' d') as [Hi' [Hs' Hc']].
    split; [congruence|]. split; [congruence|].
    intro t'. rewrite Hc'. unfold mem at 2. simpl. fold (mem t' ts).
    destruct (pystr_eqb t' t) eqn:X.
    + apply pystr_eqb_eq in X. subst t'.
      apply mem_not_In in Hnotin. rewrite Hnotin, Hsame. simpl. lia.
    + apply pystr_eqb_neq in X. destruct (Hother t' X) as [Hc Hh].
      rewrite Hc, Hh. simpl. reflexivity.
Qed.

Lemma referencing_pos (d : database) (r : image_row) (t : pystr) :
  In r (images d) -> In t (tags r) -> 1 <= referencing d t.
Proof.
  intros Hr Ht. unfold referencing.
  assert (Hin : In r (filter (fun r => mem t (tags r)) (images d))).
  { apply filter_In. split; [exact Hr | apply mem_In; exact Ht]. }
  destruct (filter _ (images d)); [contradiction | simpl List.length; lia].
Qed.

Lemma select_tags_by_id_row (d : database) (image_id : Z) (cur : list pystr) :
  select_tags_by_id d image_id = Some cur ->
  exists r, In r (images d) /\ row_id r = image_id /\ tags r = cur.
Proof.
  unfold select_tags_by_id.
  destruct (List.find _ (images d)) as [r|] eqn:E; [|discriminate].
  intro H. injection H as H. apply find_some in E as [Hin Hid].
  exists r. repeat split; [exact Hin | lia | exact H].
Qed.

(** [UPDATE images SET tags = ? WHERE id = ?] on a table with unique ids:
    the one record gives up its old tags and takes the new ones. *)
Lemma referencing_update (d : database) (image_id : Z)
    (cur new_tags : list pystr) (t : pystr) :
  NoDup (map row_id (images d)) ->
  select_tags_by_id d image_id = Some cur ->
  referencing (update_tags_by_id d image_id new_tags) t
  = referencing d t - indicator t cur + indicator t new_tags.
Proof.
  unfold referencing, select_tags_by_id, update_tags_by_id. cbn [images].
  induction (images d) as [|r l IH]; simpl; intros Hnd Hsel; [discriminate|].
  inversion Hnd as [|x xs Hnotin Hnd']; subst.
  destruct (row_id r =? image_id) eqn:E.
  - injection Hsel as Hsel. subst cur. apply Z.eqb_eq in E.
    assert (Hrest : map (fun r0 =>
                           if row_id r0 =? image_id
                           then {| row_id := row_id r0; filename := filename r0;
                                   original_path := original_path r0;
                                   hash := hash r0;
                                   thumbnail_path := thumbnail_path r0;
                                   tags := new_tags; meta := meta r0 |}
                           else r0) l = l).
    { rewrite <- (map_id l) at 2. apply map_ext_in. intros r' Hr'.
      destruct (row_id r' =? image_id) eqn:E'; [|reflexivity].
      apply Z.eqb_eq in E'. exfalso. apply Hnotin. rewrite E, <- E'.
      apply in_map. exact Hr'. }
    rewrite Hrest. cbn [tags]. unfold indicator.
    destruct (mem t new_tags), (mem t (tags r)); simpl List.length; lia.
  - specialize (IH Hnd' Hsel).
    destruct (mem t (tags r)); simpl List.length; lia.
Qed.

Lemma update_tags_by_id_ids (d : database) (image_id : Z)
    (new_tags : list pystr) :
  map row_id (images (update_tags_by_id d image_id new_tags))
  = map row_id (images d).
Proof.
  unfold update_tags_by_id. cbn [images]. rewrite map_map.
  apply map_ext. intro r. destruct (row_id r =? image_id); reflexivity.
Qed.

Lemma referencing_ext (a b : database) (t : pystr) :
  images a = images b -> referencing a t = referencing b t.
Proof. intro H. unfold referencing. rewrite H. reflexivity. Qed.

Lemma select_tags_by_id_ext (a b : database) (image_id : Z) :
  images a = images b ->
  select_tags_by_id a image_id = select_tags_by_id b image_id.
Proof. intro H. unfold select_tags_by_id. rewrite H. reflexivity. Qed.

(** An edit of an existing record with a tag list free of repetition keeps
    the catalog as it is meant to be. *)
Lemma update_image_tags_ok (image_id : Z) (new_tags : list pystr)
    (d : database) :
  catalog_ok d -> NoDup new_tags ->
  select_tags_by_id d image_id <> None ->
  catalog_ok (update_image_tags image_id new_tags d).
Proof.
  intros [Hid [Hseq [Hts Hc]]] Hnd Hsel.
  destruct (select_tags_by_id d image_id) as [cur|] eqn:Esel; [|congruence].
  clear Hsel.
  destruct (select_tags_by_id_row d image_id cur Esel)
    as [r0 [Hr0 [Hr0id Hr0tags]]].
  assert (Hcur : NoDup cur).
  { rewrite Forall_forall in Hts. subst cur. apply Hts. exact Hr0. }
  assert (Hrows : forall t, In t cur -> has_tag_row d t = true).
  { intros t Ht. destruct (has_tag_row d t) eqn:E; [reflexivity|].
    apply count_or_zero_no_row in E. rewrite (Hc t) in E. subst cur.
    pose proof (referencing_pos d r0 t Hr0 Ht). lia. }
  unfold update_image_tags. cbv zeta. rewrite Esel. cbv beta iota.
  destruct (removed_loop new_tags cur d Hrows) as [Hi1 [Hs1 [Hh1 Hc1]]].
  set (d1 := fold_left _ cur d) in *.
  destruct (added_loop cur new_tags Hnd (update_tags_by_id d1 image_id new_tags))
    as [Hi3 [Hs3 Hc3]].
  set (d2 := update_tags_by_id d1 image_id new_tags) in *.
  set (d3 := fold_left _ new_tags d2) in *.
  assert (Hids : map row_id (images d3) = map row_id (images d)).
  { rewrite Hi3. unfold d2. rewrite update_tags_by_id_ids, Hi1. reflexivity. }
  assert (Hrowsof : forall r, In r (images d3) ->
            exists r', In r' (images d) /\ row_id r = row_id r'
                       /\ (tags r = tags r' \/ tags r = new_tags)).
  { intros r Hr. rewrite Hi3 in Hr. unfold d2, update_tags_by_id in Hr.
    cbn [images] in Hr. rewrite Hi1 in Hr.
    apply in_map_iff in Hr as [r' [Hr Hin]]. exists r'.
    split; [exact Hin|]. subst r.
    destruct (row_id r' =? image_id); split; auto. }
  unfold catalog_ok. repeat split.
  - rewrite Hids. exact Hid.
  - rewrite Forall_forall in Hseq |- *. intros r Hr.
    destruct (Hrowsof r Hr) as [r' [Hin [Hrid _]]].
    rewrite Hs3. change (images_seq d2) with (images_seq d1).
    rewrite Hs1, Hrid. apply Hseq. exact Hin.
  - rewrite Forall_forall in Hts |- *. intros r Hr.
    destruct (Hrowsof r Hr) as [r' [Hin [_ [Ht|Ht]]]]; rewrite Ht.
    + apply Hts. exact Hin.
    + exact Hnd.
  - intro t. rewrite Hc3.
    change (count_or_zero d2 t) with (count_or_zero d1 t).
    change (has_tag_row d2 t) with (has_tag_row d1 t).
    rewrite Hc1, Hh1, (referencing_ext d3 d2 t Hi3).
    unfold d2. rewrite (referencing_update d1 image_id cur new_tags t).
    + rewrite (referencing_ext d1 d t Hi1), (Hc t).
      rewrite (occurrences_NoDup t cur Hcur). unfold indicator.
      destruct (mem t new_tags) eqn:En; [|lia].
      destruct (mem t cur) eqn:Ec.
      * apply mem_In in Ec. rewrite (Hrows t Ec). lia.
      * destruct (has_tag_row d t); lia.
    + rewrite Hi1. exact Hid.
    + rewrite (select_tags_by_id_ext d1 d image_id Hi1). exact Esel.
Qed.

(** *** The worker's block from the copy to the commit *)

Lemma catalog_ok_empty : catalog_ok empty_database.
Proof.
  unfold catalog_ok, empty_database. cbn [images images_seq].
  repeat split; try constructor.
Qed.

(** Whenever the classifier's tag list has no repetition, the block keeps
    the catalog as it is meant to be, whether it commits or raises. *)
Lemma import_file_ok (str_of : pyval -> pystr)
    (strptime_iso : pystr -> option pystr) (w : world)
    (images_dir thumbnails_dir original_path file_hash secure_name : pystr)
    (d : database) :
  catalog_ok d ->
  (forall ts,
     fst (classify_image_with_ollama
            (ollama w (join w images_dir secure_name)) default_retries)
     = Ret ts -> NoDup ts) ->
  catalog_ok (snd (import_file str_of strptime_iso w images_dir thumbnails_dir
                     original_path file_hash secure_name d)).
Proof.
  intros Hok Hts. unfold import_file. cbv zeta.
  destruct (copy_raises w original_path); [exact Hok|].
  destruct (fst (classify_image_with_ollama _ _)) as [ts|e] eqn:E;
    [|exact Hok].
  destruct (insert_image d secure_name original_path file_hash _ ts _)
    as [d1|e] eqn:Ei; [|exact Hok].
  cbn [snd]. exact (insert_then_tags_ok _ _ _ _ _ _ _ _ Hok (Hts ts eq_refl) Ei).
Qed.

(** ** Classifier: what a tag looks like *)

Lemma lstrip_head (s : pystr) :
  match lstrip s with
  | [] => True
  | c :: _ => isspace c = false
  end.
Proof.
  induction s as [|c r IH]; simpl; [exact I|].
  destruct (isspace c) eqn:E; [exact IH | exact E].
Qed.

Lemma lstrip_fixed (c : ascii) (r : pystr) :
  isspace c = false -> lstrip (c :: r) = c :: r.
Proof. intro H. simpl. rewrite H. reflexivity. Qed.

Lemma lstrip_idem (s : pystr) : lstrip (lstrip s) = lstrip s.
Proof.
  pose proof (lstrip_head s) as H.
  destruct (lstrip s) as [|c r]; [reflexivity | apply lstrip_fixed; exact H].
Qed.

Lemma rstrip_idem (s : pystr) : rstrip (rstrip s) = rstrip s.
Proof. unfold rstrip. rewrite rev_involutive, lstrip_idem. reflexivity. Qed.

(** Trimming the right end does not uncover whitespace at the left end. *)
Lemma lstrip_rstrip_lstrip (s : pystr) :
  lstrip (rstrip (lstrip s)) = rstrip (lstrip s).
Proof.
  pose proof (lstrip_head s) as H.
  destruct (rstrip_decomp (lstrip s)) as [ws [_ E]].
  destruct (lstrip s) as [|c r]; [reflexivity|].
  destruct (rstrip (c :: r)) as [|c' r']; [reflexivity|].
  simpl in E. injection E as Ec _. subst c'.
  apply lstrip_fixed. exact H.
Qed.

Lemma strip_idem (s : pystr) : strip (strip s) = strip s.
Proof.
  unfold strip. rewrite lstrip_rstrip_lstrip, rstrip_idem. reflexivity.
Qed.

Lemma In_strip (c : ascii) (s : pystr) : In c (strip s) -> In c s.
Proof.
  intro H. destruct (strip_decomp s) as [wl [wr [_ [_ E]]]].
  rewrite E. apply in_or_app. right. apply in_or_app. left. exact H.
Qed.

Lemma split_no_sep (sep : ascii) (s t : pystr) :
  In t (split sep s) -> ~ In sep t.
Proof.
  revert t. induction s as [|c r IH]; simpl; intros t Ht.
  - destruct Ht as [<-|[]]. intros [].
  - destruct (Ascii.eqb c sep) eqn:E.
    + destruct Ht as [<-|Ht]; [intros [] | apply IH; exact Ht].
    + destruct (split sep r) as [|t0 ts] eqn:Es.
      * destruct Ht as [<-|[]]. intros [H|[]]. subst c.
        rewrite Ascii.eqb_refl in E. discriminate.
      * destruct Ht as [<-|Ht].
        -- intros [H|H].
           ++ subst c. rewrite Ascii.eqb_refl in E. discriminate.
           ++ exact (IH t0 (or_introl eq_refl) H).
        -- apply IH. right. exact Ht.
Qed.

Lemma comma_tokens_clean (text t : pystr) :
  In t (comma_tokens text) ->
  t <> [] /\ ~ In ","%char t /\ strip t = t.
Proof.
  unfold comma_tokens. intro H.
  apply in_map_iff in H as [x [<- Hx]].
  apply filter_In in Hx as [Hin Htr]. repeat split.
  - intro E. rewrite E in Htr. discriminate.
  - intro Hc. exact (split_no_sep _ _ _ Hin (In_strip _ _ Hc)).
  - apply strip_idem.
Qed.

Lemma sentinel_clean (s : string) :
  s = "uncategorized"%string \/ s = "error"%string -> clean_tag (py s).
Proof.
  intros [-> | ->]; unfold clean_tag; (split; [discriminate|]);
    (split; [reflexivity|]); (split; [|reflexivity]);
    simpl; intro H; repeat (destruct H as [H|H]; [discriminate|]); exact H.
Qed.

(** Every tag of a parsed response is clean, the stand-in included. *)
Lemma parse_tags_clean (text : pystr) : Forall clean_tag (parse_tags text).
Proof.
  unfold parse_tags. cbv zeta.
  set (tokens := if 0 <=? find TAGS_marker text
                 then comma_tokens (strip (slice_from (find TAGS_marker text + 5) text))
                 else comma_tokens text).
  assert (Htok : forall t, In t tokens ->
                   t <> [] /\ ~ In ","%char t /\ strip t = t).
  { intros t Ht. unfold tokens in Ht.
    destruct (0 <=? find TAGS_marker text);
      exact (comma_tokens_clean _ _ Ht). }
  assert (Hall : Forall clean_tag
                   (filter (fun tag => truthy tag && negb (has_space tag)) tokens)).
  { apply Forall_forall. intros t Ht. apply filter_In in Ht as [Hin Hf].
    apply andb_true_iff in Hf as [_ Hs]. apply negb_true_iff in Hs.
    destruct (Htok t Hin) as [H1 [H2 H3]]. repeat split; assumption. }
  destruct (filter _ tokens); [|exact Hall].
  constructor; [|constructor]. apply sentinel_clean. left. reflexivity.
Qed.

(** Whatever the endpoint does and whatever the budget, the classifier
    hands back a list that is not empty and holds clean tags only: tokens
    of the answer, or one of the stand-ins [uncategorized] and [error]. *)
Theorem classifier_tags_are_clean (ep : endpoint) (retries : nat) :
  exists tags,
    fst (classify_image_with_ollama ep retries) = Ret tags
    /\ tags <> []
    /\ Forall clean_tag tags.
Proof.
  unfold classify_image_with_ollama. generalize 0%nat as k.
  induction retries as [|r IH]; intro k; simpl.
  - destruct (request_and_parse (ep k)) as [[tags|]|[| |]] eqn:E; simpl;
      try (eexists; split; [reflexivity|]; split; [discriminate|];
           constructor;
           [first [exact (sentinel_clean "uncategorized" (or_introl eq_refl))
                  | exact (sentinel_clean "error" (or_intror eq_refl))]
           | constructor]).
    exists tags. split; [reflexivity|].
    split; [eapply request_and_parse_parsed; eassumption|].
    destruct (ep k) as [| |code [e| |[[s|]|]]]; simpl in E; try discriminate;
      destruct (code =? 200); try discriminate;
      injection E as <-; apply parse_tags_clean.
  - specialize (IH (S k)).
    destruct (classify_from ep (S k) r) as [r' evs'] eqn:R; simpl in IH.
    destruct (request_and_parse (ep k)) as [[tags|]|[| |]] eqn:E; cbn [fst snd];
      try exact IH;
      try (eexists; split; [reflexivity|]; split; [discriminate|];
           constructor;
           [first [exact (sentinel_clean "uncategorized" (or_introl eq_refl))
                  | exact (sentinel_clean "error" (or_intror eq_refl))]
           | constructor]).
    exists tags. split; [reflexivity|].
    split; [eapply request_and_parse_parsed; eassumption|].
    destruct (ep k) as [| |code [e| |[[s|]|]]]; simpl in E; try discriminate;
      destruct (code =? 200); try discriminate;
      injection E as <-; apply parse_tags_clean.
Qed.

(** ** Classifier: an answer in the layout the prompt asks for *)

Lemma split_single (sep : ascii) (a : pystr) :
  ~ In sep a -> split sep a = [a].
Proof.
  induction a as [|c r IH]; intro H; simpl; [reflexivity|].
  destruct (Ascii.eqb c sep) eqn:E.
  - apply Ascii.eqb_eq in E. exfalso. apply H. left. exact E.
  - rewrite IH; [reflexivity|]. intro Hin. apply H. right. exact Hin.
Qed.

Lemma split_app_sep (sep : ascii) (a b : pystr) :
  ~ In sep a -> split sep (a ++ sep :: b) = a :: split sep b.
Proof.
  induction a as [|c r IH]; intro H; simpl.
  - rewrite Ascii.eqb_refl. reflexivity.
  - destruct (Ascii.eqb c sep) eqn:E.
    + apply Ascii.eqb_eq in E. exfalso. apply H. left. exact E.
    + rewrite IH; [reflexivity|]. intro Hin. apply H. right. exact Hin.
Qed.

Lemma strip_leading_space (t : pystr) : strip (" "%char :: t) = strip t.
Proof. apply (strip_space_app [" "%char] t). reflexivity. Qed.

Lemma tokens_of_join (tags : list pystr) :
  tags <> [] -> Forall clean_tag tags ->
  map strip (split ","%char (" "%char :: join_tags tags)) = tags.
Proof.
  induction tags as [|t ts IH]; intros Hne Hall; [congruence|].
  inversion Hall as [|x xs [_ [_ [Hc Hs]]] Hall']; subst.
  assert (Hc' : ~ In ","%char (" "%char :: t)).
  { intros [H|H]; [discriminate | exact (Hc H)]. }
  destruct ts as [|t2 ts].
  - simpl join_tags. rewrite (split_single _ _ Hc'). cbn [map].
    rewrite strip_leading_space, Hs. reflexivity.
  - change (join_tags (t :: t2 :: ts))
      with (t ++ ","%char :: " "%char :: join_tags (t2 :: ts)).
    change (" "%char :: t ++ ","%char :: " "%char :: join_tags (t2 :: ts))
      with ((" "%char :: t) ++ ","%char :: " "%char :: join_tags (t2 :: ts)).
    rewrite (split_app_sep _ _ _ Hc'). cbn [map].
    rewrite strip_leading_space, Hs, IH; [reflexivity | discriminate | exact Hall'].
Qed.

(** An answer that consists of the marker and clean tags separated by a
    comma and a space is parsed into exactly those tags, in order. *)
Theorem parse_tags_of_requested_layout (tags : list pystr) :
  tags <> [] -> Forall clean_tag tags ->
  parse_tags (py "TAGS: " ++ join_tags tags) = tags.
Proof.
  intros Hne Hall. unfold parse_tags. cbv zeta.
  change (find TAGS_marker (py "TAGS: " ++ join_tags tags)) with 0.
  change (0 <=? 0) with true. cbv iota.
  change (slice_from (0 + 5) (py "TAGS: " ++ join_tags tags))
    with (" "%char :: join_tags tags).
  rewrite (comma_tokens_strip_filtered has_space).
  unfold surviving_tokens. rewrite (tokens_of_join tags Hne Hall).
  assert (Hkeep : filter (fun t => truthy t && negb (has_space t)) tags = tags).
  { clear Hne. induction Hall as [|t ts [Ht [Hsp _]] _ IH]; [reflexivity|].
    simpl. rewrite Hsp. destruct t; [congruence|]. simpl. rewrite IH.
    reflexivity. }
  rewrite Hkeep. destruct tags; [congruence | reflexivity].
Qed.

Lemma parse_tags_of_requested_layout_witness :
  parse_tags (py "TAGS: " ++ join_tags [py "sunset"; py "beach"; py "ocean"])
  = [py "sunset"; py "beach"; py "ocean"].
Proof.
  apply (parse_tags_of_requested_layout [py "sunset"; py "beach"; py "ocean"]).
  - discriminate.
  - repeat constructor; try discriminate; simpl;
      intro H; repeat (destruct H as [H|H]; [discriminate|]); exact H.
Defined.

(** ** Catalog: what an edit touches *)

Lemma fold_left_fixed {A B : Type} (f : A -> B -> A) (l : list B) (a : A) :
  (forall x, In x l -> f a x = a) -> fold_left f l a = a.
Proof.
  induction l as [|x l IH]; intro H; simpl; [reflexivity|].
  rewrite (H x (or_introl eq_refl)). apply IH.
  intros y Hy. apply H. right. exact Hy.
Qed.

Lemma with_tags_idem (image_id : Z) (new_tags : list pystr) (r : image_row) :
  with_tags image_id new_tags (with_tags image_id new_tags r)
  = with_tags image_id new_tags r.
Proof.
  unfold with_tags. destruct (row_id r =? image_id) eqn:E.
  - cbn [row_id]. rewrite E. reflexivity.
  - rewrite E. reflexivity.
Qed.

Lemma with_tags_id (image_id : Z) (new_tags : list pystr) (r : image_row) :
  row_id (with_tags image_id new_tags r) = row_id r.
Proof. unfold with_tags. destruct (row_id r =? image_id); reflexivity. Qed.

Lemma with_tags_hash (image_id : Z) (new_tags : list pystr) (r : image_row) :
  hash (with_tags image_id new_tags r) = hash r.
Proof. unfold with_tags. destruct (row_id r =? image_id); reflexivity. Qed.

Lemma images_update_tags_by_id (d : database) (image_id : Z)
    (new_tags : list pystr) :
  images (update_tags_by_id d image_id new_tags)
  = map (with_tags image_id new_tags) (images d).
Proof. reflexivity. Qed.

(** One round of the add loop of [update_image_tags], whatever the
    record lookup gave: the tag has a row afterwards, no row is lost, the
    images are left alone. *)
Lemma add_round_rows (cur_image : option (list pystr)) (d : database)
    (t : pystr) :
  let d' := match insert_tag d t with
            | Ret d' => d'
            | Raise _ =>
                match cur_image with
                | Some current_tags =>
                    if mem t current_tags then d else bump_tag d t 1
                | None => d
                end
            end in
  has_tag_row d' t = true
  /\ (forall t', has_tag_row d t' = true -> has_tag_row d' t' = true)
  /\ images d' = images d.
Proof.
  cbv zeta.
  destruct (insert_tag_cases d t)
    as [[Hh E] | [Hh [d' [E [Hi [_ [_ [Hrow _]]]]]]]]; rewrite E.
  - destruct cur_image as [cur|]; [destruct (mem t cur)|];
      repeat split; try assumption; try reflexivity;
      try (rewrite has_tag_row_bump; assumption);
      intros t' Ht'; try assumption; rewrite has_tag_row_bump; exact Ht'.
  - repeat split; [| |exact Hi].
    + rewrite Hrow, pystr_eqb_refl. apply orb_true_r.
    + intros t' Ht'. rewrite Hrow, Ht'. reflexivity.
Qed.

Lemma add_loop_rows (cur_image : option (list pystr)) (new_tags : list pystr)
    (d : database) :
  let d1 := fold_left
              (fun d tag =>
                 match insert_tag d tag with
                 | Ret d' => d'
                 | Raise _ =>
                     match cur_image with
                     | Some current_tags =>
                         if mem tag current_tags then d else bump_tag d tag 1
                     | None => d
                     end
                 end)
              new_tags d in
  (forall t, In t new_tags -> has_tag_row d1 t = true)
  /\ (forall t, has_tag_row d t = true -> has_tag_row d1 t = true)
  /\ images d1 = images d.
Proof.
  cbv zeta. revert d.
  induction new_tags as [|t ts IH]; intro d; simpl.
  - repeat split; [intros t [] | auto].
  - destruct (add_round_rows cur_image d t) as [Ht [Hkeep Hi]].
    cbv zeta in Ht, Hkeep, Hi.
    set (d' := match insert_tag d t with
               | Ret d' => d'
               | Raise _ => _
               end) in *.
    destruct (IH d') as [Hin [Hkeep' Hi']].
    repeat split.
    + intros x [<-|Hx]; [apply Hkeep'; exact Ht | apply Hin; exact Hx].
    + intros x Hx. apply Hkeep', Hkeep. exact Hx.
    + rewrite Hi'. exact Hi.
Qed.

Lemma remove_loop_rows (new_tags cur : list pystr) (d : database) :
  let d1 := fold_left
              (fun d tag => if mem tag new_tags then d else bump_tag d tag (-1))
              cur d in
  (forall t, has_tag_row d1 t = has_tag_row d t) /\ images d1 = images d.
Proof.
  cbv zeta. revert d.
  induction cur as [|t cur IH]; intro d; simpl; [split; reflexivity|].
  destruct (IH (if mem t new_tags then d else bump_tag d t (-1))) as [Hh Hi].
  split.
  - intro x. rewrite Hh. destruct (mem t new_tags); [reflexivity|].
    apply has_tag_row_bump.
  - rewrite Hi. destruct (mem t new_tags); reflexivity.
Qed.

(** What [update_image_tags] leaves behind, in three facts: the images
    table is the old one with the one tag list replaced, every new tag has
    a row, and no tag row has gone. *)
Lemma update_image_tags_effect (image_id : Z) (new_tags : list pystr)
    (d : database) :
  let d' := update_image_tags image_id new_tags d in
  images d' = map (with_tags image_id new_tags) (images d)
  /\ (forall t, In t new_tags -> has_tag_row d' t = true)
  /\ (forall t, has_tag_row d t = true -> has_tag_row d' t = true).
Proof.
  cbv zeta. unfold update_image_tags. cbv zeta.
  set (cur_image := select_tags_by_id d image_id).
  set (d1 := match cur_image with
             | Some current_tags => fold_left _ current_tags d
             | None => d
             end).
  assert (H1 : (forall t, has_tag_row d1 t = has_tag_row d t)
               /\ images d1 = images d).
  { unfold d1. destruct cur_image as [cur|]; [|split; reflexivity].
    apply remove_loop_rows. }
  destruct H1 as [Hh1 Hi1].
  destruct (add_loop_rows cur_image new_tags
              (update_tags_by_id d1 image_id new_tags)) as [Hin [Hkeep Hi]].
  cbv zeta in Hin, Hkeep, Hi.
  repeat split.
  - rewrite Hi, images_update_tags_by_id, Hi1. reflexivity.
  - exact Hin.
  - intros t Ht. apply Hkeep.
    change (has_tag_row (update_tags_by_id d1 image_id new_tags) t)
      with (has_tag_row d1 t).
    rewrite Hh1. exact Ht.
Qed.

Lemma find_with_tags (image_id : Z) (new_tags : list pystr) (id' : Z)
    (l : list image_row) :
  List.find (fun r => row_id r =? id') (map (with_tags image_id new_tags) l)
  = option_map (with_tags image_id new_tags)
      (List.find (fun r => row_id r =? id') l).
Proof.
  induction l as [|r l IH]; simpl; [reflexivity|].
  rewrite with_tags_id. destruct (row_id r =? id'); [reflexivity | exact IH].
Qed.

Lemma select_tags_with_tags (image_id : Z) (new_tags : list pystr) (id' : Z)
    (a b : database) :
  images a = map (with_tags image_id new_tags) (images b) ->
  select_tags_by_id a id'
  = if id' =? image_id
    then match select_tags_by_id b id' with
         | Some _ => Some new_tags
         | None => None
         end
    else select_tags_by_id b id'.
Proof.
  intro H. unfold select_tags_by_id. rewrite H, find_with_tags.
  destruct (List.find _ (images b)) as [r|] eqn:E; simpl.
  - apply find_some in E as [_ E]. apply Z.eqb_eq in E.
    unfold with_tags. rewrite E.
    destruct (id' =? image_id); reflexivity.
  - destruct (id' =? image_id); reflexivity.
Qed.

Lemma update_tags_by_id_fixed (x : database) (image_id : Z)
    (new_tags : list pystr) :
  map (with_tags image_id new_tags) (images x) = images x ->
  update_tags_by_id x image_id new_tags = x.
Proof.
  intro H. destruct x as [imgs rows s1 s2]. unfold update_tags_by_id.
  cbn [images tag_rows images_seq tags_seq] in *.
  change (map _ imgs) with (map (with_tags image_id new_tags) imgs).
  rewrite H. reflexivity.
Qed.

(** A catalog on which [update_image_tags] has nothing to do. *)
Lemma update_image_tags_fixed (image_id : Z) (new_tags : list pystr)
    (x : database) :
  map (with_tags image_id new_tags) (images x) = images x ->
  (forall c, select_tags_by_id x image_id = Some c -> c = new_tags) ->
  (forall t, In t new_tags -> has_tag_row x t = true) ->
  update_image_tags image_id new_tags x = x.
Proof.
  intros Himg Hsel Hrows. unfold update_image_tags. cbv zeta.
  destruct (select_tags_by_id x image_id) as [c|] eqn:Es.
  - rewrite (Hsel c eq_refl).
    rewrite (fold_left_fixed _ new_tags x).
    + rewrite (update_tags_by_id_fixed x image_id new_tags Himg).
      apply fold_left_fixed. intros t Ht.
      unfold insert_tag. rewrite (Hrows t Ht).
      apply mem_In in Ht. rewrite Ht. reflexivity.
    + intros t Ht. apply mem_In in Ht. rewrite Ht. reflexivity.
  - rewrite (update_tags_by_id_fixed x image_id new_tags Himg).
    apply fold_left_fixed. intros t Ht.
    unfold insert_tag. rewrite (Hrows t Ht). reflexivity.
Qed.

(** Saving the same tag list for the same record a second time changes
    nothing: neither a tag list nor a count. *)
Theorem update_image_tags_idempotent (image_id : Z) (new_tags : list pystr)
    (d : database) :
  let once := update_image_tags image_id new_tags d in
  let twice := update_image_tags image_id new_tags once in
  images twice = images once /\ tag_rows twice = tag_rows once.
Proof.
  cbv zeta.
  enough (E : update_image_tags image_id new_tags
                (update_image_tags image_id new_tags d)
              = update_image_tags image_id new_tags d)
    by (rewrite E; split; reflexivity).
  destruct (update_image_tags_effect image_id new_tags d) as [Hi [Hin _]].
  cbv zeta in Hi, Hin.
  apply update_image_tags_fixed.
  - rewrite Hi, map_map. apply map_ext. intro r. apply with_tags_idem.
  - intros c Hc.
    rewrite (select_tags_with_tags image_id new_tags image_id _ d Hi) in Hc.
    rewrite Z.eqb_refl in Hc.
    destruct (select_tags_by_id d image_id); congruence.
  - exact Hin.
Qed.

(** An edit replaces the tag list of the record with the given id and of
    no other: reading any record's tags back gives the new list for that
    id and the old list for the others, ids and hashes stay as they were,
    and no row of the tags table is removed. *)
Theorem update_image_tags_touches_one_record (image_id : Z)
    (new_tags : list pystr) (d : database) :
  let d' := update_image_tags image_id new_tags d in
  (forall id',
     select_tags_by_id d' id'
     = if id' =? image_id
       then match select_tags_by_id d id' with
            | Some _ => Some new_tags
            | None => None
            end
       else select_tags_by_id d id')
  /\ map row_id (images d') = map row_id (images d)
  /\ map hash (images d') = map hash (images d)
  /\ (forall t, has_tag_row d t = true -> has_tag_row d' t = true).
Proof.
  destruct (update_image_tags_effect image_id new_tags d) as [Hi [_ Hkeep]].
  cbv zeta in *. repeat split.
  - intro id'. apply select_tags_with_tags. exact Hi.
  - rewrite Hi, map_map. apply map_ext. intro r. apply with_tags_id.
  - rewrite Hi, map_map. apply map_ext. intro r. apply with_tags_hash.
  - exact Hkeep.
Qed.

(** ** Catalog: tag counts over an import and over an edit *)

(** The worker's tag loop adds to the stored count of every tag the number
    of times the tag occurs in the list it is given (a tag without a row
    counting as 0), and leaves the images table alone. *)
Theorem worker_tag_loop_adds_occurrences (ts : list pystr) (d : database) :
  (forall t, count_or_zero (add_or_update_tags d ts) t
             = count_or_zero d t + occurrences t ts)
  /\ images (add_or_update_tags d ts) = images d.
Proof.
  split.
  - intro t. apply add_or_update_tags_count.
  - apply images_add_or_update_tags.
Qed.

Ltac nodup_strings :=
  repeat (apply NoDup_cons; [simpl; intuition discriminate|]); apply NoDup_nil.

Lemma process_item_catalog_ok (str_of : pyval -> pystr)
    (strptime_iso : pystr -> option pystr) (w : world)
    (images_dir thumbnails_dir : pystr) (T : Z) (st : run_state)
    (path : pystr) :
  (forall p ts,
     fst (classify_image_with_ollama (ollama w p) default_retries) = Ret ts ->
     NoDup ts) ->
  catalog_ok (db st) ->
  catalog_ok (db (process_item str_of strptime_iso w images_dir thumbnails_dir
                    T st path)).
Proof.
  intros Hcls Hok. unfold process_item.
  destruct (calculate_file_hash w path) as [h|]; [|exact Hok].
  destruct (truthy h); cbn [negb]; [|exact Hok].
  destruct (select_id_by_hash (db st) h); [exact Hok|].
  pose proof (import_file_ok str_of strptime_iso w images_dir thumbnails_dir
                path h (firstn 10 h ++ py "_" ++ basename w path) (db st) Hok
                (Hcls _)) as H.
  destruct (import_file _ _ _ _ _ _ _ _ _) as [[u|e] d']; exact H.
Qed.

Lemma fold_left_invariant {A B : Type} (P : A -> Prop) (f : A -> B -> A)
    (l : list B) (a : A) :
  (forall a b, P a -> P (f a b)) -> P a -> P (fold_left f l a).
Proof.
  intro H. revert a. induction l as [|b l IH]; intros a Ha; simpl;
    [exact Ha | apply IH, H; exact Ha].
Qed.



Lemma import_keeps_counts_exact_ex :
  catalog_ok (db (snd (example_run (fun _ => py "TAGS: cat, dog")
                         [py "a.jpg"; py "c.jpg"] empty_database))).
Proof.
  unfold example_run.
  apply (fold_left_invariant (fun st => catalog_ok (db st)));
    [|exact catalog_ok_empty].
  intros st batch Hst. unfold process_batch.
  apply (fold_left_invariant (fun st => catalog_ok (db st))); [|exact Hst].
  intros st' path Hst'. apply process_item_catalog_ok; [|assumption].
  intros p ts H. vm_compute in H. injection H as <-.
  nodup_strings.
Qed.

(** An edit of an existing record with a tag list free of repetition
    leaves a sound catalog sound: the counts of the tags taken away go
    down by one, those of the tags added go up by one or start at 1, and
    every count again equals the number of records with the tag. *)
Theorem tag_edit_keeps_counts_exact (image_id : Z) (new_tags : list pystr)
    (d : database) :
  catalog_ok d -> NoDup new_tags ->
  select_tags_by_id d image_id <> None ->
  catalog_ok (update_image_tags image_id new_tags d).
Proof. apply update_image_tags_ok. Qed.

Lemma tag_edit_keeps_counts_exact_witness :
  let d := db (snd (example_run (fun _ => py "TAGS: cat, dog")
                      [py "a.jpg"; py "c.jpg"] empty_database)) in
  let d' := update_image_tags 1 [py "dog"; py "bird"] d in
  catalog_ok d'
  /\ count_or_zero d' (py "cat") = 1
  /\ count_or_zero d' (py "dog") = 2
  /\ count_or_zero d' (py "bird") = 1.
Proof.
  cbv zeta. split; [|repeat split; reflexivity].
  apply tag_edit_keeps_counts_exact.
  - apply (import_keeps_counts_exact_ex).
  - nodup_strings.
  - discriminate.
Defined.

(** ** Pipeline: what a run accounts for *)

Lemma count_if_cons {A : Type} (f : A -> bool) (x : A) (l : list A) :
  count_if f (x :: l) = (if f x then 1 else 0) + count_if f l.
Proof.
  unfold count_if. simpl. destruct (f x); simpl List.length; lia.
Qed.

Lemma count_if_app {A : Type} (f : A -> bool) (l l' : list A) :
  count_if f (l ++ l') = count_if f l + count_if f l'.
Proof. unfold count_if. rewrite filter_app, length_app. lia. Qed.

Lemma count_if_bounds {A : Type} (f : A -> bool) (l : list A) :
  0 <= count_if f l <= Z.of_nat (List.length l).
Proof.
  unfold count_if. pose proof (filter_length_le f l). lia.
Qed.

Section RunAccounting.

Variable str_of : pyval -> pystr.
Variable strptime_iso : pystr -> option pystr.
Variable w : world.
Variables images_dir thumbnails_dir : pystr.

#[local] Abbreviation one :=
  (process_item str_of strptime_iso w images_dir thumbnails_dir).

(** One file: one log line about it; the counter moves exactly when the
    file could be hashed, and so does the progress file; a record is added
    exactly when the line says [Processed]. *)
Lemma process_item_account (T : Z) (st : run_state) (path : pystr) :
  exists line new,
    log (one T st path) = log st ++ [line]
    /\ path_of line = path
    /\ processed (one T st path)
       = processed st + (if hashable w path then 1 else 0)
    /\ skipped (one T st path) = skipped st + (if is_skip line then 1 else 0)
    /\ Z.of_nat (List.length (written (one T st path)))
       = Z.of_nat (List.length (written st))
         + (if hashable w path then 1 else 0)
    /\ (is_skip line = true -> hashable w path = true)
    /\ images (db (one T st path)) = images (db st) ++ new
    /\ Z.of_nat (List.length new) = (if is_processed line then 1 else 0)
    /\ Forall (fun r => original_path r = path
                        /\ hashed w path = Some (hash r)) new.
Proof.
  unfold process_item, hashable, hashed.
  destruct (calculate_file_hash w path) as [h|].
  2:{ exists (CouldNotHash path), []. cbn. rewrite app_nil_r.
      repeat split; try lia; try discriminate. constructor. }
  destruct (truthy h) eqn:Et; cbn [negb].
  2:{ exists (CouldNotHash path), []. cbn. rewrite app_nil_r.
      repeat split; try lia; try discriminate. constructor. }
  destruct (select_id_by_hash (db st) h) eqn:Es.
  { exists (SkippingDuplicate path), []. cbn. rewrite app_nil_r, length_app.
    cbn. repeat split; try lia. constructor. }
  unfold import_file. cbv zeta.
  destruct (copy_raises w path).
  { exists (ErrorProcessing path), []. cbn. rewrite app_nil_r, length_app.
    cbn. repeat split; try lia; try discriminate. constructor. }
  destruct (fst (classify_image_with_ollama _ _)) as [ts|e].
  2:{ exists (ErrorProcessing path), []. cbn. rewrite app_nil_r, length_app.
      cbn. repeat split; try lia; try discriminate. constructor. }
  unfold insert_image. destruct (binds_metadata _); cbn [negb].
  2:{ exists (ErrorProcessing path), []. cbn. rewrite app_nil_r, length_app.
      cbn. repeat split; try lia; try discriminate. constructor. }
  rewrite Es.
  eexists (Processed path), [_].
  cbn [db log processed skipped written write_progress logging
       update_progress is_skip is_processed path_of].
  unfold update_progress.
  rewrite images_add_or_update_tags, length_app. cbn [images List.length].
  repeat split; try lia; try discriminate.
  constructor; [|constructor]. cbn [original_path hash]. split; reflexivity.
Qed.

(** A stretch of files: the same, added up. *)
Lemma process_items_account (T : Z) (l : list pystr) (st : run_state) :
  exists lines new,
    log (fold_left (one T) l st) = log st ++ lines
    /\ map path_of lines = l
    /\ processed (fold_left (one T) l st)
       = processed st + count_if (hashable w) l
    /\ skipped (fold_left (one T) l st) = skipped st + count_if is_skip lines
    /\ Z.of_nat (List.length (written (fold_left (one T) l st)))
       = Z.of_nat (List.length (written st)) + count_if (hashable w) l
    /\ count_if is_skip lines <= count_if (hashable w) l
    /\ images (db (fold_left (one T) l st)) = images (db st) ++ new
    /\ Z.of_nat (List.length new) = count_if is_processed lines
    /\ Forall (fun r => In (original_path r) l
                        /\ hashed w (original_path r) = Some (hash r)) new.
Proof.
  revert st. induction l as [|p l IH]; intro st.
  - exists [], []. cbn. rewrite !app_nil_r. unfold count_if. cbn.
    repeat split; try lia. constructor.
  - destruct (process_item_account T st p)
      as [line [new1 [Hl [Hp [Hpr [Hsk [Hw [Himp [Hi [Hn Hf]]]]]]]]]].
    destruct (IH (one T st p))
      as [lines [new2 [Hl' [Hp' [Hpr' [Hsk' [Hw' [Hle [Hi' [Hn' Hf']]]]]]]]]].
    exists (line :: lines), (new1 ++ new2). cbn [fold_left].
    rewrite Hl', Hl, Hpr', Hpr, Hsk', Hsk, Hw', Hw, Hi', Hi.
    rewrite !count_if_cons, <- !app_assoc, length_app. cbn [map app].
    rewrite Hp, Hp'.
    repeat split; try lia.
    + destruct (is_skip line) eqn:E; [rewrite (Himp eq_refl)|];
        destruct (hashable w p); lia.
    + apply Forall_app. split.
      * eapply Forall_impl; [|exact Hf]. cbn beta. intros r [H1 H2].
        rewrite H1. split; [left; reflexivity | exact H2].
      * eapply Forall_impl; [|exact Hf']. cbn beta. intros r [H1 H2].
        split; [right; exact H1 | exact H2].
Qed.

End RunAccounting.

Lemma processed_write_progress (w : world) (total current : Z)
    (status : pystr) (st : run_state) :
  processed (write_progress w total current status st) = processed st.
Proof. reflexivity. Qed.

Lemma skipped_write_progress (w : world) (total current : Z)
    (status : pystr) (st : run_state) :
  skipped (write_progress w total current status st) = skipped st.
Proof. reflexivity. Qed.

Lemma written_write_progress_length (w : world) (total current : Z)
    (status : pystr) (st : run_state) :
  Z.of_nat (List.length (written (write_progress w total current status st)))
  = Z.of_nat (List.length (written st)) + 1.
Proof.
  unfold write_progress, update_progress. cbn [written].
  rewrite length_app. cbn [List.length]. lia.
Qed.

(** ** Importing the same directory twice *)







(** The run of the example, twice: two records after the first run, the
    same two after the second, which skips every file. *)
Example import_twice_example :
  let files := [py "a.jpg"; py "b.jpg"; py "c.jpg"; py "broken.jpg"] in
  let st1 := snd (example_run (fun _ => py "TAGS: cat") files
                    empty_database) in
  let st2 := snd (example_run (fun _ => py "TAGS: cat") files (db st1)) in
  map hash (images (db st1)) = [py "ab12ab12ab12ab12"; py "c0ffee00c0ffee00"]
  /\ db st2 = db st1
  /\ log st2 = [SkippingDuplicate (py "a.jpg"); SkippingDuplicate (py "b.jpg");
                SkippingDuplicate (py "c.jpg"); CouldNotHash (py "broken.jpg")].
Proof. cbv zeta. repeat split; reflexivity. Qed.

(** For a positive batch size: the log has one line per file of the scan,
    in scan order; the counter ends at the number of files that could be
    hashed, not at the total; the skip counter is the number of duplicate
    lines; and the progress file was written once at the start, once per
    hashable file and once at the end. *)
Theorem import_accounts_for_every_file (str_of : pyval -> pystr)
    (strptime_iso : pystr -> option pystr) (w : world)
    (images_dir thumbnails_dir : pystr) (image_files : list pystr)
    (batch_size : Z) (catalog : database) :
  0 < batch_size ->
  let st := snd (process_images str_of strptime_iso w images_dir
                   thumbnails_dir image_files batch_size catalog) in
  map path_of (log st) = image_files
  /\ processed st = count_if (hashable w) image_files
  /\ skipped st = count_if is_skip (log st)
  /\ Z.of_nat (List.length (written st))
     = count_if (hashable w) image_files + 2
  /\ skipped st <= processed st <= Z.of_nat (List.length image_files).
Proof.
  intro Hbs. cbv zeta.
  assert (Hnz : batch_size <> 0) by lia.
  assert (Hneg : (batch_size <? 0) = false) by (apply Z.ltb_ge; lia).
  rewrite (process_images_unfold str_of strptime_iso w images_dir
             thumbnails_dir image_files batch_size catalog Hnz).
  rewrite Hneg. cbv zeta. cbn [snd].
  set (T := Z.of_nat (List.length image_files)).
  set (st0 := write_progress w T 0 (py "starting") _).
  destruct (process_items_account str_of strptime_iso w images_dir
              thumbnails_dir T image_files st0)
    as [lines [new [Hl [Hp [Hpr [Hsk [Hw [Hle _]]]]]]]].
  pose proof (count_if_bounds (hashable w) image_files) as Hb.
  rewrite log_write_progress, processed_write_progress,
    skipped_write_progress, written_write_progress_length.
  rewrite Hl, Hpr, Hsk, Hw. unfold st0.
  rewrite log_write_progress, processed_write_progress,
    skipped_write_progress, written_write_progress_length.
  cbn [log processed skipped written List.length app].
  repeat split; try lia; try assumption.
Qed.

Lemma import_accounts_for_every_file_witness :
  let files := [py "a.jpg"; py "broken.jpg"; py "b.jpg"; py "c.jpg"] in
  let w := example_world example_hashes (fun _ => py "TAGS: cat") in
  let st := snd (example_run (fun _ => py "TAGS: cat") files empty_database) in
  map path_of (log st) = files
  /\ processed st = count_if (hashable w) files
  /\ skipped st = count_if is_skip (log st)
  /\ Z.of_nat (List.length (written st)) = count_if (hashable w) files + 2
  /\ skipped st <= processed st <= Z.of_nat (List.length files).
Proof.
  cbv zeta.
  apply (import_accounts_for_every_file str_of_example (fun _ => None)
           (example_world example_hashes (fun _ => py "TAGS: cat"))
           (py "images") (py "thumbs")
           [py "a.jpg"; py "broken.jpg"; py "b.jpg"; py "c.jpg"] 20
           empty_database).
  reflexivity.
Defined.

(** Batching has no effect on the outcome: two runs that differ only in
    their positive batch sizes end in the same state, progress file and
    log included. *)
Theorem batch_size_does_not_matter (str_of : pyval -> pystr)
    (strptime_iso : pystr -> option pystr) (w : world)
    (images_dir thumbnails_dir : pystr) (image_files : list pystr)
    (b1 b2 : Z) (catalog : database) :
  0 < b1 -> 0 < b2 ->
  process_images str_of strptime_iso w images_dir thumbnails_dir
    image_files b1 catalog
  = process_images str_of strptime_iso w images_dir thumbnails_dir
      image_files b2 catalog.
Proof.
  intros H1 H2.
  rewrite !process_images_unfold by lia. cbv zeta.
  replace (b1 <? 0) with false by (symmetry; apply Z.ltb_ge; lia).
  replace (b2 <? 0) with false by (symmetry; apply Z.ltb_ge; lia).
  reflexivity.
Qed.

Lemma batch_size_does_not_matter_witness :
  process_images str_of_example (fun _ => None)
    (example_world example_hashes (fun _ => py "TAGS: cat"))
    (py "images") (py "thumbs") [py "a.jpg"; py "b.jpg"; py "c.jpg"] 1
    empty_database
  = process_images str_of_example (fun _ => None)
      (example_world example_hashes (fun _ => py "TAGS: cat"))
      (py "images") (py "thumbs") [py "a.jpg"; py "b.jpg"; py "c.jpg"] 2
      empty_database.
Proof.
  apply batch_size_does_not_matter; reflexivity.
Defined.

(** A negative batch size makes the batch loop empty: no file is looked
    at, the catalog and the log stay as they were, and the progress file
    still ends as [completed] with the counter at the total. *)
Theorem negative_batch_size_imports_nothing (str_of : pyval -> pystr)
    (strptime_iso : pystr -> option pystr) (w : world)
    (images_dir thumbnails_dir : pystr) (image_files : list pystr)
    (batch_size : Z) (catalog : database) :
  batch_size < 0 ->
  let T := Z.of_nat (List.length image_files) in
  process_images str_of strptime_iso w images_dir thumbnails_dir
    image_files batch_size catalog
  = (Ret tt,
     {| db := catalog; processed := 0; skipped := 0;
        written := [{| total := T; current := 0; status := py "starting";
                       timestamp := clock w 0 |};
                    {| total := T; current := T; status := py "completed";
                       timestamp := clock w 1 |}];
        log := [] |}).
Proof.
  intro Hbs. cbv zeta. rewrite process_images_unfold by lia. cbv zeta.
  replace (batch_size <? 0) with true by (symmetry; apply Z.ltb_lt; lia).
  reflexivity.
Qed.

Lemma negative_batch_size_imports_nothing_witness :
  process_images str_of_example (fun _ => None)
    (example_world example_hashes (fun _ => py "TAGS: cat"))
    (py "images") (py "thumbs") [py "a.jpg"; py "c.jpg"] (-5) empty_database
  = (Ret tt,
     {| db := empty_database; processed := 0; skipped := 0;
        written := [{| total := 2; current := 0; status := py "starting";
                       timestamp := 0%Q |};
                    {| total := 2; current := 2; status := py "completed";
                       timestamp := 1%Q |}];
        log := [] |}).
Proof.
  apply (negative_batch_size_imports_nothing str_of_example (fun _ => None)
           (example_world example_hashes (fun _ => py "TAGS: cat"))
           (py "images") (py "thumbs") [py "a.jpg"; py "c.jpg"] (-5)
           empty_database).
  reflexivity.
Defined.

(** ** The progress file between the worker and the application *)

Lemma progress_file_of_snoc (l : list progress) (p : progress) :
  progress_file_of (l ++ [p])
  = Stored (total p) (current p) (Some (status p)) (Some (timestamp p)).
Proof. unfold progress_file_of. rewrite rev_unit. reflexivity. Qed.

Lemma is_import_running_completed (now : Q) (total current : Z)
    (timestamp : option Q) :
  is_import_running now (Stored total current (Some (py "completed")) timestamp)
  = (false, Stored total current (Some (py "completed")) timestamp).
Proof. reflexivity. Qed.

(** Once a run with a batch size other than zero has returned, the
    application never takes the import for running, whatever the clock
    says, and leaves the progress file as the worker wrote it. *)
Theorem finished_import_is_not_running (str_of : pyval -> pystr)
    (strptime_iso : pystr -> option pystr) (w : world)
    (images_dir thumbnails_dir : pystr) (image_files : list pystr)
    (batch_size : Z) (catalog : database) (now : Q) :
  batch_size <> 0 ->
  let st := snd (process_images str_of strptime_iso w images_dir
                   thumbnails_dir image_files batch_size catalog) in
  is_import_running now (progress_file_of (written st))
  = (false, progress_file_of (written st))
  /\ get_import_progress (progress_file_of (written st))
     = Some (Stored (Z.of_nat (List.length image_files))
               (Z.of_nat (List.length image_files))
               (Some (py "completed"))
               (Some (clock w (List.length (written st) - 1)))).
Proof.
  intro Hnz. cbv zeta.
  rewrite (process_images_unfold str_of strptime_iso w images_dir
             thumbnails_dir image_files batch_size catalog Hnz).
  cbv zeta. cbn [snd].
  set (st' := fold_left _ _ _).
  unfold write_progress at 1 2 3 4. cbn [written]. unfold update_progress.
  rewrite progress_file_of_snoc. cbn [total current status timestamp].
  rewrite length_app. cbn [List.length].
  replace (List.length (written st') + 1 - 1)%nat
    with (List.length (written st')) by lia.
  split; reflexivity.
Qed.

Lemma finished_import_is_not_running_witness :
  let st := snd (example_run (fun _ => py "TAGS: cat") [py "a.jpg"]
                   empty_database) in
  is_import_running 5 (progress_file_of (written st))
  = (false, progress_file_of (written st))
  /\ get_import_progress (progress_file_of (written st))
     = Some (Stored 1 1 (Some (py "completed")) (Some 2%Q)).
Proof.
  apply (finished_import_is_not_running str_of_example (fun _ => None)
           (example_world example_hashes (fun _ => py "TAGS: cat"))
           (py "images") (py "thumbs") [py "a.jpg"] 20 empty_database 5).
  discriminate.
Defined.

(** A batch size of zero makes [range] raise right after the first
    progress write: the run ends with an exception, nothing is imported or
    logged, and the progress file stays at [starting].  The application
    then reports a running import until 300 seconds after that write, and
    marks the file completed at the first check from then on. *)
Theorem zero_batch_size_leaves_import_running (str_of : pyval -> pystr)
    (strptime_iso : pystr -> option pystr) (w : world)
    (images_dir thumbnails_dir : pystr) (image_files : list pystr)
    (catalog : database) (now : Q) :
  let T := Z.of_nat (List.length image_files) in
  let r := process_images str_of strptime_iso w images_dir thumbnails_dir
             image_files 0 catalog in
  let f := progress_file_of (written (snd r)) in
  fst r = Raise OtherException
  /\ db (snd r) = catalog
  /\ log (snd r) = []
  /\ f = Stored T 0 (Some (py "starting")) (Some (clock w 0))
  /\ ((now - clock w 0 < 300)%Q -> is_import_running now f = (true, f))
  /\ ((300 <= now - clock w 0)%Q ->
      is_import_running now f
      = (false, Stored T 0 (Some (py "completed")) (Some now))).
Proof.
  cbv zeta. unfold process_images. cbv zeta. cbn [Z.eqb fst snd].
  repeat split.
  - intro H. apply Qltb_lt in H.
    cbn [write_progress written update_progress app progress_file_of rev
         total current status timestamp List.length is_import_running].
    change (pystr_eqb (py "starting") (py "completed")) with false.
    cbn [negb]. rewrite H. reflexivity.
  - intro H. apply Qltb_ge in H.
    cbn [write_progress written update_progress app progress_file_of rev
         total current status timestamp List.length is_import_running].
    change (pystr_eqb (py "starting") (py "completed")) with false.
    cbn [negb]. rewrite H. reflexivity.
Qed.

Lemma zero_batch_size_leaves_import_running_witness :
  let r := process_images str_of_example (fun _ => None)
             (example_world example_hashes (fun _ => py "TAGS: cat"))
             (py "images") (py "thumbs") [py "a.jpg"; py "c.jpg"] 0
             empty_database in
  let f := progress_file_of (written (snd r)) in
  fst r = Raise OtherException
  /\ f = Stored 2 0 (Some (py "starting")) (Some 0%Q)
  /\ is_import_running 299 f = (true, f)
  /\ is_import_running 300 f
     = (false, Stored 2 0 (Some (py "completed")) (Some 300%Q)).
Proof.
  cbv zeta.
  destruct (zero_batch_size_leaves_import_running str_of_example
              (fun _ => None)
              (example_world example_hashes (fun _ => py "TAGS: cat"))
              (py "images") (py "thumbs") [py "a.jpg"; py "c.jpg"]
              empty_database 299) as [H1 [_ [_ [H2 [H3 _]]]]].
  destruct (zero_batch_size_leaves_import_running str_of_example
              (fun _ => None)
              (example_world example_hashes (fun _ => py "TAGS: cat"))
              (py "images") (py "thumbs") [py "a.jpg"; py "c.jpg"]
              empty_database 300) as [_ [_ [_ [_ [_ H4]]]]].
  split; [exact H1|]. split; [exact H2|].
  split; [apply H3; reflexivity | apply H4; discriminate].
Defined.

(** [start_import_process] writes the progress file, 0 of 0 and
    [starting] at the current time, before it spawns the worker, and the
    file stays so whether the spawn succeeds or raises; when it raises, so
    does the function, and no worker exists.  On the file as it was left,
    that is until a worker writes to it, and for good when there is none,
    [is_import_running] answers True for the next 300 seconds; at the
    first check after that it answers False and marks the file
    completed. *)
Theorem started_import_counts_as_running (t0 now : Q)
    (spawn : list pystr -> outcome unit) (source_dir model_name : pystr)
    (batch_size : Z) :
  let started := start_import_process t0 spawn source_dir model_name
                   batch_size in
  let f := snd (fst started) in
  f = Stored 0 0 (Some (py "starting")) (Some t0)
  /\ get_import_progress f = Some (Stored 0 0 (Some (py "starting")) (Some t0))
  /\ (forall e, spawn (snd started) = Raise e -> fst (fst started) = Raise e)
  /\ (forall u, spawn (snd started) = Ret u -> fst (fst started) = Ret true)
  /\ ((now - t0 < 300)%Q -> is_import_running now f = (true, f))
  /\ ((300 <= now - t0)%Q ->
      is_import_running now f
      = (false, Stored 0 0 (Some (py "completed")) (Some now))).
Proof.
  cbv zeta. unfold start_import_process. cbv zeta.
  destruct (spawn _) as [u|e] eqn:Es; cbn [fst snd];
    (split; [reflexivity|]); (split; [reflexivity|]);
    (split; [intros e' Ee; rewrite Es in Ee; congruence|]);
    (split; [intros u' Eu; rewrite Es in Eu; congruence|]);
    split; intro H.
  - apply Qltb_lt in H. unfold is_import_running.
    change (pystr_eqb (py "starting") (py "completed")) with false.
    cbn [negb]. rewrite H. reflexivity.
  - apply Qltb_ge in H. unfold is_import_running.
    change (pystr_eqb (py "starting") (py "completed")) with false.
    cbn [negb]. rewrite H. reflexivity.
  - apply Qltb_lt in H. unfold is_import_running.
    change (pystr_eqb (py "starting") (py "completed")) with false.
    cbn [negb]. rewrite H. reflexivity.
  - apply Qltb_ge in H. unfold is_import_running.
    change (pystr_eqb (py "starting") (py "completed")) with false.
    cbn [negb]. rewrite H. reflexivity.
Qed.

(** A spawn that raises: the call raises, and the application still
    reports a running import until 300 seconds have passed. *)
Lemma started_import_counts_as_running_witness :
  let started := start_import_process 1000 (fun _ => Raise OtherException)
                   (py "D:/Pictures") (py "llava:13b") 20 in
  let f := snd (fst started) in
  fst (fst started) = Raise OtherException
  /\ get_import_progress f = Some (Stored 0 0 (Some (py "starting")) (Some 1000%Q))
  /\ is_import_running 1299 f = (true, f)
  /\ is_import_running 1300 f
     = (false, Stored 0 0 (Some (py "completed")) (Some 1300%Q)).
Proof.
  cbv zeta.
  destruct (started_import_counts_as_running 1000 1299
              (fun _ => Raise OtherException) (py "D:/Pictures")
              (py "llava:13b") 20) as [_ [H1 [H0 [_ [H2 _]]]]].
  destruct (started_import_counts_as_running 1000 1300
              (fun _ => Raise OtherException) (py "D:/Pictures")
              (py "llava:13b") 20) as [_ [_ [_ [_ [_ H3]]]]].
  split; [exact (H0 OtherException eq_refl)|].
  split; [exact H1|]. split; [apply H2; reflexivity | apply H3; discriminate].
Defined.

(** Once [is_import_running] has answered False, it keeps answering False
    and leaves the file alone, at whatever time it is asked again, until
    someone else writes the file. *)
Theorem not_running_stays_not_running (now1 now2 : Q) (f : progress_file) :
  fst (is_import_running now1 f) = false ->
  is_import_running now2 (snd (is_import_running now1 f))
  = (false, snd (is_import_running now1 f)).
Proof.
  destruct f as [| |total current status timestamp]; try reflexivity.
  unfold is_import_running at 1 3 4.
  destruct (negb match status with
                 | Some s => pystr_eqb s (py "completed")
                 | None => false
                 end) eqn:E.
  - destruct (Qltb _ 300); cbn [fst snd]; [discriminate|].
    intros _. reflexivity.
  - cbn [fst snd]. intros _. unfold is_import_running. rewrite E.
    reflexivity.
Qed.

Lemma not_running_stays_not_running_witness :
  is_import_running 1000
    (snd (is_import_running 2000 (Stored 7 3 (Some (py "processing"))
                                    (Some 1000%Q))))
  = (false, Stored 7 3 (Some (py "completed")) (Some 2000%Q)).
Proof.
  apply (not_running_stays_not_running 2000 1000
           (Stored 7 3 (Some (py "processing")) (Some 1000%Q))).
  reflexivity.
Defined.


(** ** Catalog: a record can be found once it is inserted *)



(** ** Extractor: an exposure time of zero *)

Lemma seq_snd_ext (a b b' : stmt) :
  (forall m, snd (b m) = snd (b' m)) ->
  forall m, snd ((a ;; b) m) = snd ((a ;; b') m).
Proof.
  intros H m. unfold seq. destruct (a m) as [[u|e] m']; [apply H | reflexivity].
Qed.

Section ZeroExposure.

Variable str_of : pyval -> pystr.
Variable strptime_iso : pystr -> option pystr.

(** An exposure time of zero makes [1/exp_time] raise.  The dictionary is
    returned as it stands at that point: it is the one the same image
    gives without exposure time, ISO, focal length and GPS block, so these
    four fields are absent whatever the EXIF data holds for them. *)
Theorem zero_exposure_time_ends_extraction (sz : Z * Z) (exif : exif_dict)
    (v : pyval) (t : Q) :
  ExposureTime exif = Some v -> as_number v = Ret t -> (t == 0)%Q ->
  let m := extract_image_metadata str_of strptime_iso
             (Some {| size := sz; getexif := Exif exif |}) in
  m = extract_image_metadata str_of strptime_iso
        (Some {| size := sz; getexif := Exif (up_to_aperture exif) |})
  /\ shutter_speed m = None /\ iso m = None
  /\ focal_length m = None /\ gps m = None.
Proof.
  intros Hexp Hnum Hzero. cbv zeta.
  assert (E : extract_image_metadata str_of strptime_iso
                (Some {| size := sz; getexif := Exif exif |})
              = extract_image_metadata str_of strptime_iso
                  (Some {| size := sz; getexif := Exif (up_to_aperture exif) |})).
  { unfold extract_image_metadata, try_log, with_image. cbn [snd getexif size].
    apply seq_snd_ext. intro m0.
    change (date_stmt strptime_iso (up_to_aperture exif))
      with (date_stmt strptime_iso exif).
    apply seq_snd_ext. intro m1.
    change (camera_stmt str_of (up_to_aperture exif))
      with (camera_stmt str_of exif).
    apply seq_snd_ext. intro m2.
    change (lens_stmt (up_to_aperture exif)) with (lens_stmt exif).
    apply seq_snd_ext. intro m3.
    change (aperture_stmt str_of (up_to_aperture exif))
      with (aperture_stmt str_of exif).
    apply seq_snd_ext. intro m4.
    assert (Hraise : shutter_stmt str_of exif m4 = (Raise OtherException, m4)).
    { unfold shutter_stmt, shutter_speed_text. rewrite Hexp, Hnum.
      assert (Hlt : Qltb t 1 = true) by (apply Qltb_lt; rewrite Hzero; reflexivity).
      assert (Hz : Qeq_bool t 0 = true) by (apply Qeq_bool_iff; exact Hzero).
      rewrite Hlt, Hz. reflexivity. }
    unfold seq at 1. rewrite Hraise. reflexivity. }
  split; [exact E|]. rewrite E. clear E Hexp.
  unfold extract_image_metadata, try_log, with_image. cbn [snd getexif size].
  destruct exif as [dto mk md lm fn et isr fl gi].
  unfold seq, assign, date_stmt, camera_stmt, lens_stmt, aperture_stmt,
    shutter_stmt, iso_stmt, focal_stmt, gps_stmt, eval, pass, throw,
    as_number.
  cbn [up_to_aperture DateTimeOriginal Make Model LensModel FNumber
       ExposureTime ISOSpeedRatings FocalLength GPSInfo].
  destruct dto as [[s|z|q|a b c|]|]; [destruct (strptime_iso s)|..];
    destruct mk, md, lm; destruct fn as [[s'|z'|q'|a' b' c'|]|];
    try destruct (Qltb 0 _); repeat split; reflexivity.
Qed.

End ZeroExposure.

Lemma zero_exposure_time_ends_extraction_witness :
  let exif := {| DateTimeOriginal := None; Make := None;
                 Model := Some (VStr (py "X100"));
                 LensModel := None; FNumber := None;
                 ExposureTime := Some (VRat 0);
                 ISOSpeedRatings := Some (VInt 100);
                 FocalLength := Some (VInt 23); GPSInfo := None |} in
  let m := extract_image_metadata str_of_example (fun _ => None)
             (Some {| size := (640, 480); getexif := Exif exif |}) in
  camera_model m = Some (VStr (py "X100"))
  /\ shutter_speed m = None /\ iso m = None
  /\ focal_length m = None /\ gps m = None.
Proof.
  cbv zeta. split; [reflexivity|].
  apply (zero_exposure_time_ends_extraction str_of_example (fun _ => None)
           (640, 480) _ (VRat 0) 0%Q); reflexivity.
Defined.

(** ** Directory scan: which names count as images *)

Lemma rfind_char_none (c : ascii) (s : pystr) :
  ~ In c s -> rfind_char c s = -1.
Proof.
  induction s as [|x r IH]; intro H; simpl; [reflexivity|].
  rewrite IH by (intro Hin; apply H; right; exact Hin). simpl.
  destruct (Ascii.eqb x c) eqn:E; [|reflexivity].
  apply Ascii.eqb_eq in E. exfalso. apply H. left. exact E.
Qed.

Lemma rfind_char_last (c : ascii) (a b : pystr) :
  ~ In c b -> rfind_char c (a ++ c :: b) = Z.of_nat (List.length a).
Proof.
  intro H. induction a as [|x a IH].
  - simpl. rewrite (rfind_char_none c b H). simpl.
    rewrite Ascii.eqb_refl. reflexivity.
  - cbn [app rfind_char]. rewrite IH.
    replace (0 <=? Z.of_nat (List.length a)) with true
      by (symmetry; apply Z.leb_le; lia).
    cbn [List.length]. lia.
Qed.

Lemma last_occurrence (c : ascii) (s : pystr) :
  In c s -> exists a b, s = a ++ c :: b /\ ~ In c b.
Proof.
  induction s as [|x r IH]; intro H; [contradiction|].
  destruct (in_dec ascii_dec c r) as [Hin|Hnot].
  - destruct (IH Hin) as [a [b [E Hb]]]. exists (x :: a), b.
    split; [rewrite E; reflexivity | exact Hb].
  - destruct H as [->|H]; [|contradiction].
    exists [], r. split; [reflexivity | exact Hnot].
Qed.

Lemma last_occurrence_unique (c : ascii) (a b a' b' : pystr) :
  a ++ c :: b = a' ++ c :: b' -> ~ In c b -> ~ In c b' -> a = a' /\ b = b'.
Proof.
  revert a'. induction a as [|x a IH]; intros [|y a'] E Hb Hb'.
  - injection E as E. split; [reflexivity | exact E].
  - simpl in E. injection E as _ E. exfalso. apply Hb. rewrite E.
    apply in_or_app. right. left. reflexivity.
  - simpl in E. injection E as _ E. exfalso. apply Hb'. rewrite <- E.
    apply in_or_app. right. left. reflexivity.
  - simpl in E. injection E as -> E.
    destruct (IH a' E Hb Hb') as [-> ->]. split; reflexivity.
Qed.

Lemma image_extension_shape (ext : pystr) :
  In ext image_extensions ->
  exists e, ext = "."%char :: e /\ ~ In "."%char e.
Proof.
  intro H. simpl in H.
  repeat (destruct H as [H|H];
          [subst ext; eexists; split; [reflexivity|];
           simpl; intuition discriminate|]).
  contradiction.
Qed.

Section DirectoryScanProperties.

Variable sep : ascii.
Variable altsep : option ascii.
Variable os_path_join : pystr -> pystr -> pystr.

(** A file name without a path separator in it, as [os.walk] lists them,
    passes the test of the scan exactly when, lower-cased, it ends in one
    of the seven extensions and has some character other than a dot before
    that extension.  So the test ignores case, looks at the last extension
    only, and turns down a name such as [.jpg] that is all extension. *)
Theorem has_image_extension_spec (file : pystr) :
  ~ In sep (lower file) ->
  (forall a, altsep = Some a -> ~ In a (lower file)) ->
  has_image_extension sep altsep file = true <-> image_name file.
Proof.
  intros Hsep Halt. unfold has_image_extension, splitext, image_name.
  set (s := lower file) in *.
  rewrite (rfind_char_none sep s Hsep).
  assert (Hsi : match altsep with
                | Some a => Z.max (-1) (rfind_char a s)
                | None => -1
                end = -1).
  { destruct altsep as [a|]; [|reflexivity].
    rewrite (rfind_char_none a s (Halt a eq_refl)). reflexivity. }
  cbv zeta. rewrite Hsi. clear Hsi.
  destruct (in_dec ascii_dec "."%char s) as [Hdot|Hnodot].
  - destruct (last_occurrence _ _ Hdot) as [a [b [Es Hb]]].
    rewrite Es, (rfind_char_last "."%char a b Hb).
    replace (-1 <? Z.of_nat (List.length a)) with true
      by (symmetry; apply Z.ltb_lt; lia).
    unfold slice. replace (-1 + 1) with 0 by reflexivity.
    rewrite Z.sub_0_r, Nat2Z.id. cbn [Z.to_nat skipn].
    rewrite firstn_app, Nat.sub_diag, firstn_all. cbn [firstn].
    rewrite app_nil_r.
    destruct (existsb (fun c => negb (Ascii.eqb c "."%char)) a) eqn:Ex.
    + cbn [snd]. rewrite skipn_app, Nat.sub_diag, skipn_all. cbn [skipn app].
      split.
      * intro Hm. apply mem_In in Hm. exists a, ("."%char :: b).
        split; [reflexivity|]. split; [exact Hm|].
        apply existsb_exists in Ex as [c [Hc Hn]]. exists c.
        split; [exact Hc|]. intro E. subst c. discriminate.
      * intros [stem [ext [E [Hext _]]]].
        destruct (image_extension_shape ext Hext) as [e [-> He]].
        destruct (last_occurrence_unique _ _ _ _ _ E Hb He) as [_ ->].
        apply mem_In. exact Hext.
    + cbn [snd]. split; [discriminate|].
      intros [stem [ext [E [Hext [c [Hc Hne]]]]]].
      destruct (image_extension_shape ext Hext) as [e [-> He]].
      destruct (last_occurrence_unique _ _ _ _ _ E Hb He) as [-> _].
      assert (Ht : existsb (fun c => negb (Ascii.eqb c "."%char)) stem = true).
      { apply existsb_exists. exists c. split; [exact Hc|].
        apply negb_true_iff, Ascii.eqb_neq. exact Hne. }
      congruence.
  - rewrite (rfind_char_none "."%char s Hnodot). cbn [Z.ltb Z.compare snd].
    split; [discriminate|].
    intros [stem [ext [E [Hext _]]]].
    destruct (image_extension_shape ext Hext) as [e [-> _]].
    exfalso. apply Hnodot. rewrite E. apply in_or_app. right. left.
    reflexivity.
Qed.

Lemma collect_files (root : pystr) (files acc : list pystr) :
  fold_left
    (fun image_files file =>
       if has_image_extension sep altsep file
       then image_files ++ [os_path_join root file]
       else image_files)
    files acc
  = acc ++ map (os_path_join root)
             (filter (has_image_extension sep altsep) files).
Proof.
  revert acc. induction files as [|f files IH]; intro acc; simpl.
  - rewrite app_nil_r. reflexivity.
  - rewrite IH. destruct (has_image_extension sep altsep f);
      [rewrite <- app_assoc|]; reflexivity.
Qed.

(** The scan returns, directory by directory and file by file in the
    order of the walk, the joined path of every file whose name passes the
    extension test, and nothing else; so never more paths than the walk
    lists files. *)
Theorem find_images_in_directory_spec
    (walk : list (pystr * list pystr * list pystr)) :
  find_images_in_directory sep altsep os_path_join walk
  = flat_map (fun entry =>
                map (os_path_join (fst (fst entry)))
                    (filter (has_image_extension sep altsep) (snd entry)))
             walk
  /\ (List.length (find_images_in_directory sep altsep os_path_join walk)
      <= List.length (flat_map snd walk))%nat.
Proof.
  assert (E : forall acc,
            fold_left
              (fun image_files entry =>
                 let '(root, _, files) := entry in
                 fold_left
                   (fun image_files file =>
                      if has_image_extension sep altsep file
                      then image_files ++ [os_path_join root file]
                      else image_files)
                   files image_files)
              walk acc
            = acc ++ flat_map (fun entry =>
                         map (os_path_join (fst (fst entry)))
                             (filter (has_image_extension sep altsep)
                                     (snd entry)))
                       walk).
  { induction walk as [|[[root dirs] files] walk IH]; intro acc; simpl.
    - rewrite app_nil_r. reflexivity.
    - rewrite IH, collect_files, <- app_assoc. reflexivity. }
  unfold find_images_in_directory. rewrite (E []). cbn [app].
  split; [reflexivity|].
  clear E. induction walk as [|[[root dirs] files] walk IH]; simpl; [lia|].
  rewrite !length_app, length_map.
  pose proof (filter_length_le (has_image_extension sep altsep) files). lia.
Qed.

End DirectoryScanProperties.

Lemma has_image_extension_spec_witness :
  has_image_extension "/"%char None (py "IMG_0001.JPG") = true
  <-> image_name (py "IMG_0001.JPG").
Proof.
  apply (has_image_extension_spec "/"%char None (py "IMG_0001.JPG")).
  - simpl. intuition discriminate.
  - intros a H. discriminate.
Defined.

(** Names the scan takes and names it leaves, on either platform. *)
Example has_image_extension_examples :
  map (has_image_extension (ascii_of_nat 92) (Some "/"%char))
      [py "IMG_0001.JPG"; py "a.b.jpeg"; py ".hidden.png"; py ".jpg";
       py "..png"; py "photo.jpg.txt"; py "photo.jpg."; py "jpg"; py "scan.TIFF"]
  = [true; true; true; false; false; false; false; false; true].
Proof. reflexivity. Qed.

(** ** The duplicates page *)

Lemma pystr_eqb_sym_bool (a b : pystr) : pystr_eqb a b = pystr_eqb b a.
Proof.
  destruct (pystr_eqb b a) eqn:E.
  - apply pystr_eqb_eq in E. subst. apply pystr_eqb_refl.
  - apply pystr_eqb_neq in E. apply pystr_eqb_neq. congruence.
Qed.

Lemma assoc_group_append {V : Type} (h : pystr) (v : V)
    (g : list (pystr * list V)) (k : pystr) :
  assoc k (group_append h v g)
  = if pystr_eqb k h
    then Some (match assoc h g with Some vs => vs ++ [v] | None => [v] end)
    else assoc k g.
Proof.
  unfold assoc. induction g as [|[k' vs] g IH]; simpl.
  - rewrite (pystr_eqb_sym_bool h k). destruct (pystr_eqb k h); reflexivity.
  - destruct (pystr_eqb k' h) eqn:E1; simpl.
    + apply pystr_eqb_eq in E1. subst k'.
      rewrite (pystr_eqb_sym_bool h k).
      destruct (pystr_eqb k h); reflexivity.
    + destruct (pystr_eqb k' k) eqn:E2; simpl.
      * apply pystr_eqb_eq in E2. subst k'.
        rewrite E1. reflexivity.
      * exact IH.
Qed.

Lemma keys_group_append {V : Type} (h : pystr) (v : V)
    (g : list (pystr * list V)) :
  map fst (group_append h v g)
  = map fst g ++ (if mem h (map fst g) then [] else [h]).
Proof.
  unfold mem. induction g as [|[k' vs] g IH]; simpl; [reflexivity|].
  rewrite (pystr_eqb_sym_bool h k').
  destruct (pystr_eqb k' h); simpl.
  - rewrite app_nil_r. reflexivity.
  - rewrite IH. reflexivity.
Qed.

Lemma files_with_hash_snoc (k : pystr) (l : list image_row) (r : image_row) :
  files_with_hash k (l ++ [r])
  = files_with_hash k l
    ++ (if pystr_eqb (hash r) k then [(original_path r, filename r)] else []).
Proof.
  unfold files_with_hash. rewrite filter_app, map_app. simpl.
  destruct (pystr_eqb (hash r) k); reflexivity.
Qed.

(** The groups of the page: the hashes in order of first appearance, each
    once, and under each hash the files of the rows that have it. *)
Lemma hash_groups_spec (l : list image_row) :
  NoDup (map fst (hash_groups l))
  /\ forall k,
       assoc k (hash_groups l)
       = match files_with_hash k l with
         | [] => None
         | _ :: _ => Some (files_with_hash k l)
         end.
Proof.
  unfold hash_groups. induction l as [|r l IH] using rev_ind.
  - split; [constructor | reflexivity].
  - destruct IH as [Hnd Has]. rewrite fold_left_app. cbn [fold_left].
    set (g := fold_left _ l []) in *. split.
    + rewrite keys_group_append.
      destruct (mem (hash r) (map fst g)) eqn:Em;
        [rewrite app_nil_r; exact Hnd|].
      apply mem_not_In in Em.
      apply NoDup_app; [exact Hnd | repeat constructor; intros [] |].
      intros a Ha [<-|[]]. contradiction.
    + intro k. rewrite assoc_group_append, files_with_hash_snoc.
      rewrite (pystr_eqb_sym_bool k (hash r)).
      destruct (pystr_eqb (hash r) k) eqn:E.
      * apply pystr_eqb_eq in E. subst k. rewrite Has.
        destruct (files_with_hash (hash r) l); reflexivity.
      * rewrite app_nil_r. apply Has.
Qed.

Lemma assoc_In {V : Type} (k : pystr) (v : V) (g : list (pystr * V)) :
  assoc k g = Some v -> In (k, v) g.
Proof.
  unfold assoc. destruct (List.find _ g) as [[k' v']|] eqn:E; [|discriminate].
  intro H. injection H as <-. apply find_some in E as [Hin Hk].
  apply pystr_eqb_eq in Hk. simpl in Hk. subst k'. exact Hin.
Qed.

Lemma In_assoc {V : Type} (k : pystr) (v : V) (g : list (pystr * V)) :
  NoDup (map fst g) -> In (k, v) g -> assoc k g = Some v.
Proof.
  unfold assoc. induction g as [|[k' v'] g IH]; intros Hnd Hin; [contradiction|].
  inversion Hnd as [|x xs Hnot Hnd']; subst. simpl.
  destruct Hin as [E|Hin].
  - injection E as -> ->. rewrite pystr_eqb_refl. reflexivity.
  - destruct (pystr_eqb k' k) eqn:E.
    + apply pystr_eqb_eq in E. subst k'. exfalso. apply Hnot.
      apply (in_map fst) in Hin. exact Hin.
    + apply IH; assumption.
Qed.

Lemma duplicates_characterised (rows : list image_row) :
  (forall h files,
     In (h, files) (duplicates rows)
     <-> files = files_with_hash h rows /\ (2 <= List.length files)%nat)
  /\ (NoDup (map hash rows) -> duplicates rows = []).
Proof.
  destruct (hash_groups_spec rows) as [Hnd Has].
  assert (Hspec : forall h files,
            In (h, files) (duplicates rows)
            <-> files = files_with_hash h rows /\ (2 <= List.length files)%nat).
  { intros h files. unfold duplicates. rewrite filter_In. cbn [snd]. split.
    - intros [Hin Hlen]. apply Z.ltb_lt in Hlen.
      apply (In_assoc _ _ _ Hnd) in Hin. rewrite Has in Hin.
      destruct (files_with_hash h rows) eqn:E; [discriminate|].
      injection Hin as <-. split; [reflexivity | lia].
    - intros [-> Hlen]. split; [|apply Z.ltb_lt; lia].
      apply assoc_In. rewrite Has.
      destruct (files_with_hash h rows); [simpl in Hlen; lia | reflexivity]. }
  split; [exact Hspec|].
  intro Hu.
  enough (Hall : forall g, In g (duplicates rows) -> False).
  { destruct (duplicates rows) as [|g rest]; [reflexivity|].
    exfalso. apply (Hall g). left. reflexivity. }
  intros [h files] Hin.
  apply Hspec in Hin as [-> Hlen].
  unfold files_with_hash in Hlen. rewrite length_map in Hlen.
  clear - Hu Hlen.
  induction rows as [|r rows IH]; simpl in *; [lia|].
  inversion Hu as [|x xs Hnot Hu']; subst.
  destruct (pystr_eqb (hash r) h) eqn:Er.
  - apply pystr_eqb_eq in Er. subst h. simpl in Hlen.
    assert (Hz : filter (fun r0 => pystr_eqb (hash r0) (hash r)) rows = []).
    { clear - Hnot. induction rows as [|r' rows IH]; [reflexivity|]. simpl.
      destruct (pystr_eqb (hash r') (hash r)) eqn:X.
      - apply pystr_eqb_eq in X. exfalso. apply Hnot. left. exact X.
      - apply IH. intro H. apply Hnot. right. exact H. }
    rewrite Hz in Hlen. simpl in Hlen. lia.
  - apply IH; assumption.
Qed.

(** The page shows a set for a hash exactly when at least two rows have
    that hash, and then lists the files of those rows in row order.  As
    the hash column is unique, no set is ever shown. *)
Theorem duplicates_spec (rows : list image_row) :
  (forall h files,
     In (h, files) (duplicates rows)
     <-> files = files_with_hash h rows /\ (2 <= List.length files)%nat)
  /\ (NoDup (map hash rows) -> duplicates rows = []).
Proof. exact (duplicates_characterised rows). Qed.

Lemma duplicates_spec_witness :
  let rows := images (db (snd (example_run (fun _ => py "TAGS: cat")
                                 [py "a.jpg"; py "b.jpg"; py "c.jpg"]
                                 empty_database))) in
  map hash rows = [py "ab12ab12ab12ab12"; py "c0ffee00c0ffee00"]
  /\ duplicates rows = [].
Proof.
  cbv zeta. split; [reflexivity|].
  apply (proj2 (duplicates_spec _)).
  change (NoDup [py "ab12ab12ab12ab12"; py "c0ffee00c0ffee00"]).
  nodup_strings.
Defined.

(** Whatever an import does, and whatever tag edits follow, the
    duplicates page has nothing to show, provided the catalog had no two
    records with one hash to begin with: two files with the same content
    never both get a record. *)
Theorem duplicates_page_stays_empty (str_of : pyval -> pystr)
    (strptime_iso : pystr -> option pystr) (w : world)
    (images_dir thumbnails_dir : pystr) (image_files : list pystr)
    (batch_size : Z) (catalog : database) (image_id : Z)
    (new_tags : list pystr) :
  unique_hashes catalog ->
  let d := db (snd (process_images str_of strptime_iso w images_dir
                      thumbnails_dir image_files batch_size catalog)) in
  duplicates (images d) = []
  /\ duplicates (images (update_image_tags image_id new_tags d)) = [].
Proof.
  intro Hu. cbv zeta.
  assert (Hd : unique_hashes
                 (db (snd (process_images str_of strptime_iso w images_dir
                             thumbnails_dir image_files batch_size catalog)))).
  { unfold process_images. cbv zeta.
    destruct (batch_size =? 0); cbn [snd]; [exact Hu|].
    rewrite db_write_progress.
    apply (fold_left_invariant (fun st => unique_hashes (db st))); [|exact Hu].
    intros st batch Hst. unfold process_batch.
    apply (fold_left_invariant (fun st => unique_hashes (db st))); [|exact Hst].
    intros st' path Hst'.
    apply (process_item_keeps str_of strptime_iso w images_dir thumbnails_dir).
    exact Hst'. }
  split.
  - apply (proj2 (duplicates_characterised _)). exact Hd.
  - apply (proj2 (duplicates_characterised _)).
    destruct (update_image_tags_effect image_id new_tags
                (db (snd (process_images str_of strptime_iso w images_dir
                            thumbnails_dir image_files batch_size catalog))))
      as [Hi _].
    cbv zeta in Hi. rewrite Hi, map_map.
    rewrite (map_ext _ hash (with_tags_hash image_id new_tags)).
    exact Hd.
Qed.

Lemma duplicates_page_stays_empty_witness :
  let d := db (snd (example_run (fun _ => py "TAGS: cat")
                      [py "a.jpg"; py "b.jpg"; py "c.jpg"] empty_database)) in
  duplicates (images d) = []
  /\ duplicates (images (update_image_tags 1 [py "dog"] d)) = [].
Proof.
  apply (duplicates_page_stays_empty str_of_example (fun _ => None)
           (example_world example_hashes (fun _ => py "TAGS: cat"))
           (py "images") (py "thumbs") [py "a.jpg"; py "b.jpg"; py "c.jpg"]
           20 empty_database 1 [py "dog"]).
  apply NoDup_nil.
Defined.

(** ** The gallery query: the tag filter *)

Lemma like_percent (p s : pystr) :
  like ("%"%char :: p) s
  = like p s || match s with
                | [] => false
                | _ :: s' => like ("%"%char :: p) s'
                end.
Proof. destruct s; reflexivity. Qed.

Lemma like_char (c : ascii) (p s : pystr) :
  Ascii.eqb c "%"%char = false ->
  like (c :: p) s
  = match s with
    | [] => false
    | x :: s' => (Ascii.eqb c "_"%char || ci_eqb c x) && like p s'
    end.
Proof. intro H. cbn [like]. rewrite H. reflexivity. Qed.

#[local] Arguments like : simpl never.

Lemma like_percent_only (s : pystr) : like ["%"%char] s = true.
Proof.
  induction s as [|x s IH]; rewrite like_percent; [reflexivity|].
  rewrite IH. apply orb_true_r.
Qed.

Lemma like_percent_skip (p s1 s2 : pystr) :
  like p s2 = true -> like ("%"%char :: p) (s1 ++ s2) = true.
Proof.
  intro H. induction s1 as [|x s1 IH]; rewrite like_percent.
  - cbn [app]. rewrite H. reflexivity.
  - cbn [app]. rewrite IH. apply orb_true_r.
Qed.

Lemma like_percent_inv (p s : pystr) :
  like ("%"%char :: p) s = true ->
  exists s1 s2, s = s1 ++ s2 /\ like p s2 = true.
Proof.
  induction s as [|x s IH]; rewrite like_percent; intro H.
  - rewrite orb_false_r in H. exists [], []. split; [reflexivity | exact H].
  - apply orb_true_iff in H as [H|H].
    + exists [], (x :: s). split; [reflexivity | exact H].
    + destruct (IH H) as [s1 [s2 [E Hl]]]. exists (x :: s1), s2.
      split; [rewrite E; reflexivity | exact Hl].
Qed.

Lemma ascii_lower_fixes (c d : ascii) :
  ascii_lower c = d ->
  (nat_of_ascii d < 97 \/ 122 < nat_of_ascii d)%nat -> c = d.
Proof.
  unfold ascii_lower.
  destruct ((65 <=? nat_of_ascii c) && (nat_of_ascii c <=? 90))%nat eqn:E;
    [|intros; assumption].
  apply andb_true_iff in E as [E1 E2].
  apply Nat.leb_le in E1. apply Nat.leb_le in E2.
  intros <- H. rewrite nat_ascii_embedding in H by lia. lia.
Qed.

Lemma ci_eqb_fixes (c x : ascii) :
  (nat_of_ascii c < 65 \/ 122 < nat_of_ascii c
   \/ (90 < nat_of_ascii c /\ nat_of_ascii c < 97))%nat ->
  ci_eqb c x = true -> x = c.
Proof.
  intros Hc H. unfold ci_eqb in H. apply Ascii.eqb_eq in H.
  assert (Hl : ascii_lower c = c).
  { unfold ascii_lower.
    destruct ((65 <=? nat_of_ascii c) && (nat_of_ascii c <=? 90))%nat eqn:E;
      [|reflexivity].
    apply andb_true_iff in E as [E1 E2].
    apply Nat.leb_le in E1. apply Nat.leb_le in E2. lia. }
  rewrite Hl in H. symmetry in H. apply ascii_lower_fixes in H; [exact H | lia].
Qed.

Lemma ci_equal_length (a b : pystr) :
  ci_equal a b -> List.length a = List.length b.
Proof.
  intro H. apply (f_equal (@List.length ascii)) in H.
  rewrite !length_map in H. exact H.
Qed.

(** A character that is no letter occurs in both or in neither of two
    strings that are equal up to case. *)
Lemma ci_equal_not_In (k : ascii) (a b : pystr) :
  (nat_of_ascii k < 65 \/ 122 < nat_of_ascii k
   \/ (90 < nat_of_ascii k /\ nat_of_ascii k < 97))%nat ->
  ci_equal a b -> ~ In k b -> ~ In k a.
Proof.
  intros Hk. unfold ci_equal. revert b.
  induction a as [|x a IH]; intros [|y b] E Hb; try discriminate;
    [intros [] |].
  simpl in E. injection E as Exy E. intros [->|Hin].
  - apply Hb. left.
    assert (H : ci_eqb k y = true)
      by (unfold ci_eqb; rewrite Exy; apply Ascii.eqb_refl).
    exact (ci_eqb_fixes k y Hk H).
  - apply (IH b E); [|exact Hin]. intro H. apply Hb. right. exact H.
Qed.

(** A stretch of the pattern without wildcards matches a stretch of the
    text of the same length, equal to it up to case. *)
Lemma like_literal_prefix (t p s : pystr) :
  ~ In "%"%char t -> ~ In "_"%char t ->
  like (t ++ p) s = true ->
  exists m s', s = m ++ s' /\ ci_equal m t /\ like p s' = true.
Proof.
  revert s. induction t as [|c t IH]; intros s Hp Hu H.
  - exists [], s. repeat split. exact H.
  - cbn [app] in H.
    assert (Ec : Ascii.eqb c "%"%char = false).
    { apply Ascii.eqb_neq. intro E. apply Hp. left. exact E. }
    assert (Eu : Ascii.eqb c "_"%char = false).
    { apply Ascii.eqb_neq. intro E. apply Hu. left. exact E. }
    rewrite (like_char c _ _ Ec) in H.
    destruct s as [|x s]; [discriminate|].
    rewrite Eu in H. cbn [orb] in H. apply andb_true_iff in H as [Hcx H].
    destruct (IH s) as [m [s' [E [Hm Hl]]]];
      [intro X; apply Hp; right; exact X
      |intro X; apply Hu; right; exact X | exact H |].
    exists (x :: m), s'. split; [rewrite E; reflexivity|]. split; [|exact Hl].
    unfold ci_equal in *. cbn [map]. rewrite Hm. f_equal.
    unfold ci_eqb in Hcx. apply Ascii.eqb_eq in Hcx. symmetry. exact Hcx.
Qed.

(** The pattern read as a text, up to case, matches: a wildcard stands
    for itself too. *)
Lemma like_ci_prefix (t x p s : pystr) :
  ci_equal x t -> like p s = true -> like (t ++ p) (x ++ s) = true.
Proof.
  unfold ci_equal. revert x. induction t as [|c t IH]; intros [|y x] E H;
    try discriminate; [exact H|].
  simpl in E. injection E as Eyc E. cbn [app].
  specialize (IH x E H).
  destruct (Ascii.eqb c "%"%char) eqn:Ec.
  - apply Ascii.eqb_eq in Ec. subst c.
    rewrite like_percent, (like_percent _ (x ++ s)), IH. cbn [orb].
    apply orb_true_r.
  - rewrite (like_char c _ _ Ec), IH.
    unfold ci_eqb. rewrite Eyc, Ascii.eqb_refl, orb_true_r. reflexivity.
Qed.

Lemma json_plain_escape (x : pystr) :
  json_plain x -> flat_map json_escape x = x.
Proof.
  unfold json_plain. induction x as [|c x IH]; intro H; [reflexivity|].
  cbn [flat_map]. rewrite (H c (or_introl eq_refl)), IH; [reflexivity|].
  intros d Hd. apply H. right. exact Hd.
Qed.

Lemma json_plain_no_dquote (x : pystr) : json_plain x -> ~ In dquote x.
Proof. intros H Hin. specialize (H dquote Hin). discriminate. Qed.

Lemma json_string_plain (x : pystr) :
  json_plain x -> json_string x = dquote :: x ++ [dquote].
Proof. intro H. unfold json_string. rewrite (json_plain_escape x H). reflexivity. Qed.

Lemma json_items_In (x : pystr) (ts : list pystr) :
  In x ts -> exists pre post, json_items ts = pre ++ json_string x ++ post.
Proof.
  induction ts as [|y ts IH]; intro H; [contradiction|].
  destruct H as [->|H].
  - destruct ts as [|z ts].
    + exists [], []. cbn [json_items app]. rewrite app_nil_r. reflexivity.
    + exists [], (py ", " ++ json_items (z :: ts)). reflexivity.
  - destruct (IH H) as [pre [post E]]. destruct ts as [|z ts]; [contradiction|].
    exists (json_string y ++ py ", " ++ pre), post.
    change (json_items (y :: z :: ts))
      with (json_string y ++ py ", " ++ json_items (z :: ts)).
    rewrite E, <- !app_assoc. reflexivity.
Qed.

Lemma split_app_sep_gen (c : ascii) (a b : pystr) :
  split c (a ++ c :: b) = split c a ++ split c b.
Proof.
  induction a as [|x a IH]; cbn [app split].
  - rewrite Ascii.eqb_refl. reflexivity.
  - rewrite IH. destruct (Ascii.eqb x c); [reflexivity|].
    pose proof (split_not_nil c a) as Hne.
    destruct (split c a) as [|t ts]; [congruence | reflexivity].
Qed.

(** A stretch between two quotes, itself without a quote, is a piece of
    the text cut at the quotes, and neither the first nor the last. *)
Lemma piece_between (c : ascii) (s1 m rest : pystr) :
  ~ In c m ->
  exists l1 l2,
    split c (s1 ++ c :: m ++ c :: rest) = l1 ++ m :: l2
    /\ l1 <> [] /\ l2 <> [].
Proof.
  intro Hm. exists (split c s1), (split c rest).
  rewrite !split_app_sep_gen, (split_single c m Hm).
  split; [reflexivity|]. split; apply split_not_nil.
Qed.

Lemma split_json_items (P : pystr) (ts : list pystr) :
  ~ In dquote P -> ts <> [] -> Forall json_plain ts ->
  split dquote (P ++ json_items ts ++ ["]"%char])
  = P :: quote_pieces ts ++ [["]"%char]].
Proof.
  revert P. induction ts as [|x ts IH]; intros P HP Hne Hall; [congruence|].
  inversion Hall as [|y ys Hx Hall']; subst.
  assert (Hxq : ~ In dquote x) by (apply json_plain_no_dquote; exact Hx).
  destruct ts as [|z ts].
  - cbn [json_items quote_pieces]. rewrite (json_string_plain x Hx).
    cbn [app]. rewrite split_app_sep_gen, (split_single _ _ HP).
    rewrite <- app_assoc. cbn [app]. rewrite split_app_sep_gen.
    rewrite (split_single _ _ Hxq). reflexivity.
  - change (json_items (x :: z :: ts))
      with (json_string x ++ py ", " ++ json_items (z :: ts)).
    change (quote_pieces (x :: z :: ts))
      with (x :: py ", " :: quote_pieces (z :: ts)).
    rewrite (json_string_plain x Hx). cbn [app].
    rewrite split_app_sep_gen, (split_single _ _ HP).
    rewrite <- !app_assoc. cbn [app]. rewrite split_app_sep_gen.
    rewrite (split_single _ _ Hxq).
    change (","%char :: " "%char :: json_items (z :: ts) ++ ["]"%char])
      with (py ", " ++ json_items (z :: ts) ++ ["]"%char]).
    rewrite IH; [reflexivity | | discriminate | exact Hall'].
    simpl. intuition discriminate.
Qed.

Lemma quote_pieces_In (m : pystr) (ts : list pystr) :
  In m (quote_pieces ts) -> In m ts \/ m = py ", ".
Proof.
  induction ts as [|x ts IH]; intro H; [contradiction|].
  destruct ts as [|z ts].
  - destruct H as [<-|[]]. left. left. reflexivity.
  - change (quote_pieces (x :: z :: ts))
      with (x :: py ", " :: quote_pieces (z :: ts)) in H.
    destruct H as [<-|[<-|H]].
    + left. left. reflexivity.
    + right. reflexivity.
    + destruct (IH H) as [Hin|E]; [left; right; exact Hin | right; exact E].
Qed.

Lemma inner_element {A : Type} (a b q : list A) (m p z : A) :
  a <> [] -> b <> [] -> a ++ m :: b = p :: q ++ [z] -> In m q.
Proof.
  intros Ha Hb E. destruct a as [|p' a]; [congruence|].
  cbn [app] in E. injection E as _ E.
  destruct (exists_last Hb) as [b' [z' ->]].
  change (a ++ m :: b' ++ [z']) with (a ++ (m :: b') ++ [z']) in E.
  rewrite app_assoc in E. apply app_inj_tail in E as [E _].
  rewrite <- E. apply in_or_app. right. left. reflexivity.
Qed.

(** The tag filter on one row.  If the row has a tag that is written to
    JSON as it is and equals the filter up to case, the row is selected.
    Conversely, when all the row's tags are written as they are and the
    filter has no quote, comma, [%] or [_], a selected row has a tag equal
    to the filter up to case. *)
Lemma tag_filter_on_text (t : pystr) (ts : list pystr) :
  ((exists x, In x ts /\ json_plain x /\ ci_equal x t) ->
   like (tag_pattern t) (json_dumps ts) = true)
  /\ (Forall json_plain ts ->
      ~ In dquote t -> ~ In ","%char t ->
      ~ In "%"%char t -> ~ In "_"%char t ->
      like (tag_pattern t) (json_dumps ts) = true ->
      exists x, In x ts /\ ci_equal x t).
Proof.
  split.
  - intros [x [Hin [Hx Hci]]].
    destruct (json_items_In x ts Hin) as [pre [post E]].
    unfold json_dumps, tag_pattern. rewrite E, (json_string_plain x Hx).
    rewrite <- !app_assoc, app_comm_cons.
    apply like_percent_skip. cbn [app].
    rewrite like_char by reflexivity.
    replace (Ascii.eqb dquote "_"%char || ci_eqb dquote dquote) with true
      by reflexivity.
    cbn [andb]. rewrite <- app_assoc. cbn [app].
    apply (like_ci_prefix t x); [exact Hci|].
    rewrite like_char by reflexivity.
    replace (Ascii.eqb dquote "_"%char || ci_eqb dquote dquote) with true
      by reflexivity.
    cbn [andb]. apply like_percent_only.
  - intros Hall Hq Hc Hp Hu H. unfold tag_pattern in H.
    apply like_percent_inv in H as [s1 [s2 [EJ H]]].
    rewrite like_char in H by reflexivity.
    destruct s2 as [|q s2]; [discriminate|].
    apply andb_true_iff in H as [Hq1 H].
    assert (q = dquote) as ->.
    { apply (ci_eqb_fixes dquote q); [left; cbn; lia|].
      destruct (ci_eqb dquote q); [reflexivity | discriminate]. }
    apply like_literal_prefix in H as [m [s' [Es2 [Hm H]]]];
      [|exact Hp | exact Hu].
    rewrite like_char in H by reflexivity.
    destruct s' as [|q' s']; [discriminate|].
    apply andb_true_iff in H as [Hq2 _].
    assert (q' = dquote) as ->.
    { apply (ci_eqb_fixes dquote q'); [left; cbn; lia|].
      destruct (ci_eqb dquote q'); [reflexivity | discriminate]. }
    subst s2.
    assert (Hmq : ~ In dquote m).
    { apply (ci_equal_not_In dquote m t); [left; cbn; lia | exact Hm | exact Hq]. }
    assert (Hmc : ~ In ","%char m).
    { apply (ci_equal_not_In ","%char m t); [left; cbn; lia | exact Hm | exact Hc]. }
    destruct (piece_between dquote s1 m s' Hmq) as [l1 [l2 [Esp [H1 H2]]]].
    rewrite <- EJ in Esp.
    destruct ts as [|x0 ts0] eqn:Ets.
    { exfalso. cbn in Esp.
      destruct l1 as [|a [|a' l1]]; try congruence; discriminate. }
    rewrite <- Ets in *.
    assert (Hne : ts <> []) by (rewrite Ets; discriminate).
    unfold json_dumps in Esp.
    change ("["%char :: json_items ts ++ ["]"%char])
      with (["["%char] ++ json_items ts ++ ["]"%char]) in Esp.
    rewrite (split_json_items ["["%char] ts) in Esp;
      [| cbn; intuition discriminate | exact Hne | exact Hall].
    symmetry in Esp. apply (inner_element l1 l2) in Esp; [|exact H1 | exact H2].
    apply quote_pieces_In in Esp as [Hin|E].
    + exists m. split; [exact Hin | exact Hm].
    + exfalso. apply Hmc. rewrite E. left. reflexivity.
Qed.

Lemma In_firstn {A : Type} (x : A) (n : nat) (l : list A) :
  In x (firstn n l) -> In x l.
Proof.
  intro H. rewrite <- (firstn_skipn n l). apply in_or_app. left. exact H.
Qed.

Lemma In_skipn {A : Type} (x : A) (n : nat) (l : list A) :
  In x (skipn n l) -> In x l.
Proof.
  intro H. rewrite <- (firstn_skipn n l). apply in_or_app. right. exact H.
Qed.

Lemma ci_equalb_spec (a b : pystr) : ci_equalb a b = true <-> ci_equal a b.
Proof. unfold ci_equalb, ci_equal. apply pystr_eqb_eq. Qed.

(** Filtering the gallery by a tag, with the search box empty.  Suppose
    every stored tag is written to JSON as it is (printable ASCII without
    quote and backslash) and the filter is not empty and has no quote,
    comma, [%] or [_].  Then a record is selected exactly when one of its
    tags equals the filter up to the case of ASCII letters; the total
    count is the number of such records, on whatever page; and every row
    of the page is such a record, as long as sorting invents no row. *)
Theorem gallery_tag_filter (order_by : list image_row -> list image_row)
    (t : pystr) (search_query : option pystr) (page per_page : Z)
    (d : database) :
  t <> [] ->
  search_query = None \/ search_query = Some [] ->
  Forall (fun r => Forall json_plain (tags r)) (images d) ->
  ~ In dquote t -> ~ In ","%char t -> ~ In "%"%char t -> ~ In "_"%char t ->
  let has_tag := fun r => existsb (fun x => ci_equalb x t) (tags r) in
  (forall r, In r (images d) ->
     where_clause (Some t) search_query r = has_tag r)
  /\ snd (get_images order_by (Some t) search_query page per_page d)
     = count_if has_tag (images d)
  /\ ((forall l r, In r (order_by l) -> In r l) ->
      forall r,
        In r (fst (get_images order_by (Some t) search_query page per_page d)) ->
        In r (images d) /\ exists x, In x (tags r) /\ ci_equal x t).
Proof.
  intros Ht Hsq Hplain Hq Hc Hp Hu. cbv zeta.
  assert (Hw : forall r, In r (images d) ->
             where_clause (Some t) search_query r
             = existsb (fun x => ci_equalb x t) (tags r)).
  { intros r Hr. unfold where_clause. cbv zeta.
    destruct t as [|c t']; [congruence|]. cbn [truthy].
    assert (Hs : match search_query with
                 | Some q => if truthy q
                             then like (search_pattern q) (json_dumps (tags r))
                             else true
                 | None => true
                 end = true)
      by (destruct Hsq as [-> | ->]; reflexivity).
    rewrite Hs, andb_true_r.
    rewrite Forall_forall in Hplain. specialize (Hplain r Hr).
    destruct (tag_filter_on_text (c :: t') (tags r)) as [HA HB].
    destruct (existsb (fun x => ci_equalb x (c :: t')) (tags r)) eqn:Ex.
    - apply existsb_exists in Ex as [x [Hx Hci]]. apply ci_equalb_spec in Hci.
      apply HA. exists x. split; [exact Hx|]. split; [|exact Hci].
      rewrite Forall_forall in Hplain. apply Hplain. exact Hx.
    - destruct (like (tag_pattern (c :: t')) (json_dumps (tags r))) eqn:El;
        [|reflexivity].
      destruct (HB Hplain Hq Hc Hp Hu eq_refl) as [x [Hx Hci]].
      assert (Ex' : existsb (fun x => ci_equalb x (c :: t')) (tags r) = true).
      { apply existsb_exists. exists x. split; [exact Hx|].
        apply ci_equalb_spec. exact Hci. }
      congruence. }
  split; [exact Hw|]. split.
  - unfold get_images. cbv zeta. cbn [snd]. unfold count_if.
    rewrite (filter_ext_in _ _ _ Hw). reflexivity.
  - intros Hsub r Hr. unfold get_images in Hr. cbv zeta in Hr. cbn [fst] in Hr.
    assert (Hin : In r (filter (where_clause (Some t) search_query) (images d))).
    { apply Hsub.
      destruct (per_page <? 0);
        [|apply In_firstn in Hr]; apply In_skipn in Hr; exact Hr. }
    apply filter_In in Hin as [Hi Hwr]. split; [exact Hi|].
    rewrite (Hw r Hi) in Hwr. apply existsb_exists in Hwr as [x [Hx Hci]].
    exists x. split; [exact Hx | apply ci_equalb_spec; exact Hci].
Qed.

(** Typing into the search box selects every record that has a tag,
    written to JSON as it is, of which the text is a part up to case.  (It
    may select more: the text is looked for in the JSON text as a whole,
    punctuation included.) *)
Theorem gallery_search_finds_tag_parts (q a m b : pystr) (r : image_row) :
  q <> [] ->
  In (a ++ m ++ b) (tags r) -> json_plain (a ++ m ++ b) -> ci_equal m q ->
  where_clause None (Some q) r = true.
Proof.
  intros Hq Hin Hx Hci. unfold where_clause. cbv zeta.
  destruct q as [|c q']; [congruence|]. cbn [truthy andb].
  destruct (json_items_In _ _ Hin) as [pre [post E]].
  unfold json_dumps, search_pattern. rewrite E, (json_string_plain _ Hx).
  match goal with
  | |- like _ ?text = true =>
      replace text
        with (("["%char :: pre ++ dquote :: a)
              ++ m ++ (b ++ dquote :: post ++ ["]"%char]))
  end.
  2:{ repeat first [rewrite <- app_assoc | progress cbn [app]]. reflexivity. }
  apply like_percent_skip.
  apply (like_ci_prefix (c :: q') m); [exact Hci|].
  apply like_percent_only.
Qed.

Ltac plain_string :=
  let c := fresh "c" in
  let H := fresh "H" in
  intros c H; simpl in H;
  repeat (destruct H as [<-|H]; [reflexivity|]); contradiction.

Lemma gallery_tag_filter_witness :
  let d := db (snd (example_run
                      (fun p => if pystr_eqb p (py "images/c0ffee00c0_c.jpg")
                                then py "TAGS: dog, Cat" else py "TAGS: cat")
                      [py "a.jpg"; py "c.jpg"] empty_database)) in
  map tags (images d) = [[py "cat"]; [py "dog"; py "Cat"]]
  /\ snd (get_images (fun l => l) (Some (py "cat")) (Some []) 0 60 d) = 2
  /\ snd (get_images (fun l => l) (Some (py "dog")) (Some []) 0 60 d) = 1.
Proof.
  cbv zeta. split; [reflexivity|].
  assert (Hplain : Forall (fun r => Forall json_plain (tags r))
                     (images (db (snd (example_run
                        (fun p => if pystr_eqb p (py "images/c0ffee00c0_c.jpg")
                                  then py "TAGS: dog, Cat" else py "TAGS: cat")
                        [py "a.jpg"; py "c.jpg"] empty_database))))).
  { vm_compute images. repeat constructor; plain_string. }
  split.
  - rewrite (proj1 (proj2 (gallery_tag_filter (fun l => l) (py "cat")
                             (Some []) 0 60 _
                             ltac:(discriminate) (or_intror eq_refl) Hplain
                             ltac:(simpl; intuition discriminate)
                             ltac:(simpl; intuition discriminate)
                             ltac:(simpl; intuition discriminate)
                             ltac:(simpl; intuition discriminate)))).
    reflexivity.
  - rewrite (proj1 (proj2 (gallery_tag_filter (fun l => l) (py "dog")
                             (Some []) 0 60 _
                             ltac:(discriminate) (or_intror eq_refl) Hplain
                             ltac:(simpl; intuition discriminate)
                             ltac:(simpl; intuition discriminate)
                             ltac:(simpl; intuition discriminate)
                             ltac:(simpl; intuition discriminate)))).
    reflexivity.
Defined.

Lemma gallery_search_finds_tag_parts_witness :
  where_clause None (Some (py "UNS"))
    {| row_id := 1; filename := py "f"; original_path := py "p";
       hash := py "h"; thumbnail_path := py "t";
       tags := [py "beach"; py "sunset"]; meta := empty_metadata |}
  = true.
Proof.
  apply (gallery_search_finds_tag_parts (py "UNS") (py "s") (py "uns") (py "et")).
  - discriminate.
  - right. left. reflexivity.
  - plain_string.
  - reflexivity.
Defined.

(** Where the conditions matter: a tag with a letter outside ASCII is
    stored escaped and is not found by its own filter; a filter with [_]
    finds other tags; and a search text can match the punctuation of the
    JSON text. *)
Example gallery_filter_limits :
  like (tag_pattern [ascii_of_nat 233]) (json_dumps [[ascii_of_nat 233]])
  = false
  /\ like (tag_pattern (py "c_t")) (json_dumps [py "cut"]) = true
  /\ like (search_pattern (py ", ")) (json_dumps [py "beach"; py "sunset"])
     = true.
Proof. repeat split; reflexivity. Qed.

(** ** Date ranges *)

Lemma nat_of_ascii_inj (x y : ascii) : nat_of_ascii x = nat_of_ascii y -> x = y.
Proof.
  intro H. rewrite <- (ascii_nat_embedding x), <- (ascii_nat_embedding y), H.
  reflexivity.
Qed.

Lemma pystr_ltb_trans (a b c : pystr) :
  pystr_ltb a b = true -> pystr_ltb b c = true -> pystr_ltb a c = true.
Proof.
  revert b c. induction a as [|x a IH]; intros [|y b] [|z c] H1 H2;
    try discriminate; try reflexivity.
  cbn [pystr_ltb] in *.
  apply orb_true_iff in H1. apply orb_true_iff in H2. apply orb_true_iff.
  destruct H1 as [H1|H1], H2 as [H2|H2].
  - left. apply Nat.ltb_lt in H1. apply Nat.ltb_lt in H2. apply Nat.ltb_lt. lia.
  - apply andb_true_iff in H2 as [E _]. apply Ascii.eqb_eq in E. subst z.
    left. exact H1.
  - apply andb_true_iff in H1 as [E _]. apply Ascii.eqb_eq in E. subst y.
    left. exact H2.
  - apply andb_true_iff in H1 as [E1 H1]. apply andb_true_iff in H2 as [E2 H2].
    apply Ascii.eqb_eq in E1. apply Ascii.eqb_eq in E2. subst y z.
    right. rewrite Ascii.eqb_refl. exact (IH b c H1 H2).
Qed.

Lemma pystr_ltb_total (a b : pystr) :
  a <> b -> pystr_ltb a b = false -> pystr_ltb b a = true.
Proof.
  revert b. induction a as [|x a IH]; intros [|y b] Hne H;
    try congruence; try discriminate; try reflexivity.
  cbn [pystr_ltb] in *.
  apply orb_false_iff in H as [H1 H2]. apply Nat.ltb_ge in H1.
  destruct (Nat.eq_dec (nat_of_ascii x) (nat_of_ascii y)) as [E|E].
  - apply nat_of_ascii_inj in E. subst y.
    rewrite Ascii.eqb_refl in *. cbn [andb] in *.
    rewrite (IH b); [apply orb_true_r | congruence | exact H2].
  - replace (nat_of_ascii y <? nat_of_ascii x)%nat with true
      by (symmetry; apply Nat.ltb_lt; lia).
    reflexivity.
Qed.

Lemma In_insert_reverse (e x : pystr * pystr * Z) (l : list (pystr * pystr * Z)) :
  In e (insert_reverse x l) <-> e = x \/ In e l.
Proof.
  induction l as [|y r IH]; cbn [insert_reverse].
  - simpl. intuition.
  - destruct (pystr_ltb (fst (fst x)) (fst (fst y))).
    + simpl. rewrite IH. intuition.
    + simpl. intuition.
Qed.

Lemma In_sorted_reverse (e : pystr * pystr * Z) (l : list (pystr * pystr * Z)) :
  In e (sorted_reverse l) <-> In e l.
Proof.
  unfold sorted_reverse. induction l as [|x l IH]; cbn [fold_right];
    [reflexivity|].
  rewrite In_insert_reverse, IH. simpl. intuition.
Qed.

Lemma insert_reverse_sorted (x : pystr * pystr * Z)
    (l : list (pystr * pystr * Z)) :
  newest_first l ->
  (forall y, In y l -> fst (fst y) <> fst (fst x)) ->
  newest_first (insert_reverse x l).
Proof.
  induction l as [|y r IH]; intros Hs Hne; cbn [insert_reverse].
  - split; [constructor | exact I].
  - destruct Hs as [Hy Hr].
    destruct (pystr_ltb (fst (fst x)) (fst (fst y))) eqn:E.
    + split.
      * apply Forall_forall. intros z Hz. apply In_insert_reverse in Hz.
        destruct Hz as [->|Hz]; [exact E|].
        rewrite Forall_forall in Hy. apply Hy. exact Hz.
      * apply IH; [exact Hr|]. intros z Hz. apply Hne. right. exact Hz.
    + assert (Hyx : pystr_ltb (fst (fst y)) (fst (fst x)) = true).
      { apply pystr_ltb_total; [|exact E].
        intro X. apply (Hne y (or_introl eq_refl)). symmetry. exact X. }
      split; [|split; assumption].
      constructor; [exact Hyx|].
      apply Forall_forall. intros z Hz. rewrite Forall_forall in Hy.
      exact (pystr_ltb_trans _ _ _ (Hy z Hz) Hyx).
Qed.

Lemma sorted_reverse_sorted (l : list (pystr * pystr * Z)) :
  NoDup (map (fun e => fst (fst e)) l) -> newest_first (sorted_reverse l).
Proof.
  unfold sorted_reverse. induction l as [|x l IH]; intro Hnd;
    cbn [fold_right]; [exact I|].
  inversion Hnd as [|k ks Hnot Hnd']; subst.
  apply insert_reverse_sorted; [apply IH; exact Hnd'|].
  intros y Hy E. apply (proj1 (In_sorted_reverse y l)) in Hy. apply Hnot.
  rewrite <- E. apply (in_map (fun e => fst (fst e))) in Hy. exact Hy.
Qed.

Lemma assoc_count_range (k0 d0 : pystr) (g : list (pystr * (pystr * Z)))
    (k : pystr) :
  assoc k (count_range k0 d0 g)
  = if pystr_eqb k k0
    then Some (match assoc k0 g with
               | Some (d, n) => (d, n + 1)
               | None => (d0, 1)
               end)
    else assoc k g.
Proof.
  unfold assoc. induction g as [|[k' [d n]] g IH]; cbn [count_range].
  - simpl. rewrite (pystr_eqb_sym_bool k0 k). destruct (pystr_eqb k k0); reflexivity.
  - destruct (pystr_eqb k' k0) eqn:E1; simpl.
    + apply pystr_eqb_eq in E1. subst k'. rewrite pystr_eqb_refl.
      rewrite (pystr_eqb_sym_bool k0 k). destruct (pystr_eqb k k0); reflexivity.
    + rewrite E1. destruct (pystr_eqb k' k) eqn:E2; simpl.
      * apply pystr_eqb_eq in E2. subst k'. rewrite E1. reflexivity.
      * exact IH.
Qed.

Lemma keys_count_range (k0 d0 : pystr) (g : list (pystr * (pystr * Z))) :
  map fst (count_range k0 d0 g)
  = map fst g ++ (if mem k0 (map fst g) then [] else [k0]).
Proof.
  unfold mem. induction g as [|[k' [d n]] g IH]; cbn [count_range];
    [reflexivity|].
  simpl. rewrite (pystr_eqb_sym_bool k0 k').
  destruct (pystr_eqb k' k0); simpl.
  - rewrite app_nil_r. reflexivity.
  - rewrite IH. reflexivity.
Qed.

Section DateRangesProperties.

Variable year_month_of : pystr -> option (pystr * pystr).

(** The dict after the loop: every key once, and under each key the
    number of dates that fall into it. *)
Lemma group_dates_spec (dates : list pystr) :
  NoDup (map fst (group_dates year_month_of dates))
  /\ forall k,
       option_map snd (assoc k (group_dates year_month_of dates))
       = if count_if (dated year_month_of k) dates =? 0 then None
         else Some (count_if (dated year_month_of k) dates).
Proof.
  unfold group_dates. induction dates as [|date l IH] using rev_ind.
  - split; [constructor | reflexivity].
  - destruct IH as [Hnd Has]. rewrite fold_left_app. cbn [fold_left].
    set (g := fold_left _ l []) in *.
    assert (Hcnt : forall k, count_if (dated year_month_of k) (l ++ [date])
                             = count_if (dated year_month_of k) l
                               + (if dated year_month_of k date then 1 else 0)).
    { intro k. rewrite count_if_app, count_if_cons. unfold count_if. simpl. lia. }
    unfold dated in Hcnt at 3.
    destruct (truthy date) eqn:Et.
    2:{ split; [exact Hnd|]. intro k. rewrite Hcnt. cbn [andb].
        rewrite Z.add_0_r. apply Has. }
    destruct (year_month_of date) as [[k0 d0]|] eqn:Ey.
    2:{ split; [exact Hnd|]. intro k. rewrite Hcnt. cbn [andb].
        rewrite Z.add_0_r. apply Has. }
    split.
    + rewrite keys_count_range.
      destruct (mem k0 (map fst g)) eqn:Em; [rewrite app_nil_r; exact Hnd|].
      apply mem_not_In in Em.
      apply NoDup_app; [exact Hnd | repeat constructor; intros [] |].
      intros a Ha [<-|[]]. contradiction.
    + intro k. rewrite Hcnt, assoc_count_range. cbn [andb].
      rewrite (pystr_eqb_sym_bool k0 k).
      pose proof (count_if_bounds (dated year_month_of k) l) as Hb.
      destruct (pystr_eqb k k0) eqn:E.
      * apply pystr_eqb_eq in E. subst k. specialize (Has k0).
        replace (count_if (dated year_month_of k0) l + 1 =? 0) with false
          by (symmetry; apply Z.eqb_neq; lia).
        destruct (assoc k0 g) as [[d n]|]; cbn [option_map snd] in *.
        -- destruct (count_if (dated year_month_of k0) l =? 0);
             [discriminate|]. injection Has as ->. reflexivity.
        -- destruct (count_if (dated year_month_of k0) l =? 0) eqn:Ez;
             [|discriminate]. apply Z.eqb_eq in Ez. rewrite Ez. reflexivity.
      * rewrite Z.add_0_r. apply Has.
Qed.

(** The result lists the months newest first, each month that has a
    dated record once, with the number of records whose date falls into
    it; records with an empty or unreadable date are in no month. *)
Theorem get_date_ranges_spec (dates : list pystr) :
  newest_first (get_date_ranges year_month_of dates)
  /\ (forall k disp n,
        In (k, disp, n) (get_date_ranges year_month_of dates) ->
        n = count_if (dated year_month_of k) dates /\ 1 <= n)
  /\ (forall k disp date,
        In date dates -> truthy date = true ->
        year_month_of date = Some (k, disp) ->
        exists disp' n, In (k, disp', n) (get_date_ranges year_month_of dates)).
Proof.
  destruct (group_dates_spec dates) as [Hnd Has].
  assert (E : get_date_ranges year_month_of dates
              = sorted_reverse
                  (map (fun e => (fst e, fst (snd e), snd (snd e)))
                       (group_dates year_month_of dates)))
    by (destruct dates; reflexivity).
  rewrite E. clear E. split; [|split].
  - apply sorted_reverse_sorted. rewrite map_map. cbn [fst]. exact Hnd.
  - intros k disp n Hin. apply (proj1 (In_sorted_reverse _ _)) in Hin.
    apply in_map_iff in Hin as [[k' [d' n']] [Ee Hin]].
    cbn [fst snd] in Ee. injection Ee as -> -> ->.
    apply (In_assoc _ _ _ Hnd) in Hin. specialize (Has k).
    rewrite Hin in Has. cbn [option_map snd] in Has.
    pose proof (count_if_bounds (dated year_month_of k) dates) as Hb.
    destruct (count_if (dated year_month_of k) dates =? 0) eqn:Ez;
      [discriminate|]. injection Has as ->. apply Z.eqb_neq in Ez.
    split; [reflexivity | lia].
  - intros k disp date Hin Ht Hy. specialize (Has k).
    assert (Hpos : 1 <= count_if (dated year_month_of k) dates).
    { apply in_split in Hin as [l1 [l2 ->]].
      rewrite count_if_app, count_if_cons.
      unfold dated at 2. rewrite Ht, Hy, pystr_eqb_refl. cbn [andb].
      pose proof (count_if_bounds (dated year_month_of k) l1).
      pose proof (count_if_bounds (dated year_month_of k) l2). lia. }
    replace (count_if (dated year_month_of k) dates =? 0) with false in Has
      by (symmetry; apply Z.eqb_neq; lia).
    destruct (assoc k (group_dates year_month_of dates)) as [[d n]|] eqn:Ea;
      [|discriminate].
    exists d, n. apply (proj2 (In_sorted_reverse _ _)).
    apply assoc_In in Ea.
    apply (in_map (fun e => (fst e, fst (snd e), snd (snd e)))) in Ea.
    exact Ea.
Qed.

End DateRangesProperties.

Lemma get_date_ranges_spec_witness :
  let dates := [py "2023-01-05T10:00:00"; py "2023-01-09T08:30:00"; py "";
                py "soon"; py "2024-03-01T12:00:00"] in
  get_date_ranges year_month_example dates
  = [(py "2024-03", py "2024-03", 1); (py "2023-01", py "2023-01", 2)]
  /\ newest_first (get_date_ranges year_month_example dates)
  /\ exists disp n,
       In (py "2023-01", disp, n) (get_date_ranges year_month_example dates).
Proof.
  cbv zeta. split; [reflexivity|].
  destruct (get_date_ranges_spec year_month_example
              [py "2023-01-05T10:00:00"; py "2023-01-09T08:30:00"; py "";
               py "soon"; py "2024-03-01T12:00:00"]) as [H1 [_ H3]].
  split; [exact H1|].
  apply (H3 (py "2023-01") (py "2023-01") (py "2023-01-05T10:00:00"));
    [left; reflexivity | reflexivity | reflexivity].
Defined.

(** ** An edit seen through the gallery *)

(** A tag that has just been saved for a record is found by the tag
    filter: after [update_image_tags] for an existing id, the record with
    that id carries the new list and passes the filter on each of its
    tags that JSON writes as it is. *)
Theorem saved_tag_is_found (image_id : Z) (new_tags : list pystr)
    (d : database) (t : pystr) :
  select_tags_by_id d image_id <> None ->
  In t new_tags -> json_plain t ->
  exists r,
    In r (images (update_image_tags image_id new_tags d))
    /\ row_id r = image_id
    /\ tags r = new_tags
    /\ where_clause (Some t) None r = true.
Proof.
  intros Hsel Hin Hplain.
  destruct (select_tags_by_id d image_id) as [cur|] eqn:Es; [|congruence].
  destruct (select_tags_by_id_row d image_id cur Es) as [r0 [Hr0 [Hid _]]].
  destruct (update_image_tags_effect image_id new_tags d) as [Hi _].
  cbv zeta in Hi.
  exists (with_tags image_id new_tags r0).
  assert (Htags : tags (with_tags image_id new_tags r0) = new_tags).
  { unfold with_tags. rewrite Hid, Z.eqb_refl. reflexivity. }
  split; [rewrite Hi; apply in_map; exact Hr0|].
  split; [rewrite with_tags_id; exact Hid|].
  split; [exact Htags|].
  unfold where_clause. cbv zeta. rewrite Htags, andb_true_r.
  destruct (truthy t); [|reflexivity].
  apply (proj1 (tag_filter_on_text t new_tags)).
  exists t. split; [exact Hin|]. split; [exact Hplain | reflexivity].
Qed.

Lemma saved_tag_is_found_witness :
  let d := db (snd (example_run (fun _ => py "TAGS: cat") [py "a.jpg"]
                      empty_database)) in
  exists r,
    In r (images (update_image_tags 1 [py "harbour"; py "dusk"] d))
    /\ row_id r = 1
    /\ tags r = [py "harbour"; py "dusk"]
    /\ where_clause (Some (py "dusk")) None r = true.
Proof.
  apply saved_tag_is_found.
  - discriminate.
  - right. left. reflexivity.
  - plain_string.
Defined.

(** ** Hashing: the chunks add up to the content *)

Section HashingProperties.

Variable hash_state : Type.
Variable sha256 : hash_state.
Variable update : hash_state -> list Byte.byte -> hash_state.
Variable hexdigest : hash_state -> pystr.

(** Feeding a hash object piece by piece is feeding it the whole. *)
Hypothesis update_app :
  forall s a b, update (update s a) b = update s (a ++ b).
Hypothesis update_nil : forall s, update s [] = s.

Lemma hash_chunks_eq (s : hash_state) (chunk : read_result)
    (reads : list read_result) :
  hash_chunks hash_state update s chunk reads
  = match chunk with
    | ReadRaises => Raise OtherException
    | Chunk [] => Ret s
    | Chunk (b :: data) =>
        match reads with
        | [] => Ret (update s (b :: data))
        | next :: reads' =>
            hash_chunks hash_state update (update s (b :: data)) next reads'
        end
    end.
Proof. destruct reads; reflexivity. Qed.

Lemma hash_chunks_next (s : hash_state) (reads : list read_result) :
  match reads with
  | [] => Ret s
  | next :: reads' => hash_chunks hash_state update s next reads'
  end
  = hash_chunks hash_state update s
      (match reads with [] => Chunk [] | c :: _ => c end) (tl reads).
Proof. destruct reads; reflexivity. Qed.

Lemma hash_chunks_content (chunks : list (list Byte.byte))
    (rest : list read_result) (s : hash_state) :
  Forall (fun c => c <> []) chunks ->
  (rest = [] \/ exists after, rest = Chunk [] :: after) ->
  hash_chunks hash_state update s
    (match map Chunk chunks ++ rest with [] => Chunk [] | c :: _ => c end)
    (tl (map Chunk chunks ++ rest))
  = Ret (update s (List.concat chunks)).
Proof.
  intros Hne Hrest. revert s.
  induction chunks as [|c cs IH]; intro s.
  - cbn [map app List.concat]. rewrite update_nil.
    destruct Hrest as [->|[after ->]]; rewrite hash_chunks_eq; reflexivity.
  - inversion Hne as [|x xs Hc Hne']; subst.
    destruct c as [|b data]; [congruence|].
    cbn [map app tl List.concat]. rewrite hash_chunks_eq.
    rewrite hash_chunks_next, (IH Hne'), update_app. reflexivity.
Qed.

Lemma hash_chunks_raises (chunks : list (list Byte.byte))
    (after : list read_result) (s : hash_state) :
  Forall (fun c => c <> []) chunks ->
  hash_chunks hash_state update s
    (match map Chunk chunks ++ ReadRaises :: after with
     | [] => Chunk []
     | c :: _ => c
     end)
    (tl (map Chunk chunks ++ ReadRaises :: after))
  = Raise OtherException.
Proof.
  intro Hne. revert s. induction chunks as [|c cs IH]; intro s;
    [cbn [map app tl]; rewrite hash_chunks_eq; reflexivity|].
  inversion Hne as [|x xs Hc Hne']; subst.
  destruct c as [|b data]; [congruence|].
  cbn [map app tl]. rewrite hash_chunks_eq.
  rewrite hash_chunks_next. apply (IH Hne').
Qed.

(** The hash of a file that is read to its end is the digest of its whole
    content, however the reads cut it into chunks, and whether or not
    anything could be read after the end.  A read that raises, or a file
    that cannot be opened, gives [None]. *)
Theorem calculate_file_hash_of_content (chunks : list (list Byte.byte))
    (after : list read_result) :
  Forall (fun c => c <> []) chunks ->
  calculate_file_hash_of hash_state sha256 update hexdigest
    (Some (map Chunk chunks ++ Chunk [] :: after))
  = Some (hexdigest (update sha256 (List.concat chunks)))
  /\ calculate_file_hash_of hash_state sha256 update hexdigest
       (Some (map Chunk chunks))
     = Some (hexdigest (update sha256 (List.concat chunks)))
  /\ calculate_file_hash_of hash_state sha256 update hexdigest
       (Some (map Chunk chunks ++ ReadRaises :: after)) = None
  /\ calculate_file_hash_of hash_state sha256 update hexdigest None = None.
Proof.
  intro Hne. unfold calculate_file_hash_of. cbv zeta. repeat split.
  - rewrite (hash_chunks_content chunks (Chunk [] :: after) sha256 Hne);
      [reflexivity | right; exists after; reflexivity].
  - rewrite <- (app_nil_r (map Chunk chunks)).
    rewrite (hash_chunks_content chunks [] sha256 Hne);
      [reflexivity | left; reflexivity].
  - rewrite (hash_chunks_raises chunks after sha256 Hne). reflexivity.
Qed.

End HashingProperties.

Lemma calculate_file_hash_of_content_witness :
  let text := fun s : list Byte.byte =>
                map (fun b => ascii_of_nat (Byte.to_nat b)) s in
  calculate_file_hash_of (list Byte.byte) [] (@app Byte.byte) text
    (Some [Chunk [Byte.x61; Byte.x62]; Chunk [Byte.x63]; Chunk []])
  = Some (py "abc").
Proof.
  cbv zeta.
  exact (proj1 (calculate_file_hash_of_content (list Byte.byte) []
                  (@app Byte.byte)
                  (fun s => map (fun b => ascii_of_nat (Byte.to_nat b)) s)
                  (fun s a b => eq_sym (app_assoc s a b))
                  (fun s => app_nil_r s)
                  [[Byte.x61; Byte.x62]; [Byte.x63]] []
                  ltac:(repeat constructor; discriminate))).
Defined.

(** ** Pipeline: the names of the stored files *)

Section StoredNames.

Variable str_of : pyval -> pystr.
Variable strptime_iso : pystr -> option pystr.
Variable w : world.
Variables images_dir thumbnails_dir : pystr.

Lemma process_item_names (T : Z) (st : run_state) (path : pystr) :
  exists new,
    images (db (process_item str_of strptime_iso w images_dir thumbnails_dir
                  T st path))
    = images (db st) ++ new
    /\ Forall (named_by_hash w thumbnails_dir) new.
Proof.
  unfold process_item.
  destruct (calculate_file_hash w path) as [h|];
    [|exists []; rewrite app_nil_r; split; [reflexivity | constructor]].
  destruct (truthy h); cbn [negb];
    [|exists []; rewrite app_nil_r; split; [reflexivity | constructor]].
  destruct (select_id_by_hash (db st) h) eqn:Es;
    [exists []; rewrite app_nil_r; split; [reflexivity | constructor]|].
  unfold import_file. cbv zeta.
  destruct (copy_raises w path);
    [exists []; rewrite app_nil_r; split; [reflexivity | constructor]|].
  destruct (fst (classify_image_with_ollama _ _)) as [ts|e];
    [|exists []; rewrite app_nil_r; split; [reflexivity | constructor]].
  unfold insert_image. destruct (binds_metadata _); cbn [negb];
    [|exists []; rewrite app_nil_r; split; [reflexivity | constructor]].
  rewrite Es. eexists [_].
  cbn [db write_progress logging]. rewrite images_add_or_update_tags.
  cbn [images]. split; [reflexivity|].
  constructor; [|constructor]. split; reflexivity.
Qed.

Lemma process_items_names (T : Z) (l : list pystr) (st : run_state) :
  exists new,
    images (db (fold_left (process_item str_of strptime_iso w images_dir
                             thumbnails_dir T) l st))
    = images (db st) ++ new
    /\ Forall (named_by_hash w thumbnails_dir) new.
Proof.
  revert st. induction l as [|p l IH]; intro st; cbn [fold_left].
  - exists []. rewrite app_nil_r. split; [reflexivity | constructor].
  - destruct (process_item_names T st p) as [new1 [E1 H1]].
    destruct (IH (process_item str_of strptime_iso w images_dir
                    thumbnails_dir T st p)) as [new2 [E2 H2]].
    exists (new1 ++ new2). rewrite E2, E1, <- app_assoc.
    split; [reflexivity | apply Forall_app; split; assumption].
Qed.

(** Every record a run adds is stored under the first ten characters of
    its hash followed by the base name of its original path, thumbnail
    included.  So two added records whose hashes start with the same ten
    characters and whose files have the same base name share one stored
    file name and one thumbnail name: both copies went to the same path. *)
Theorem stored_names_come_from_hash_and_base_name
    (image_files : list pystr) (batch_size : Z) (catalog : database) :
  exists new,
    images (db (snd (process_images str_of strptime_iso w images_dir
                       thumbnails_dir image_files batch_size catalog)))
    = images catalog ++ new
    /\ Forall (named_by_hash w thumbnails_dir) new
    /\ forall r1 r2,
         In r1 new -> In r2 new ->
         firstn 10 (hash r1) = firstn 10 (hash r2) ->
         basename w (original_path r1) = basename w (original_path r2) ->
         filename r1 = filename r2 /\ thumbnail_path r1 = thumbnail_path r2.
Proof.
  assert (H : exists new,
            images (db (snd (process_images str_of strptime_iso w images_dir
                               thumbnails_dir image_files batch_size catalog)))
            = images catalog ++ new
            /\ Forall (named_by_hash w thumbnails_dir) new).
  { unfold process_images. cbv zeta.
    destruct (batch_size =? 0); cbn [snd].
    - exists []. rewrite app_nil_r. split; [reflexivity | constructor].
    - rewrite db_write_progress.
      unfold process_batch. rewrite fold_left_concat.
      destruct (process_items_names (Z.of_nat (List.length image_files))
                  (List.concat
                     (if batch_size <? 0 then []
                      else batches_of image_files batch_size))
                  (write_progress w (Z.of_nat (List.length image_files)) 0
                     (py "starting")
                     {| db := catalog; processed := 0; skipped := 0;
                        written := []; log := [] |}))
        as [new [E Hn]].
      exists new. split; [exact E | exact Hn]. }
  destruct H as [new [E Hn]]. exists new.
  split; [exact E|]. split; [exact Hn|].
  intros r1 r2 H1 H2 Hh Hb. rewrite Forall_forall in Hn.
  destruct (Hn r1 H1) as [F1 T1]. destruct (Hn r2 H2) as [F2 T2].
  assert (F : filename r1 = filename r2) by (rewrite F1, F2, Hh, Hb; reflexivity).
  split; [exact F | rewrite T1, T2, F; reflexivity].
Qed.

End StoredNames.
